(** * EightBall: a shallow embedding of the language front-end

    This development embeds [eightball.c] (the editor, interpreter and
    single-pass compiler of the EightBall language) as Rocq functions over an
    explicit machine state, and proves properties of the embedded code.

    The embedding follows the Linux build of the source ([__GNUC__] defined,
    none of [A2E], [C64], [VIC20], [EXTMEM]): [int] and pointers are 32 bits
    wide.  Conventions:

    - every C global is a field of the record [state];
    - a C function [f] becomes a state transformer [f : M A]; a function that
      returns the error flag returns [bool] ([RET_ERROR] is [true]);
    - [longjmp], [exit] and behaviour that C leaves undefined are distinct
      outcomes, they are never confused with a normal return;
    - the cursor [txtPtr] is the text that remains to be read (a pointer into
      an immutable NUL-terminated buffer);
    - functions that can recurse or loop without a structural bound take a
      fuel argument; running out of fuel is the outcome [OutOfFuel]. *)

From Stdlib Require Import ZArith List String Ascii Bool Lia.
Import ListNotations.
Local Open Scope string_scope.
Local Open Scope Z_scope.

(** ** Integers and characters *)

(** A C [int] of the 32-bit build: a [Z] in [-2^31, 2^31), arithmetic wraps. *)
Definition wrap (z : Z) : Z := (z + 2147483648) mod 4294967296 - 2147483648.

(** Conversion to [unsigned char]. *)
Definition u8 (z : Z) : Z := z mod 256.

Definition code_of (c : ascii) : Z := Z.of_N (N_of_ascii c).

(** The value of a (signed) [char] read from the text. *)
Definition char_int (c : ascii) : Z :=
  let n := code_of c in if n <? 128 then n else n - 256.

Definition ascii_of_int (z : Z) : ascii := ascii_of_N (Z.to_N (u8 z)).

Definition is_nul (c : ascii) : bool := Ascii.eqb c zero.

(** [isalphach] and [isdigitch] macros. *)
Definition isalphach (c : ascii) : bool :=
  let n := code_of c in
  ((97 <=? n) && (n <=? 122)) || ((65 <=? n) && (n <=? 90)).

Definition isdigitch (c : ascii) : bool :=
  let n := code_of c in (48 <=? n) && (n <=? 57).

Definition isalnumch (c : ascii) : bool := isalphach c || isdigitch c.

(** [_pow]: x^y by repeated multiplication; the loop does not run for y <= 0. *)
Definition _pow (x y : Z) : Z := Z.iter y (fun ret => wrap (ret * x)) 1.

(** ** Reading NUL-terminated text *)

(** [*p] *)
Definition peek (p : string) : ascii :=
  match p with EmptyString => zero | String c _ => c end.

(** [*(p+1)], only read by the source when [*p] is not NUL. *)
Definition peek1 (p : string) : ascii :=
  match p with EmptyString => zero | String _ r => peek r end.

(** [p+1]; there is nothing to point at behind the terminating NUL. *)
Definition next (p : string) : option string :=
  match p with
  | EmptyString => None
  | String c r => if is_nul c then None else Some r
  end.

(** The [eatspace] macro on a cursor. *)
Fixpoint skip_spaces (p : string) : string :=
  match p with
  | String c r => if Ascii.eqb c " " then skip_spaces r else p
  | EmptyString => p
  end.

(** [strncmp (p, kw, strlen kw) == 0]: the text at [p] starts with [kw]. *)
Fixpoint starts_with (kw p : string) : bool :=
  match kw with
  | EmptyString => true
  | String k kw' =>
      match p with
      | String c r => if is_nul c then false else Ascii.eqb c k && starts_with kw' r
      | EmptyString => false
      end
  end.

(** Drop [n] characters that are known to be there. *)
Fixpoint drop (n : nat) (p : string) : string :=
  match n with
  | O => p
  | S n' => match p with String _ r => drop n' r | EmptyString => EmptyString end
  end.

(** The first [n] characters of a C string (what [strncpy] into a [char[n]]
    keeps and [strncmp] with bound [n] looks at). *)
Fixpoint strn (n : nat) (p : string) : string :=
  match n with
  | O => EmptyString
  | S n' =>
      match p with
      | String c r => if is_nul c then EmptyString else String c (strn n' r)
      | EmptyString => EmptyString
      end
  end.

(** The C string at [p]: the characters in front of the first NUL. *)
Fixpoint cstr (p : string) : string :=
  match p with
  | String c r => if is_nul c then EmptyString else String c (cstr r)
  | EmptyString => EmptyString
  end.

(** Split off the leading run of letters and digits:
    the source's scan loops over [isalphach] and [isdigitch]. *)
Fixpoint span_alnum (p : string) : string * string :=
  match p with
  | String c r =>
      if isalnumch c then let '(w, rest) := span_alnum r in (String c w, rest)
      else (EmptyString, p)
  | EmptyString => (EmptyString, p)
  end.

(** ** Constants of the source *)

Definition VARNUMCHARS : nat := 4.
Definition SUBRNUMCHARS : nat := 8.
Definition FILENAMELEN : nat := 15.
Definition STACKSZ : Z := 16.
Definition RETSTACKSZ : Z := 64.

Definition TOK_POW := 245.
Definition TOK_DIV := 246.
Definition TOK_MOD := 247.
Definition TOK_MUL := 248.
Definition TOK_ADD := 249.
Definition TOK_SUB := 250.
Definition TOK_GT := 251.
Definition TOK_LT := 252.
Definition TOK_BITAND := 253.
Definition TOK_BITOR := 254.
Definition TOK_BITXOR := 255.

Definition TOK_EQL := 237.
Definition TOK_NEQL := 238.
Definition TOK_GTE := 239.
Definition TOK_LTE := 240.
Definition TOK_AND := 241.
Definition TOK_OR := 242.
Definition TOK_LSH := 243.
Definition TOK_RSH := 244.

Definition TOK_UNM := 231.
Definition TOK_UNP := 232.
Definition TOK_NOT := 233.
Definition TOK_BITNOT := 234.
Definition TOK_STAR := 235.
Definition TOK_CARET := 236.

Definition SENTINEL := 50.
Definition ILLEGAL := 100.

Definition IS1CHBINARY (tok : Z) : bool := (TOK_POW <=? tok) && (tok <=? TOK_BITXOR).
Definition IS2CHBINARY (tok : Z) : bool := (TOK_EQL <=? tok) && (tok <=? TOK_RSH).
Definition ISUNARY (tok : Z) : bool := (TOK_UNM <=? tok) && (tok <=? TOK_CARET).

Definition binaryops := "^/%*+-><&|!".
Definition binaryops1 := "=!><&|<>".
Definition binaryops2 := "====&|<>".
Definition unaryops := "-+!~*^".

Definition ERR_FIRST := 101.
Definition ERR_NOIF := 101.
Definition ERR_NOFOR := 102.
Definition ERR_NOWHILE := 103.
Definition ERR_NOSUB := 104.
Definition ERR_STACK := 105.
Definition ERR_COMPLEX := 106.
Definition ERR_VAR := 107.
Definition ERR_REDEF := 108.
Definition ERR_EXPECT := 109.
Definition ERR_EXTRA := 110.
Definition ERR_DIM := 111.
Definition ERR_SUBSCR := 112.
Definition ERR_RUNSUB := 113.
Definition ERR_STR := 114.
Definition ERR_FILE := 115.
Definition ERR_LINE := 116.
Definition ERR_EXPR := 117.
Definition ERR_NUM := 118.
Definition ERR_ARG := 119.
Definition ERR_TYPE := 120.
Definition ERR_DIVZERO := 121.
Definition ERR_VALUE := 122.
Definition ERR_CONST := 123.
Definition ERR_STCONST := 124.
Definition ERR_TOOLONG := 125.
Definition ERR_LINK := 126.

Definition errmsgs : list string :=
  [ "no if"; "no for"; "no while"; "no sub"; "stack"; "complex"; "expect var";
    "redef"; "expected "; "extra"; "bad dim"; "bad idx"; "ran into sub";
    "bad str"; "file"; "bad line#"; "bad expr"; "bad num"; "arg"; "type";
    "div/0"; "bad val"; "not const"; "const"; "too long"; "link" ].

(** Magic numbers of the return-stack frames. *)
Definition CALLFRAME := 65534.
Definition IFFRAME := 65533.
Definition FORFRAME_B := 65532.
Definition FORFRAME_W := 65531.
Definition WHILEFRAME := 65530.

Definition RET_SUCCESS : bool := false.
Definition RET_ERROR : bool := true.

(** [enum types] *)
Definition TYPE_CONST := 0.
Definition TYPE_WORD := 1.
Definition TYPE_BYTE := 2.

Definition STRG_INIT := 0.
Definition LIST_INIT := 1.

Definition WORD_MODE := 0.
Definition BYTE_MODE := 1.
Definition CONST_MODE := 2.
Definition LET_MODE := 3.
Definition FOR_MODE := 4.

(** Layout of the 32-bit build: [sizeof(var_t)] (4 name bytes, the type byte,
    padding, the link) and [sizeof(int)]; size of arena 1. *)
Definition SZ_VAR := 12.
Definition SZ_INT := 4.
Definition HEAP1SZ := 16384.

(** ** Operator precedence *)

(** [getprecedence]; [None] is the [default:] branch, which calls [EXIT(99)]. *)
Definition getprecedence (token : Z) : option Z :=
  if (token =? TOK_UNP) || (token =? TOK_UNM) || (token =? TOK_STAR)
     || (token =? TOK_CARET) || (token =? TOK_NOT) || (token =? TOK_BITNOT)
  then Some 11
  else if (token =? TOK_POW) || (token =? TOK_DIV) || (token =? TOK_MUL)
          || (token =? TOK_MOD)
  then Some 10
  else if (token =? TOK_ADD) || (token =? TOK_SUB) then Some 9
  else if (token =? TOK_LSH) || (token =? TOK_RSH) then Some 8
  else if (token =? TOK_GT) || (token =? TOK_GTE) || (token =? TOK_LT)
          || (token =? TOK_LTE)
  then Some 7
  else if (token =? TOK_EQL) || (token =? TOK_NEQL) then Some 6
  else if token =? TOK_BITAND then Some 5
  else if token =? TOK_BITXOR then Some 4
  else if token =? TOK_BITOR then Some 3
  else if token =? TOK_AND then Some 2
  else if token =? TOK_OR then Some 1
  else if token =? SENTINEL then Some 0
  else None.

(** ** Tokenising operators *)

(** The two-character scan of [binary]: walk [binaryops1]/[binaryops2] in
    step, the token counts up from [TOK_EQL]. *)
Fixpoint binary2 (ops1 ops2 : string) (tok : Z) (p : string) : option Z :=
  match ops1, ops2 with
  | String o1 r1, String o2 r2 =>
      if Ascii.eqb o1 (peek p) && Ascii.eqb o2 (peek1 p) then Some tok
      else binary2 r1 r2 (tok + 1) p
  | _, _ => None
  end.

(** A one-character scan, shared by [binary] and [unary]. *)
Fixpoint scan1 (ops : string) (tok : Z) (p : string) : Z :=
  match ops with
  | String o r => if Ascii.eqb o (peek p) then tok else scan1 r (tok + 1) p
  | EmptyString => ILLEGAL
  end.

Definition binary (p : string) : Z :=
  match (if is_nul (peek p) then None else binary2 binaryops1 binaryops2 TOK_EQL p) with
  | Some tok => tok
  | None => scan1 binaryops TOK_POW p
  end.

Definition unary (p : string) : Z := scan1 unaryops TOK_UNM p.

(** ** Data model *)

(** [enum bytecode] of the virtual machine: the opcodes the front-end emits.
    Their numeric values belong to the VM and are not needed here. *)
Inductive bytecode : Type :=
| VM_ADD | VM_AND | VM_BITAND | VM_BITNOT | VM_BITOR | VM_BITXOR | VM_BRNCHIMM
| VM_DEC | VM_DISCARD | VM_DIV | VM_DROP | VM_DUP | VM_END | VM_EQL | VM_FPTOSP
| VM_GT | VM_GTE | VM_INC | VM_JMPIMM | VM_JSRIMM | VM_KBDCH | VM_KBDLN
| VM_LDABYTE | VM_LDABYTEIMM | VM_LDAWORD | VM_LDAWORDIMM | VM_LDIMM
| VM_LDRBYTE | VM_LDRBYTEIMM | VM_LDRWORD | VM_LDRWORDIMM | VM_LSH | VM_LT
| VM_LTE | VM_MOD | VM_MUL | VM_NEG | VM_NEQL | VM_NOT | VM_OR | VM_POPBYTE
| VM_POPWORD | VM_PRCH | VM_PRDEC | VM_PRHEX | VM_PRMSG | VM_PRSTR | VM_PSHBYTE
| VM_PSHWORD | VM_RSH | VM_RTOA | VM_RTS | VM_SPTOFP | VM_STABYTE
| VM_STABYTEIMM | VM_STAWORD | VM_STAWORDIMM | VM_STRBYTE | VM_STRBYTEIMM
| VM_STRWORD | VM_STRWORDIMM | VM_SUB | VM_SWAP.

(** One byte of emitted code: an opcode or a plain byte of an operand. *)
Inductive cell : Type :=
| Op (c : bytecode)
| Byte (b : Z).

(** A slot of [return_stack].  The source stores [int]s and, cast to [int],
    text pointers.  A text pointer is kept as the text it points at; it is
    taken to differ from every frame tag and from the line numbers -1 and -2
    (no buffer lives at those addresses). *)
Inductive rval : Type :=
| RInt (z : Z)
| RTxt (p : string).

(** What follows the [vartabent] header in arena 1: one [int] (the value of
    a word scalar; in compile mode the VM address of any scalar), one
    [unsigned char] (the value of a byte scalar), or the two words of an
    array header, pointer to the body and element count, followed, when the
    entry owns its body, by the elements ([None]: never written). *)
Inductive payload : Type :=
| IntCell (val : Z)
| ByteCell (val : Z)
| Arr (bodyptr size : Z) (elems : list (option Z)).

(** [struct vartabent], with the address it was allocated at. *)
Record var_t := mkVar {
  v_addr : Z;
  v_name : string;
  v_type : Z;
  v_data : payload
}.

(** [struct subtabent] *)
Record sub_t := mkSub {
  s_name : string;
  s_addr : Z
}.

(** Calls of the console primitives of [eightballutils]: [printchar] (and
    [print], one character at a time), [printdec], [printhex]. *)
Inductive event : Type :=
| PrCh (c : ascii)
| PrDec (n : Z)
| PrHex (n : Z).

Record state := mkState {
  compile : bool;  (* 0 means interpret, 1 means compile *)
  compilingsub : bool;  (* 1 when compiling a subroutine *)
  onlyconstants : bool;  (* 1 means only allow constant expressions *)
  compiletimelookup : bool;  (* makes getintvar look up instead of generating code *)
  readbuf : string;  (* scratch buffer: names, string arguments *)
  filename : string;  (* name of the bytecode file *)
  txtPtr : string;  (* next character to read *)
  operand_stack : list Z;  (* grows down *)
  operator_stack : list Z;  (* grows down *)
  return_stack : list rval;  (* grows down *)
  operatorSP : Z;
  operandSP : Z;
  returnSP : Z;
  rtPC : Z;  (* program counter when compiling *)
  rtSP : Z;  (* stack pointer when compiling *)
  rtFP : Z;  (* frame pointer when compiling *)
  rtPCBeforeEval : Z;  (* stashed copy of the program counter *)
  code : list cell;  (* the bytes written through codeptr, from CODESTART *)
  current : option nat;  (* the current line, as its index in program; None is NULL *)
  counter : Z;  (* line number counter *)
  retregister : Z;  (* return value of a subroutine *)
  heap1Ptr : Z;  (* arena 1: top-down stack *)
  editmode : Z;  (* 0 not editing, 1 editing, 2 insert first line *)
  program : list string;  (* the lines of code, first line first *)
  skipFlag : bool;
  calllevel : Z;
  vars : list var_t;  (* the variable table, from varsbegin to varsend *)
  varslocal : option nat;  (* local stack frame, as an index in vars; None is NULL *)
  subs : list sub_t;  (* subroutine entry points, from subsbegin to subsend *)
  calls : list sub_t;  (* subroutine calls, from callsbegin to callsend *)
  out : list event;  (* what has been sent to the console *)
  files : list (string * list cell)  (* files written by writebytecode *)
}.

(** Assignment to one global: the record with one field replaced. *)
Definition set_compile (x : bool) (s : state) : state :=
  mkState
    x (s.(compilingsub)) (s.(onlyconstants)) (s.(compiletimelookup))
    (s.(readbuf)) (s.(filename)) (s.(txtPtr)) (s.(operand_stack))
    (s.(operator_stack)) (s.(return_stack)) (s.(operatorSP)) (s.(operandSP))
    (s.(returnSP)) (s.(rtPC)) (s.(rtSP)) (s.(rtFP)) (s.(rtPCBeforeEval))
    (s.(code)) (s.(current)) (s.(counter)) (s.(retregister)) (s.(heap1Ptr))
    (s.(editmode)) (s.(program)) (s.(skipFlag)) (s.(calllevel)) (s.(vars))
    (s.(varslocal)) (s.(subs)) (s.(calls)) (s.(out)) (s.(files)).
Definition set_compilingsub (x : bool) (s : state) : state :=
  mkState
    (s.(compile)) x (s.(onlyconstants)) (s.(compiletimelookup)) (s.(readbuf))
    (s.(filename)) (s.(txtPtr)) (s.(operand_stack)) (s.(operator_stack))
    (s.(return_stack)) (s.(operatorSP)) (s.(operandSP)) (s.(returnSP))
    (s.(rtPC)) (s.(rtSP)) (s.(rtFP)) (s.(rtPCBeforeEval)) (s.(code))
    (s.(current)) (s.(counter)) (s.(retregister)) (s.(heap1Ptr))
    (s.(editmode)) (s.(program)) (s.(skipFlag)) (s.(calllevel)) (s.(vars))
    (s.(varslocal)) (s.(subs)) (s.(calls)) (s.(out)) (s.(files)).
Definition set_onlyconstants (x : bool) (s : state) : state :=
  mkState
    (s.(compile)) (s.(compilingsub)) x (s.(compiletimelookup)) (s.(readbuf))
    (s.(filename)) (s.(txtPtr)) (s.(operand_stack)) (s.(operator_stack))
    (s.(return_stack)) (s.(operatorSP)) (s.(operandSP)) (s.(returnSP))
    (s.(rtPC)) (s.(rtSP)) (s.(rtFP)) (s.(rtPCBeforeEval)) (s.(code))
    (s.(current)) (s.(counter)) (s.(retregister)) (s.(heap1Ptr))
    (s.(editmode)) (s.(program)) (s.(skipFlag)) (s.(calllevel)) (s.(vars))
    (s.(varslocal)) (s.(subs)) (s.(calls)) (s.(out)) (s.(files)).
Definition set_compiletimelookup (x : bool) (s : state) : state :=
  mkState
    (s.(compile)) (s.(compilingsub)) (s.(onlyconstants)) x (s.(readbuf))
    (s.(filename)) (s.(txtPtr)) (s.(operand_stack)) (s.(operator_stack))
    (s.(return_stack)) (s.(operatorSP)) (s.(operandSP)) (s.(returnSP))
    (s.(rtPC)) (s.(rtSP)) (s.(rtFP)) (s.(rtPCBeforeEval)) (s.(code))
    (s.(current)) (s.(counter)) (s.(retregister)) (s.(heap1Ptr))
    (s.(editmode)) (s.(program)) (s.(skipFlag)) (s.(calllevel)) (s.(vars))
    (s.(varslocal)) (s.(subs)) (s.(calls)) (s.(out)) (s.(files)).
Definition set_readbuf (x : string) (s : state) : state :=
  mkState
    (s.(compile)) (s.(compilingsub)) (s.(onlyconstants))
    (s.(compiletimelookup)) x (s.(filename)) (s.(txtPtr)) (s.(operand_stack))
    (s.(operator_stack)) (s.(return_stack)) (s.(operatorSP)) (s.(operandSP))
    (s.(returnSP)) (s.(rtPC)) (s.(rtSP)) (s.(rtFP)) (s.(rtPCBeforeEval))
    (s.(code)) (s.(current)) (s.(counter)) (s.(retregister)) (s.(heap1Ptr))
    (s.(editmode)) (s.(program)) (s.(skipFlag)) (s.(calllevel)) (s.(vars))
    (s.(varslocal)) (s.(subs)) (s.(calls)) (s.(out)) (s.(files)).
Definition set_filename (x : string) (s : state) : state :=
  mkState
    (s.(compile)) (s.(compilingsub)) (s.(onlyconstants))
    (s.(compiletimelookup)) (s.(readbuf)) x (s.(txtPtr)) (s.(operand_stack))
    (s.(operator_stack)) (s.(return_stack)) (s.(operatorSP)) (s.(operandSP))
    (s.(returnSP)) (s.(rtPC)) (s.(rtSP)) (s.(rtFP)) (s.(rtPCBeforeEval))
    (s.(code)) (s.(current)) (s.(counter)) (s.(retregister)) (s.(heap1Ptr))
    (s.(editmode)) (s.(program)) (s.(skipFlag)) (s.(calllevel)) (s.(vars))
    (s.(varslocal)) (s.(subs)) (s.(calls)) (s.(out)) (s.(files)).
Definition set_txtPtr (x : string) (s : state) : state :=
  mkState
    (s.(compile)) (s.(compilingsub)) (s.(onlyconstants))
    (s.(compiletimelookup)) (s.(readbuf)) (s.(filename)) x
    (s.(operand_stack)) (s.(operator_stack)) (s.(return_stack))
    (s.(operatorSP)) (s.(operandSP)) (s.(returnSP)) (s.(rtPC)) (s.(rtSP))
    (s.(rtFP)) (s.(rtPCBeforeEval)) (s.(code)) (s.(current)) (s.(counter))
    (s.(retregister)) (s.(heap1Ptr)) (s.(editmode)) (s.(program))
    (s.(skipFlag)) (s.(calllevel)) (s.(vars)) (s.(varslocal)) (s.(subs))
    (s.(calls)) (s.(out)) (s.(files)).
Definition set_operand_stack (x : list Z) (s : state) : state :=
  mkState
    (s.(compile)) (s.(compilingsub)) (s.(onlyconstants))
    (s.(compiletimelookup)) (s.(readbuf)) (s.(filename)) (s.(txtPtr)) x
    (s.(operator_stack)) (s.(return_stack)) (s.(operatorSP)) (s.(operandSP))
    (s.(returnSP)) (s.(rtPC)) (s.(rtSP)) (s.(rtFP)) (s.(rtPCBeforeEval))
    (s.(code)) (s.(current)) (s.(counter)) (s.(retregister)) (s.(heap1Ptr))
    (s.(editmode)) (s.(program)) (s.(skipFlag)) (s.(calllevel)) (s.(vars))
    (s.(varslocal)) (s.(subs)) (s.(calls)) (s.(out)) (s.(files)).
Definition set_operator_stack (x : list Z) (s : state) : state :=
  mkState
    (s.(compile)) (s.(compilingsub)) (s.(onlyconstants))
    (s.(compiletimelookup)) (s.(readbuf)) (s.(filename)) (s.(txtPtr))
    (s.(operand_stack)) x (s.(return_stack)) (s.(operatorSP)) (s.(operandSP))
    (s.(returnSP)) (s.(rtPC)) (s.(rtSP)) (s.(rtFP)) (s.(rtPCBeforeEval))
    (s.(code)) (s.(current)) (s.(counter)) (s.(retregister)) (s.(heap1Ptr))
    (s.(editmode)) (s.(program)) (s.(skipFlag)) (s.(calllevel)) (s.(vars))
    (s.(varslocal)) (s.(subs)) (s.(calls)) (s.(out)) (s.(files)).
Definition set_return_stack (x : list rval) (s : state) : state :=
  mkState
    (s.(compile)) (s.(compilingsub)) (s.(onlyconstants))
    (s.(compiletimelookup)) (s.(readbuf)) (s.(filename)) (s.(txtPtr))
    (s.(operand_stack)) (s.(operator_stack)) x (s.(operatorSP))
    (s.(operandSP)) (s.(returnSP)) (s.(rtPC)) (s.(rtSP)) (s.(rtFP))
    (s.(rtPCBeforeEval)) (s.(code)) (s.(current)) (s.(counter))
    (s.(retregister)) (s.(heap1Ptr)) (s.(editmode)) (s.(program))
    (s.(skipFlag)) (s.(calllevel)) (s.(vars)) (s.(varslocal)) (s.(subs))
    (s.(calls)) (s.(out)) (s.(files)).
Definition set_operatorSP (x : Z) (s : state) : state :=
  mkState
    (s.(compile)) (s.(compilingsub)) (s.(onlyconstants))
    (s.(compiletimelookup)) (s.(readbuf)) (s.(filename)) (s.(txtPtr))
    (s.(operand_stack)) (s.(operator_stack)) (s.(return_stack)) x
    (s.(operandSP)) (s.(returnSP)) (s.(rtPC)) (s.(rtSP)) (s.(rtFP))
    (s.(rtPCBeforeEval)) (s.(code)) (s.(current)) (s.(counter))
    (s.(retregister)) (s.(heap1Ptr)) (s.(editmode)) (s.(program))
    (s.(skipFlag)) (s.(calllevel)) (s.(vars)) (s.(varslocal)) (s.(subs))
    (s.(calls)) (s.(out)) (s.(files)).
Definition set_operandSP (x : Z) (s : state) : state :=
  mkState
    (s.(compile)) (s.(compilingsub)) (s.(onlyconstants))
    (s.(compiletimelookup)) (s.(readbuf)) (s.(filename)) (s.(txtPtr))
    (s.(operand_stack)) (s.(operator_stack)) (s.(return_stack))
    (s.(operatorSP)) x (s.(returnSP)) (s.(rtPC)) (s.(rtSP)) (s.(rtFP))
    (s.(rtPCBeforeEval)) (s.(code)) (s.(current)) (s.(counter))
    (s.(retregister)) (s.(heap1Ptr)) (s.(editmode)) (s.(program))
    (s.(skipFlag)) (s.(calllevel)) (s.(vars)) (s.(varslocal)) (s.(subs))
    (s.(calls)) (s.(out)) (s.(files)).
Definition set_returnSP (x : Z) (s : state) : state :=
  mkState
    (s.(compile)) (s.(compilingsub)) (s.(onlyconstants))
    (s.(compiletimelookup)) (s.(readbuf)) (s.(filename)) (s.(txtPtr))
    (s.(operand_stack)) (s.(operator_stack)) (s.(return_stack))
    (s.(operatorSP)) (s.(operandSP)) x (s.(rtPC)) (s.(rtSP)) (s.(rtFP))
    (s.(rtPCBeforeEval)) (s.(code)) (s.(current)) (s.(counter))
    (s.(retregister)) (s.(heap1Ptr)) (s.(editmode)) (s.(program))
    (s.(skipFlag)) (s.(calllevel)) (s.(vars)) (s.(varslocal)) (s.(subs))
    (s.(calls)) (s.(out)) (s.(files)).
Definition set_rtPC (x : Z) (s : state) : state :=
  mkState
    (s.(compile)) (s.(compilingsub)) (s.(onlyconstants))
    (s.(compiletimelookup)) (s.(readbuf)) (s.(filename)) (s.(txtPtr))
    (s.(operand_stack)) (s.(operator_stack)) (s.(return_stack))
    (s.(operatorSP)) (s.(operandSP)) (s.(returnSP)) x (s.(rtSP)) (s.(rtFP))
    (s.(rtPCBeforeEval)) (s.(code)) (s.(current)) (s.(counter))
    (s.(retregister)) (s.(heap1Ptr)) (s.(editmode)) (s.(program))
    (s.(skipFlag)) (s.(calllevel)) (s.(vars)) (s.(varslocal)) (s.(subs))
    (s.(calls)) (s.(out)) (s.(files)).
Definition set_rtSP (x : Z) (s : state) : state :=
  mkState
    (s.(compile)) (s.(compilingsub)) (s.(onlyconstants))
    (s.(compiletimelookup)) (s.(readbuf)) (s.(filename)) (s.(txtPtr))
    (s.(operand_stack)) (s.(operator_stack)) (s.(return_stack))
    (s.(operatorSP)) (s.(operandSP)) (s.(returnSP)) (s.(rtPC)) x (s.(rtFP))
    (s.(rtPCBeforeEval)) (s.(code)) (s.(current)) (s.(counter))
    (s.(retregister)) (s.(heap1Ptr)) (s.(editmode)) (s.(program))
    (s.(skipFlag)) (s.(calllevel)) (s.(vars)) (s.(varslocal)) (s.(subs))
    (s.(calls)) (s.(out)) (s.(files)).
Definition set_rtFP (x : Z) (s : state) : state :=
  mkState
    (s.(compile)) (s.(compilingsub)) (s.(onlyconstants))
    (s.(compiletimelookup)) (s.(readbuf)) (s.(filename)) (s.(txtPtr))
    (s.(operand_stack)) (s.(operator_stack)) (s.(return_stack))
    (s.(operatorSP)) (s.(operandSP)) (s.(returnSP)) (s.(rtPC)) (s.(rtSP)) x
    (s.(rtPCBeforeEval)) (s.(code)) (s.(current)) (s.(counter))
    (s.(retregister)) (s.(heap1Ptr)) (s.(editmode)) (s.(program))
    (s.(skipFlag)) (s.(calllevel)) (s.(vars)) (s.(varslocal)) (s.(subs))
    (s.(calls)) (s.(out)) (s.(files)).
Definition set_rtPCBeforeEval (x : Z) (s : state) : state :=
  mkState
    (s.(compile)) (s.(compilingsub)) (s.(onlyconstants))
    (s.(compiletimelookup)) (s.(readbuf)) (s.(filename)) (s.(txtPtr))
    (s.(operand_stack)) (s.(operator_stack)) (s.(return_stack))
    (s.(operatorSP)) (s.(operandSP)) (s.(returnSP)) (s.(rtPC)) (s.(rtSP))
    (s.(rtFP)) x (s.(code)) (s.(current)) (s.(counter)) (s.(retregister))
    (s.(heap1Ptr)) (s.(editmode)) (s.(program)) (s.(skipFlag))
    (s.(calllevel)) (s.(vars)) (s.(varslocal)) (s.(subs)) (s.(calls))
    (s.(out)) (s.(files)).
Definition set_code (x : list cell) (s : state) : state :=
  mkState
    (s.(compile)) (s.(compilingsub)) (s.(onlyconstants))
    (s.(compiletimelookup)) (s.(readbuf)) (s.(filename)) (s.(txtPtr))
    (s.(operand_stack)) (s.(operator_stack)) (s.(return_stack))
    (s.(operatorSP)) (s.(operandSP)) (s.(returnSP)) (s.(rtPC)) (s.(rtSP))
    (s.(rtFP)) (s.(rtPCBeforeEval)) x (s.(current)) (s.(counter))
    (s.(retregister)) (s.(heap1Ptr)) (s.(editmode)) (s.(program))
    (s.(skipFlag)) (s.(calllevel)) (s.(vars)) (s.(varslocal)) (s.(subs))
    (s.(calls)) (s.(out)) (s.(files)).
Definition set_current (x : option nat) (s : state) : state :=
  mkState
    (s.(compile)) (s.(compilingsub)) (s.(onlyconstants))
    (s.(compiletimelookup)) (s.(readbuf)) (s.(filename)) (s.(txtPtr))
    (s.(operand_stack)) (s.(operator_stack)) (s.(return_stack))
    (s.(operatorSP)) (s.(operandSP)) (s.(returnSP)) (s.(rtPC)) (s.(rtSP))
    (s.(rtFP)) (s.(rtPCBeforeEval)) (s.(code)) x (s.(counter))
    (s.(retregister)) (s.(heap1Ptr)) (s.(editmode)) (s.(program))
    (s.(skipFlag)) (s.(calllevel)) (s.(vars)) (s.(varslocal)) (s.(subs))
    (s.(calls)) (s.(out)) (s.(files)).
Definition set_counter (x : Z) (s : state) : state :=
  mkState
    (s.(compile)) (s.(compilingsub)) (s.(onlyconstants))
    (s.(compiletimelookup)) (s.(readbuf)) (s.(filename)) (s.(txtPtr))
    (s.(operand_stack)) (s.(operator_stack)) (s.(return_stack))
    (s.(operatorSP)) (s.(operandSP)) (s.(returnSP)) (s.(rtPC)) (s.(rtSP))
    (s.(rtFP)) (s.(rtPCBeforeEval)) (s.(code)) (s.(current)) x
    (s.(retregister)) (s.(heap1Ptr)) (s.(editmode)) (s.(program))
    (s.(skipFlag)) (s.(calllevel)) (s.(vars)) (s.(varslocal)) (s.(subs))
    (s.(calls)) (s.(out)) (s.(files)).
Definition set_retregister (x : Z) (s : state) : state :=
  mkState
    (s.(compile)) (s.(compilingsub)) (s.(onlyconstants))
    (s.(compiletimelookup)) (s.(readbuf)) (s.(filename)) (s.(txtPtr))
    (s.(operand_stack)) (s.(operator_stack)) (s.(return_stack))
    (s.(operatorSP)) (s.(operandSP)) (s.(returnSP)) (s.(rtPC)) (s.(rtSP))
    (s.(rtFP)) (s.(rtPCBeforeEval)) (s.(code)) (s.(current)) (s.(counter)) x
    (s.(heap1Ptr)) (s.(editmode)) (s.(program)) (s.(skipFlag))
    (s.(calllevel)) (s.(vars)) (s.(varslocal)) (s.(subs)) (s.(calls))
    (s.(out)) (s.(files)).
Definition set_heap1Ptr (x : Z) (s : state) : state :=
  mkState
    (s.(compile)) (s.(compilingsub)) (s.(onlyconstants))
    (s.(compiletimelookup)) (s.(readbuf)) (s.(filename)) (s.(txtPtr))
    (s.(operand_stack)) (s.(operator_stack)) (s.(return_stack))
    (s.(operatorSP)) (s.(operandSP)) (s.(returnSP)) (s.(rtPC)) (s.(rtSP))
    (s.(rtFP)) (s.(rtPCBeforeEval)) (s.(code)) (s.(current)) (s.(counter))
    (s.(retregister)) x (s.(editmode)) (s.(program)) (s.(skipFlag))
    (s.(calllevel)) (s.(vars)) (s.(varslocal)) (s.(subs)) (s.(calls))
    (s.(out)) (s.(files)).
Definition set_editmode (x : Z) (s : state) : state :=
  mkState
    (s.(compile)) (s.(compilingsub)) (s.(onlyconstants))
    (s.(compiletimelookup)) (s.(readbuf)) (s.(filename)) (s.(txtPtr))
    (s.(operand_stack)) (s.(operator_stack)) (s.(return_stack))
    (s.(operatorSP)) (s.(operandSP)) (s.(returnSP)) (s.(rtPC)) (s.(rtSP))
    (s.(rtFP)) (s.(rtPCBeforeEval)) (s.(code)) (s.(current)) (s.(counter))
    (s.(retregister)) (s.(heap1Ptr)) x (s.(program)) (s.(skipFlag))
    (s.(calllevel)) (s.(vars)) (s.(varslocal)) (s.(subs)) (s.(calls))
    (s.(out)) (s.(files)).
Definition set_program (x : list string) (s : state) : state :=
  mkState
    (s.(compile)) (s.(compilingsub)) (s.(onlyconstants))
    (s.(compiletimelookup)) (s.(readbuf)) (s.(filename)) (s.(txtPtr))
    (s.(operand_stack)) (s.(operator_stack)) (s.(return_stack))
    (s.(operatorSP)) (s.(operandSP)) (s.(returnSP)) (s.(rtPC)) (s.(rtSP))
    (s.(rtFP)) (s.(rtPCBeforeEval)) (s.(code)) (s.(current)) (s.(counter))
    (s.(retregister)) (s.(heap1Ptr)) (s.(editmode)) x (s.(skipFlag))
    (s.(calllevel)) (s.(vars)) (s.(varslocal)) (s.(subs)) (s.(calls))
    (s.(out)) (s.(files)).
Definition set_skipFlag (x : bool) (s : state) : state :=
  mkState
    (s.(compile)) (s.(compilingsub)) (s.(onlyconstants))
    (s.(compiletimelookup)) (s.(readbuf)) (s.(filename)) (s.(txtPtr))
    (s.(operand_stack)) (s.(operator_stack)) (s.(return_stack))
    (s.(operatorSP)) (s.(operandSP)) (s.(returnSP)) (s.(rtPC)) (s.(rtSP))
    (s.(rtFP)) (s.(rtPCBeforeEval)) (s.(code)) (s.(current)) (s.(counter))
    (s.(retregister)) (s.(heap1Ptr)) (s.(editmode)) (s.(program)) x
    (s.(calllevel)) (s.(vars)) (s.(varslocal)) (s.(subs)) (s.(calls))
    (s.(out)) (s.(files)).
Definition set_calllevel (x : Z) (s : state) : state :=
  mkState
    (s.(compile)) (s.(compilingsub)) (s.(onlyconstants))
    (s.(compiletimelookup)) (s.(readbuf)) (s.(filename)) (s.(txtPtr))
    (s.(operand_stack)) (s.(operator_stack)) (s.(return_stack))
    (s.(operatorSP)) (s.(operandSP)) (s.(returnSP)) (s.(rtPC)) (s.(rtSP))
    (s.(rtFP)) (s.(rtPCBeforeEval)) (s.(code)) (s.(current)) (s.(counter))
    (s.(retregister)) (s.(heap1Ptr)) (s.(editmode)) (s.(program))
    (s.(skipFlag)) x (s.(vars)) (s.(varslocal)) (s.(subs)) (s.(calls))
    (s.(out)) (s.(files)).
Definition set_vars (x : list var_t) (s : state) : state :=
  mkState
    (s.(compile)) (s.(compilingsub)) (s.(onlyconstants))
    (s.(compiletimelookup)) (s.(readbuf)) (s.(filename)) (s.(txtPtr))
    (s.(operand_stack)) (s.(operator_stack)) (s.(return_stack))
    (s.(operatorSP)) (s.(operandSP)) (s.(returnSP)) (s.(rtPC)) (s.(rtSP))
    (s.(rtFP)) (s.(rtPCBeforeEval)) (s.(code)) (s.(current)) (s.(counter))
    (s.(retregister)) (s.(heap1Ptr)) (s.(editmode)) (s.(program))
    (s.(skipFlag)) (s.(calllevel)) x (s.(varslocal)) (s.(subs)) (s.(calls))
    (s.(out)) (s.(files)).
Definition set_varslocal (x : option nat) (s : state) : state :=
  mkState
    (s.(compile)) (s.(compilingsub)) (s.(onlyconstants))
    (s.(compiletimelookup)) (s.(readbuf)) (s.(filename)) (s.(txtPtr))
    (s.(operand_stack)) (s.(operator_stack)) (s.(return_stack))
    (s.(operatorSP)) (s.(operandSP)) (s.(returnSP)) (s.(rtPC)) (s.(rtSP))
    (s.(rtFP)) (s.(rtPCBeforeEval)) (s.(code)) (s.(current)) (s.(counter))
    (s.(retregister)) (s.(heap1Ptr)) (s.(editmode)) (s.(program))
    (s.(skipFlag)) (s.(calllevel)) (s.(vars)) x (s.(subs)) (s.(calls))
    (s.(out)) (s.(files)).
Definition set_subs (x : list sub_t) (s : state) : state :=
  mkState
    (s.(compile)) (s.(compilingsub)) (s.(onlyconstants))
    (s.(compiletimelookup)) (s.(readbuf)) (s.(filename)) (s.(txtPtr))
    (s.(operand_stack)) (s.(operator_stack)) (s.(return_stack))
    (s.(operatorSP)) (s.(operandSP)) (s.(returnSP)) (s.(rtPC)) (s.(rtSP))
    (s.(rtFP)) (s.(rtPCBeforeEval)) (s.(code)) (s.(current)) (s.(counter))
    (s.(retregister)) (s.(heap1Ptr)) (s.(editmode)) (s.(program))
    (s.(skipFlag)) (s.(calllevel)) (s.(vars)) (s.(varslocal)) x (s.(calls))
    (s.(out)) (s.(files)).
Definition set_calls (x : list sub_t) (s : state) : state :=
  mkState
    (s.(compile)) (s.(compilingsub)) (s.(onlyconstants))
    (s.(compiletimelookup)) (s.(readbuf)) (s.(filename)) (s.(txtPtr))
    (s.(operand_stack)) (s.(operator_stack)) (s.(return_stack))
    (s.(operatorSP)) (s.(operandSP)) (s.(returnSP)) (s.(rtPC)) (s.(rtSP))
    (s.(rtFP)) (s.(rtPCBeforeEval)) (s.(code)) (s.(current)) (s.(counter))
    (s.(retregister)) (s.(heap1Ptr)) (s.(editmode)) (s.(program))
    (s.(skipFlag)) (s.(calllevel)) (s.(vars)) (s.(varslocal)) (s.(subs)) x
    (s.(out)) (s.(files)).
Definition set_out (x : list event) (s : state) : state :=
  mkState
    (s.(compile)) (s.(compilingsub)) (s.(onlyconstants))
    (s.(compiletimelookup)) (s.(readbuf)) (s.(filename)) (s.(txtPtr))
    (s.(operand_stack)) (s.(operator_stack)) (s.(return_stack))
    (s.(operatorSP)) (s.(operandSP)) (s.(returnSP)) (s.(rtPC)) (s.(rtSP))
    (s.(rtFP)) (s.(rtPCBeforeEval)) (s.(code)) (s.(current)) (s.(counter))
    (s.(retregister)) (s.(heap1Ptr)) (s.(editmode)) (s.(program))
    (s.(skipFlag)) (s.(calllevel)) (s.(vars)) (s.(varslocal)) (s.(subs))
    (s.(calls)) x (s.(files)).
Definition set_files (x : list (string * list cell)) (s : state) : state :=
  mkState
    (s.(compile)) (s.(compilingsub)) (s.(onlyconstants))
    (s.(compiletimelookup)) (s.(readbuf)) (s.(filename)) (s.(txtPtr))
    (s.(operand_stack)) (s.(operator_stack)) (s.(return_stack))
    (s.(operatorSP)) (s.(operandSP)) (s.(returnSP)) (s.(rtPC)) (s.(rtSP))
    (s.(rtFP)) (s.(rtPCBeforeEval)) (s.(code)) (s.(current)) (s.(counter))
    (s.(retregister)) (s.(heap1Ptr)) (s.(editmode)) (s.(program))
    (s.(skipFlag)) (s.(calllevel)) (s.(vars)) (s.(varslocal)) (s.(subs))
    (s.(calls)) (s.(out)) x.

(** ** Outcomes and the state monad *)

Inductive outcome (A : Type) : Type :=
| Ret (a : A) (s : state)            (* the function returned [a] *)
| LongJmp (s : state)                (* longjmp(jumpbuf, 1) *)
| Exited (status : Z) (s : state)    (* exit(status) *)
| Undefined (why : string) (s : state)
    (* behaviour C leaves undefined, or that belongs to a collaborator
       outside the embedding (file system, keyboard) *)
| OutOfFuel.

Arguments Ret {A} a s.
Arguments LongJmp {A} s.
Arguments Exited {A} status s.
Arguments Undefined {A} why s.
Arguments OutOfFuel {A}.

Definition M (A : Type) : Type := state -> outcome A.

Definition ret {A} (a : A) : M A := fun s => Ret a s.

Definition bind {A B} (m : M A) (k : A -> M B) : M B :=
  fun s =>
    match m s with
    | Ret a s' => k a s'
    | LongJmp s' => LongJmp s'
    | Exited c s' => Exited c s'
    | Undefined w s' => Undefined w s'
    | OutOfFuel => OutOfFuel
    end.

Declare Scope monad_scope.
Delimit Scope monad_scope with monad.
Notation "x <- m ;; k" := (bind m (fun x => k))
  (at level 61, m at next level, right associativity) : monad_scope.
Notation "' pat <- m ;; k" := (bind m (fun x => match x with pat => k end))
  (at level 61, pat pattern, m at next level, right associativity) : monad_scope.
Notation "m ;; k" := (bind m (fun _ => k))
  (at level 61, right associativity) : monad_scope.
Local Open Scope monad_scope.

Definition get {A} (f : state -> A) : M A := fun s => Ret (f s) s.
Definition modify (f : state -> state) : M unit := fun s => Ret tt (f s).
Definition longjmp {A} : M A := fun s => LongJmp s.
Definition exit {A} (status : Z) : M A := fun s => Exited status s.
Definition undefined {A} (why : string) : M A := fun s => Undefined why s.
Definition out_of_fuel {A} : M A := fun _ => OutOfFuel.

(** [if (c) { return RET_ERROR; }] around a call that returns the flag. *)
Definition orfail (m : M bool) (k : M bool) : M bool :=
  r <- m ;; if r then ret RET_ERROR else k.

(** ** The platform *)

(** Constants of [eightballvm.h], the address the linker gave arena 1, the
    break-key poll of [eightballutils], and what the memory right behind
    [return_stack] holds (the source peeks at [return_stack[returnSP + k]]
    also when fewer than [k] slots are in use): none of them is in the
    source file, all are parameters. *)
Class Platform := {
  heap1 : Z;
  RTPCSTART : Z;
  RTCALLSTACKTOP : Z;
  RTCALLSTACKLIM : Z;
  checkInterrupted : state -> bool;
  behind_return_stack : state -> Z -> rval
}.

(** ** Arrays *)

Definition aget {A} (l : list A) (i : Z) : option A :=
  if i <? 0 then None else nth_error l (Z.to_nat i).

Fixpoint upd {A} (l : list A) (n : nat) (x : A) : list A :=
  match l, n with
  | [], _ => []
  | _ :: t, O => x :: t
  | h :: t, S n' => h :: upd t n' x
  end.

Definition aset {A} (l : list A) (i : Z) (x : A) : option (list A) :=
  if (0 <=? i) && (i <? Z.of_nat (List.length l)) then Some (upd l (Z.to_nat i) x)
  else None.

(** ** Console *)

Fixpoint chars (p : string) : list event :=
  match p with
  | String c r => if is_nul c then [] else PrCh c :: chars r
  | EmptyString => []
  end.

Definition printchar (c : Z) : M unit :=
  modify (fun s => set_out (s.(out) ++ [PrCh (ascii_of_int c)]) s).
Definition print (p : string) : M unit :=
  modify (fun s => set_out (s.(out) ++ chars p) s).
Definition printdec (n : Z) : M unit :=
  modify (fun s => set_out (s.(out) ++ [PrDec n]) s).
Definition printhex (n : Z) : M unit :=
  modify (fun s => set_out (s.(out) ++ [PrHex n]) s).

Definition error (errcode : Z) : M unit :=
  printchar (code_of "?"%char) ;;
  match aget errmsgs (errcode - ERR_FIRST) with
  | Some msg => print msg
  | None => undefined "errmsgs index"
  end.

Definition nl : string := String (ascii_of_nat 10) EmptyString.

(** Conversion to [unsigned int]. *)
Definition u32 (z : Z) : Z := z mod 4294967296.

(** ** Expression stacks *)

Definition push_operator_stack (operator : Z) : M unit :=
  sp <- get operatorSP ;;
  st <- get operator_stack ;;
  match aset st sp (u8 operator) with
  | None => undefined "operator_stack index"
  | Some st' =>
      modify (set_operator_stack st') ;;
      if sp =? 0 then error ERR_COMPLEX ;; longjmp
      else modify (set_operatorSP (sp - 1))
  end.

Definition pop_operator_stack : M Z :=
  sp <- get operatorSP ;;
  if sp =? STACKSZ - 1 then longjmp
  else
    modify (set_operatorSP (u8 (sp + 1))) ;;
    st <- get operator_stack ;;
    match aget st (u8 (sp + 1)) with
    | Some tok => ret tok
    | None => undefined "operator_stack index"
    end.

(** The macro [top_operator_stack()]. *)
Definition top_operator_stack : M Z :=
  sp <- get operatorSP ;;
  st <- get operator_stack ;;
  match aget st (sp + 1) with
  | Some tok => ret tok
  | None => undefined "operator_stack index"
  end.

(** ** Bytecode emitter *)

Definition emit (c : bytecode) : M unit :=
  modify (fun s => set_rtPC (s.(rtPC) + 1) (set_code (s.(code) ++ [Op c]) s)).

(** The operand is stored low byte first. *)
Definition lo8 (word : Z) : Z := word mod 256.
Definition hi8 (word : Z) : Z := (word / 256) mod 256.

Definition emit_imm (c : bytecode) (word : Z) : M unit :=
  modify (fun s =>
    set_rtPC (s.(rtPC) + 3)
      (set_code (s.(code) ++ [Op c; Byte (lo8 word); Byte (hi8 word)]) s)).

Definition emitldi (x : Z) : M unit := emit_imm VM_LDIMM x.

Fixpoint msg_bytes (p : string) : list cell :=
  match p with
  | String c r => if is_nul c then [] else Byte (code_of c) :: msg_bytes r
  | EmptyString => []
  end.

(** [emitprmsg]: the opcode, the characters of [readbuf], a zero byte.
    [rtPC] is advanced once by [emit], once more, and once per character. *)
Definition emitprmsg : M unit :=
  emit VM_PRMSG ;;
  modify (fun s =>
    let m := msg_bytes s.(readbuf) in
    set_rtPC (s.(rtPC) + 1 + Z.of_nat (List.length m))
      (set_code (s.(code) ++ m ++ [Byte 0]) s)).

(** [emit_fixup]: overwrite the two operand bytes at [address].  Only
    addresses inside the code emitted so far are in the embedding. *)
Definition emit_fixup `{Platform} (address word : Z) : M unit :=
  c <- get code ;;
  match aset c (address - RTPCSTART) (Byte (lo8 word)) with
  | None => undefined "fixup outside the emitted code"
  | Some c1 =>
      match aset c1 (address - RTPCSTART + 1) (Byte (hi8 word)) with
      | None => undefined "fixup outside the emitted code"
      | Some c2 => modify (set_code c2)
      end
  end.

Definition push_operand_stack (operand : Z) : M unit :=
  c <- get compile ;;
  if c then emitldi operand
  else
    sp <- get operandSP ;;
    st <- get operand_stack ;;
    match aset st sp operand with
    | None => undefined "operand_stack index"
    | Some st' =>
        modify (set_operand_stack st') ;;
        if sp =? 0 then error ERR_COMPLEX ;; longjmp
        else modify (set_operandSP (sp - 1))
    end.

Definition pop_operand_stack : M Z :=
  c <- get compile ;;
  if c then ret 0
  else
    sp <- get operandSP ;;
    if sp =? STACKSZ - 1 then longjmp
    else
      modify (set_operandSP (u8 (sp + 1))) ;;
      st <- get operand_stack ;;
      match aget st (u8 (sp + 1)) with
      | Some v => ret v
      | None => undefined "operand_stack index"
      end.

(** ** Arena 1 and the target's call stack *)

Definition HEAP1TOP `{Platform} : Z := heap1 + HEAP1SZ - 1.
Definition HEAP1LIM `{Platform} : Z := heap1.

Definition CLEARHEAP1 `{Platform} : M unit := modify (set_heap1Ptr HEAP1TOP).

Definition alloc1 `{Platform} (bytes : Z) : M Z :=
  p <- get heap1Ptr ;;
  if (bytes <? 0) || (4294967296 <=? bytes) || (p - bytes <? 0) then
    undefined "allocation size or pointer arithmetic wraps"
  else if p - bytes <? HEAP1LIM then print ("No mem (1)!" ++ nl) ;; longjmp
  else modify (set_heap1Ptr (p - bytes)) ;; ret (p - bytes).

Definition free1 (bytes : Z) : M unit :=
  modify (fun s => set_heap1Ptr (s.(heap1Ptr) + bytes) s).

Definition rt_push_callstack `{Platform} (bytes : Z) : M Z :=
  sp <- get rtSP ;;
  if u32 (sp - bytes) <? RTCALLSTACKLIM then print ("No tgt mem!" ++ nl) ;; longjmp
  else modify (set_rtSP (u32 (sp - bytes))) ;; ret (u32 (sp - bytes)).

Definition rt_pop_callstack (bytes : Z) : M unit :=
  modify (fun s => set_rtSP (u32 (s.(rtSP) + bytes)) s).

Definition CLEARRTCALLSTACK `{Platform} : M unit :=
  modify (fun s =>
    set_code [] (set_rtPC RTPCSTART (set_rtFP RTCALLSTACKTOP (set_rtSP RTCALLSTACKTOP s)))).

(** ** The variable table *)

Definition base_type (type : Z) : Z := Z.land type 15.
Definition is_array_type (type : Z) : bool := negb (Z.land type 16 =? 0).
Definition is_const_type (type : Z) : bool := negb (Z.land type 32 =? 0).

(** [v->name[0] == '-']: the entry marks a call frame. *)
Definition is_marker (v : var_t) : bool := Ascii.eqb (peek v.(v_name)) "-".

(** [strncmp (a, b, VARNUMCHARS) == 0] *)
Definition same_name (a b : string) : bool :=
  String.eqb (strn VARNUMCHARS a) (strn VARNUMCHARS b).

(** The [int] right behind the header, [*getptrtoscalarword(v)]. A byte
    scalar of the interpreter has a single byte there. *)
Definition first_word (v : var_t) : option Z :=
  match v.(v_data) with
  | IntCell val => Some val
  | ByteCell _ => None
  | Arr bodyptr _ _ => Some bodyptr
  end.

(** The second [int] behind the header: the size of an array. *)
Definition second_word (v : var_t) : option Z :=
  match v.(v_data) with
  | Arr _ size _ => Some size
  | _ => None
  end.

(** Address of the storage behind the header. *)
Definition cell_addr (v : var_t) : Z := v.(v_addr) + SZ_VAR.

(** Reading an [int] through a pointer into arena 1: the value cell of a
    word scalar or an element, once written, of a word array that owns its
    body.  Other addresses are not resolved. *)
Fixpoint load_word (vs : list var_t) (a : Z) : option Z :=
  match vs with
  | [] => None
  | v :: r =>
      match v.(v_data) with
      | IntCell val => if a =? cell_addr v then Some val else load_word r a
      | ByteCell _ => load_word r a
      | Arr body _ elems =>
          if (base_type v.(v_type) =? TYPE_WORD) && (body <=? a)
             && (a <? body + SZ_INT * Z.of_nat (List.length elems))
             && ((a - body) mod SZ_INT =? 0)
          then
            match nth_error elems (Z.to_nat ((a - body) / SZ_INT)) with
            | Some (Some x) => Some x
            | _ => None
            end
          else load_word r a
      end
  end.

Fixpoint store_word (vs : list var_t) (a x : Z) : option (list var_t) :=
  match vs with
  | [] => None
  | v :: r =>
      let keep := option_map (cons v) (store_word r a x) in
      match v.(v_data) with
      | IntCell _ =>
          if a =? cell_addr v
          then Some (mkVar v.(v_addr) v.(v_name) v.(v_type) (IntCell x) :: r)
          else keep
      | ByteCell _ => keep
      | Arr body size elems =>
          if (base_type v.(v_type) =? TYPE_WORD) && (body <=? a)
             && (a <? body + SZ_INT * Z.of_nat (List.length elems))
             && ((a - body) mod SZ_INT =? 0)
          then Some (mkVar v.(v_addr) v.(v_name) v.(v_type)
                       (Arr body size (upd elems (Z.to_nat ((a - body) / SZ_INT)) (Some x))) :: r)
          else keep
      end
  end.

(** Reading an [unsigned char] through a pointer: the cell of a byte scalar
    or an element of a byte array that owns its body. *)
Fixpoint load_byte (vs : list var_t) (a : Z) : option Z :=
  match vs with
  | [] => None
  | v :: r =>
      match v.(v_data) with
      | ByteCell val => if a =? cell_addr v then Some val else load_byte r a
      | IntCell _ => load_byte r a
      | Arr body _ elems =>
          if (base_type v.(v_type) =? TYPE_BYTE) && (body <=? a)
             && (a <? body + Z.of_nat (List.length elems))
          then
            match nth_error elems (Z.to_nat (a - body)) with
            | Some (Some x) => Some x
            | _ => None
            end
          else load_byte r a
      end
  end.

Fixpoint store_byte (vs : list var_t) (a x : Z) : option (list var_t) :=
  match vs with
  | [] => None
  | v :: r =>
      let keep := option_map (cons v) (store_byte r a x) in
      match v.(v_data) with
      | ByteCell _ =>
          if a =? cell_addr v
          then Some (mkVar v.(v_addr) v.(v_name) v.(v_type) (ByteCell (u8 x)) :: r)
          else keep
      | IntCell _ => keep
      | Arr body size elems =>
          if (base_type v.(v_type) =? TYPE_BYTE) && (body <=? a)
             && (a <? body + Z.of_nat (List.length elems))
          then Some (mkVar v.(v_addr) v.(v_name) v.(v_type)
                       (Arr body size (upd elems (Z.to_nat (a - body)) (Some (u8 x)))) :: r)
          else keep
      end
  end.

Definition mem_load_word (a : Z) : M Z :=
  vs <- get vars ;;
  match load_word vs a with
  | Some x => ret x
  | None => undefined "word read through an unresolved pointer"
  end.

Definition mem_store_word (a x : Z) : M unit :=
  vs <- get vars ;;
  match store_word vs a x with
  | Some vs' => modify (set_vars vs')
  | None => undefined "word write through an unresolved pointer"
  end.

Definition mem_load_byte (a : Z) : M Z :=
  vs <- get vars ;;
  match load_byte vs a with
  | Some x => ret x
  | None => undefined "byte read through an unresolved pointer"
  end.

Definition mem_store_byte (a x : Z) : M unit :=
  vs <- get vars ;;
  match store_byte vs a x with
  | Some vs' => modify (set_vars vs')
  | None => undefined "byte write through an unresolved pointer"
  end.

(** The two search loops of [findintvar], returning the index of the entry. *)
Fixpoint find_from (name : string) (vs : list var_t) (i : nat) : option nat :=
  match vs with
  | [] => None
  | v :: r => if same_name name v.(v_name) then Some i else find_from name r (S i)
  end.

Fixpoint find_global (name : string) (vs : list var_t) (i : nat) : option nat :=
  match vs with
  | [] => None
  | v :: r =>
      if is_marker v then None
      else if same_name name v.(v_name) then Some i
      else find_global name r (S i)
  end.

(** [findintvar]: the entry found, if any, and the value left in [*local]. *)
Definition findintvar (name : string) (local : bool) (s : state) : option nat * bool :=
  match
    match s.(varslocal) with
    | Some i => find_from name (skipn i s.(vars)) i
    | None => None
    end
  with
  | Some i => (Some i, true)
  | None =>
      if local then (None, local)
      else
        match find_global name s.(vars) 0 with
        | Some i => (Some i, false)
        | None => (None, local)
        end
  end.

Definition clearvars `{Platform} : M unit :=
  CLEARHEAP1 ;;
  modify (fun s => set_varslocal None (set_vars [] s)).

(** The address of the last entry, [(int) varsend]; 0 is [NULL]. *)
Definition varsend_addr (vs : list var_t) : Z :=
  match last (map Some vs) None with
  | Some v => v.(v_addr)
  | None => 0
  end.

(** The tail of [createintvar], [vars_markcallframe] and [dosubr]: link a new
    entry behind [varsend]. [first_is_local] is false for the frame marker,
    which sets [varslocal] itself. *)
Definition append_var (v : var_t) (first_is_local : bool) : M unit :=
  modify (fun s =>
    let s' := set_vars (s.(vars) ++ [v]) s in
    match s.(vars) with
    | [] => if first_is_local then set_varslocal (Some O) s' else s'
    | _ => s'
    end).

Definition vars_markcallframe `{Platform} : M unit :=
  modify (fun s => set_calllevel (wrap (s.(calllevel) + 1)) s) ;;
  a <- alloc1 (SZ_VAR + SZ_INT) ;;
  vs <- get vars ;;
  modify (set_varslocal (Some (List.length vs))) ;;
  append_var (mkVar a "----" TYPE_WORD (IntCell (varsend_addr vs))) false.

(** Index of the entry allocated at address [a]. *)
Fixpoint index_of_addr (a : Z) (vs : list var_t) (i : nat) : option nat :=
  match vs with
  | [] => None
  | v :: r => if v.(v_addr) =? a then Some i else index_of_addr a r (S i)
  end.

(** The last loop of [vars_deletecallframe]: the last frame marker. *)
Fixpoint last_marker (vs : list var_t) (i : nat) (found : option nat) : option nat :=
  match vs with
  | [] => found
  | v :: r => last_marker r (S i) (if is_marker v then Some i else found)
  end.

Definition vars_deletecallframe `{Platform} : M unit :=
  vl <- get varslocal ;;
  vs <- get vars ;;
  match vl with
  | None => undefined "varslocal is NULL"
  | Some i =>
      match nth_error vs i with
      | None => undefined "varslocal is stale"
      | Some m =>
          match first_word m with
          | None => undefined "no word behind varslocal"
          | Some newend =>
              (if newend =? 0 then
                 CLEARHEAP1 ;; modify (set_vars [])
               else
                 free1 (newend - varsend_addr vs) ;;
                 match index_of_addr newend vs 0 with
                 | Some j => modify (set_vars (firstn (S j) vs))
                 | None => undefined "stale pointer in the frame marker"
                 end) ;;
              modify (fun s => set_calllevel (wrap (s.(calllevel) - 1)) s) ;;
              modify (fun s => set_varslocal (last_marker s.(vars) 0 None) s)
          end
      end
  end.

(** Access to the storage of a scalar through its table entry. *)
Definition nth_var (i : nat) : M var_t :=
  vs <- get vars ;;
  match nth_error vs i with
  | Some v => ret v
  | None => undefined "stale variable pointer"
  end.

Definition scalar_word (v : var_t) : M Z :=
  match first_word v with
  | Some x => ret x
  | None => undefined "word read from a byte cell"
  end.

Definition array_size (v : var_t) : M Z :=
  match second_word v with
  | Some x => ret x
  | None => undefined "size read from a scalar"
  end.

(** [*getptrtoscalarbyte(v)]: the first byte behind the header. *)
Definition scalar_byte (v : var_t) : M Z :=
  match v.(v_data) with
  | ByteCell x => ret x
  | IntCell x => ret (x mod 256)
  | Arr b _ _ => ret (b mod 256)
  end.

Definition set_data (i : nat) (d : payload) : M unit :=
  v <- nth_var i ;;
  modify (fun s => set_vars (upd s.(vars) i (mkVar v.(v_addr) v.(v_name) v.(v_type) d)) s).

(** [*getptrtoscalarword(v) = x] *)
Definition set_scalar_word (i : nat) (x : Z) : M unit :=
  v <- nth_var i ;;
  match v.(v_data) with
  | IntCell _ => set_data i (IntCell x)
  | Arr _ size elems => set_data i (Arr x size elems)
  | ByteCell _ => undefined "word written to a byte cell"
  end.

(** [*getptrtoscalarbyte(v) = x]: only the first byte changes. *)
Definition set_scalar_byte (i : nat) (x : Z) : M unit :=
  v <- nth_var i ;;
  match v.(v_data) with
  | ByteCell _ => set_data i (ByteCell (u8 x))
  | IntCell w => set_data i (IntCell (w - w mod 256 + u8 x))
  | Arr b size elems => set_data i (Arr (b - b mod 256 + u8 x) size elems)
  end.

Definition siv_st_abs (type : Z) : M unit :=
  if type =? TYPE_WORD then emit VM_STAWORD else emit VM_STABYTE.
Definition siv_st_rel (type : Z) : M unit :=
  if type =? TYPE_WORD then emit VM_STRWORD else emit VM_STRBYTE.
Definition siv_st_abs_imm (addr type : Z) : M unit :=
  emit_imm (if base_type type =? TYPE_WORD then VM_STAWORDIMM else VM_STABYTEIMM) addr.
Definition siv_st_rel_imm (addr type : Z) : M unit :=
  emit_imm (if base_type type =? TYPE_WORD then VM_STRWORDIMM else VM_STRBYTEIMM) addr.

(** [setintvar]: set an existing variable. *)
Definition setintvar (name : string) (idx value : Z) : M bool :=
  found <- get (findintvar name false) ;;
  match found with
  | (None, _) => error ERR_VAR ;; ret RET_ERROR
  | (Some i, local) =>
      ptr <- nth_var i ;;
      let type := base_type ptr.(v_type) in
      if is_const_type ptr.(v_type) then error ERR_STCONST ;; ret RET_ERROR
      else if negb (is_array_type ptr.(v_type)) then
        if negb (idx =? -1) then error ERR_SUBSCR ;; ret RET_ERROR
        else
          c <- get compile ;;
          csub <- get compilingsub ;;
          (if c then
             a <- scalar_word ptr ;;
             if local && csub then siv_st_rel_imm a type else siv_st_abs_imm a type
           else if type =? TYPE_WORD then set_scalar_word i value
           else set_scalar_byte i value) ;;
          ret RET_SUCCESS
      else
        if idx =? -1 then error ERR_SUBSCR ;; ret RET_ERROR
        else
          bodyptr <- scalar_word ptr ;;
          size <- array_size ptr ;;
          c <- get compile ;;
          csub <- get compilingsub ;;
          if c then
            emit VM_SWAP ;;
            (if type =? TYPE_WORD then emitldi 1 ;; emit VM_LSH else ret tt) ;;
            emitldi bodyptr ;;
            (if size =? -1 then emit VM_LDRWORD else ret tt) ;;
            emit VM_ADD ;;
            (if local && csub then
               if size =? -1 then siv_st_abs type else siv_st_rel type
             else siv_st_abs type) ;;
            ret RET_SUCCESS
          else if (idx <? 0) || (size <=? idx) then error ERR_SUBSCR ;; ret RET_ERROR
          else
            (if type =? TYPE_WORD then mem_store_word (bodyptr + SZ_INT * idx) value
             else mem_store_byte (bodyptr + idx) value) ;;
            ret RET_SUCCESS
  end.

Definition giv_ld_abs (type : Z) : M unit :=
  if base_type type =? TYPE_WORD then emit VM_LDAWORD else emit VM_LDABYTE.
Definition giv_ld_rel (type : Z) : M unit :=
  if base_type type =? TYPE_WORD then emit VM_LDRWORD else emit VM_LDRBYTE.
Definition giv_ld_abs_imm (addr type : Z) : M unit :=
  emit_imm (if base_type type =? TYPE_WORD then VM_LDAWORDIMM else VM_LDABYTEIMM) addr.
Definition giv_ld_rel_imm (addr type : Z) : M unit :=
  emit_imm (if base_type type =? TYPE_WORD then VM_LDRWORDIMM else VM_LDRBYTEIMM) addr.

(** [getintvar]: [None] when the source returns 1; otherwise the pair of
    [*val] and [*type].  When code is generated [*val] is not written (and
    not read by any caller); it is given as 0. *)
Definition getintvar (name : string) (idx : Z) (address : bool) : M (option (Z * Z)) :=
  found <- get (findintvar name false) ;;
  match found with
  | (None, _) => error ERR_VAR ;; ret None
  | (Some i, local) =>
      ptr <- nth_var i ;;
      let type := ptr.(v_type) in
      lookup <- get compiletimelookup ;;
      if lookup then
        val <- scalar_word ptr ;;
        modify (set_compiletimelookup false) ;;
        ret (Some (val, type))
      else
        c <- get compile ;;
        csub <- get compilingsub ;;
        if negb (is_array_type type) then
          if negb (idx =? -1) then error ERR_SUBSCR ;; ret None
          else if c then
            a <- scalar_word ptr ;;
            (if address then
               emitldi a ;;
               if local && csub then emit VM_RTOA else ret tt
             else if local && csub then giv_ld_rel_imm a type
             else giv_ld_abs_imm a type) ;;
            ret (Some (0, type))
          else if base_type type =? TYPE_WORD then
            if address then ret (Some (cell_addr ptr, type))
            else val <- scalar_word ptr ;; ret (Some (val, type))
          else
            if address then ret (Some (cell_addr ptr, type))
            else val <- scalar_byte ptr ;; ret (Some (val, type))
        else
          let noidx := idx =? -1 in
          let address := address || noidx in
          let idx := if noidx then 0 else idx in
          (if noidx && c then emitldi 0 else ret tt) ;;
          bodyptr <- scalar_word ptr ;;
          size <- array_size ptr ;;
          if c then
            (if base_type type =? TYPE_WORD then emitldi 1 ;; emit VM_LSH else ret tt) ;;
            emitldi bodyptr ;;
            (if size =? -1 then emit VM_LDRWORD else ret tt) ;;
            emit VM_ADD ;;
            (if negb address then
               if local && csub then
                 if size =? -1 then giv_ld_abs type else giv_ld_rel type
               else giv_ld_abs type
             else if local && csub && negb (size =? -1) then emit VM_RTOA
             else ret tt) ;;
            ret (Some (0, type))
          else if (idx <? 0) || (size <=? idx) then error ERR_SUBSCR ;; ret None
          else if base_type type =? TYPE_WORD then
            if address then ret (Some (bodyptr + SZ_INT * idx, type))
            else val <- mem_load_word (bodyptr + SZ_INT * idx) ;; ret (Some (val, type))
          else
            if address then ret (Some (bodyptr + idx, type))
            else val <- mem_load_byte (bodyptr + idx) ;; ret (Some (val, type))
  end.

(** ** The return stack *)

Definition push_return (linenum : rval) : M unit :=
  sp <- get returnSP ;;
  st <- get return_stack ;;
  match aset st sp linenum with
  | None => undefined "return_stack index"
  | Some st' =>
      modify (set_return_stack st') ;;
      if sp =? 0 then error ERR_STACK ;; longjmp
      else modify (set_returnSP (sp - 1))
  end.

Definition pop_return : M rval :=
  sp <- get returnSP ;;
  if sp =? RETSTACKSZ - 1 then error ERR_STACK ;; longjmp
  else
    modify (set_returnSP (u8 (sp + 1))) ;;
    st <- get return_stack ;;
    match aget st (u8 (sp + 1)) with
    | Some v => ret v
    | None => undefined "return_stack index"
    end.

(** Reading [return_stack[i]]. *)
Definition rs_at `{Platform} (i : Z) : M rval :=
  fun s =>
    if RETSTACKSZ <=? i then Ret (behind_return_stack s i) s
    else
      match aget s.(return_stack) i with
      | Some v => Ret v s
      | None => Undefined "return_stack index" s
      end.

(** [return_stack[returnSP + k]] *)
Definition rs `{Platform} (k : Z) : M rval :=
  sp <- get returnSP ;;
  rs_at (sp + k).

(** [return_stack[returnSP + k] = v] *)
Definition rs_set (k : Z) (v : rval) : M unit :=
  sp <- get returnSP ;;
  st <- get return_stack ;;
  match aset st (sp + k) v with
  | Some st' => modify (set_return_stack st')
  | None => undefined "return_stack index"
  end.

(** [slot == z] and [slot != 0] *)
Definition rv_is (v : rval) (z : Z) : bool :=
  match v with RInt x => x =? z | RTxt _ => false end.
Definition rv_nonzero (v : rval) : bool :=
  match v with RInt x => negb (x =? 0) | RTxt _ => true end.

Definition rv_int (v : rval) : M Z :=
  match v with
  | RInt x => ret x
  | RTxt _ => undefined "text pointer used as a number"
  end.

(** The cast [(char * ) slot]. *)
Definition rv_txt (v : rval) : M string :=
  match v with
  | RTxt p => ret p
  | RInt _ => undefined "number used as a text pointer"
  end.

(** ** The program store *)

Fixpoint findline_from (rest : list string) (idx : nat) (cnt linenum : Z) : option nat * Z :=
  match rest with
  | [] => (None, cnt)
  | _ :: rest' =>
      if cnt =? linenum then (Some idx, cnt)
      else findline_from rest' (S idx) (cnt + 1) linenum
  end.

(** [findline]: line numbers start from one. *)
Definition findline (linenum : Z) : M unit :=
  modify (fun s =>
    let '(cur, cnt) := findline_from s.(program) 0 1 linenum in
    set_counter cnt (set_current cur s)).

(** [new] *)
Definition new : M unit :=
  modify (fun s => set_current None (set_program [] s)).

(** [program], as the value given to [current]. *)
Definition first_line (s : state) : option nat :=
  match s.(program) with [] => None | _ => Some O end.

(** [current->next] *)
Definition next_line (s : state) (i : nat) : option nat :=
  if (S i <? List.length s.(program))%nat then Some (S i) else None.

(** ** if / else / endif *)

Definition doif (arg : Z) : M unit :=
  push_return (RInt IFFRAME) ;;
  c <- get compile ;;
  if c then
    emit VM_NOT ;;
    pc <- get rtPC ;;
    push_return (RInt (pc + 1)) ;;
    emit_imm VM_BRNCHIMM 65535 ;;
    push_return (RInt 0)
  else
    skip <- get skipFlag ;;
    (if skip then push_return (RInt 0)
     else if u8 arg =? 0 then modify (set_skipFlag true) ;; push_return (RInt 1)
     else push_return (RInt 2)) ;;
    push_return (RInt 0).

Definition doelse `{Platform} : M bool :=
  tag <- rs 3 ;;
  if negb (rv_is tag IFFRAME) then error ERR_NOIF ;; ret RET_ERROR
  else
    c <- get compile ;;
    (if c then
       pc <- get rtPC ;;
       rs_set 1 (RInt (pc + 1)) ;;
       emit_imm VM_JMPIMM 65535 ;;
       a <- rs 2 ;;
       a <- rv_int a ;;
       pc <- get rtPC ;;
       emit_fixup a pc ;;
       rs_set 2 (RInt 0)
     else
       st <- rs 2 ;;
       if rv_is st 2 then modify (set_skipFlag true)
       else if rv_is st 1 then modify (set_skipFlag false)
       else ret tt) ;;
    ret RET_SUCCESS.

Definition doendif `{Platform} : M bool :=
  tag <- rs 3 ;;
  if negb (rv_is tag IFFRAME) then error ERR_NOIF ;; ret RET_ERROR
  else
    c <- get compile ;;
    (if c then
       a2 <- rs 2 ;;
       (if rv_nonzero a2 then a <- rv_int a2 ;; pc <- get rtPC ;; emit_fixup a pc
        else ret tt) ;;
       a1 <- rs 1 ;;
       if rv_nonzero a1 then a <- rv_int a1 ;; pc <- get rtPC ;; emit_fixup a pc
       else ret tt
     else
       st <- rs 2 ;;
       if rv_nonzero st then modify (set_skipFlag false) else ret tt) ;;
    pop_return ;;
    pop_return ;;
    pop_return ;;
    ret RET_SUCCESS.

(** ** Loops and return *)

(** [backtotop]: go back to the start of a loop, or return after a call.
    The callers pass [(char * ) return_stack[...]]: the slot is taken as it
    is, and becomes a text pointer where the source assigns it to [txtPtr],
    behind the check of the line. *)
Definition backtotop (linenum : Z) (oldTxtPtr : rval) : M unit :=
  (if linenum =? -1 then
     modify (fun s => set_current None (set_counter (-1) s))
   else
     findline (linenum + 1) ;;
     modify (fun s => set_counter (s.(counter) - 1) s) ;;
     cur <- get current ;;
     match cur with
     | None => exit 99
     | Some _ => ret tt
     end) ;;
  p <- rv_txt oldTxtPtr ;;
  modify (set_txtPtr p).

Definition doendfor `{Platform} : M bool :=
  tag <- rs 5 ;;
  c <- get compile ;;
  if negb (rv_is tag FORFRAME_W || rv_is tag FORFRAME_B) then
    error ERR_NOFOR ;; ret RET_ERROR
  else
    let type := if rv_is tag FORFRAME_W then TYPE_WORD else TYPE_BYTE in
    let unwind :=
      pop_return ;; pop_return ;; pop_return ;; pop_return ;; pop_return ;;
      ret RET_SUCCESS in
    if c then
      emit VM_POPWORD ;;
      emit VM_DUP ;;
      emit VM_PSHWORD ;;
      rel <- rs 4 ;;
      var <- rs 2 ;;
      var <- rv_int var ;;
      (if rv_nonzero rel then
         emit_imm (if type =? TYPE_WORD then VM_LDRWORDIMM else VM_LDRBYTEIMM) var
       else
         emit_imm (if type =? TYPE_WORD then VM_LDAWORDIMM else VM_LDABYTEIMM) var) ;;
      emit VM_INC ;;
      emit VM_DUP ;;
      (if rv_nonzero rel then
         emit_imm (if type =? TYPE_WORD then VM_STRWORDIMM else VM_STRBYTEIMM) var
       else
         emit_imm (if type =? TYPE_WORD then VM_STAWORDIMM else VM_STABYTEIMM) var) ;;
      emit VM_GTE ;;
      top <- rs 3 ;;
      top <- rv_int top ;;
      emit_imm VM_BRNCHIMM top ;;
      emit VM_POPWORD ;;
      emit VM_DROP ;;
      unwind
    else
      ptr <- rs 1 ;;
      ptr <- rv_int ptr ;;
      val <- (if type =? TYPE_WORD then mem_load_word ptr else mem_load_byte ptr) ;;
      limit <- rs 2 ;;
      limit <- rv_int limit ;;
      if val <? limit then
        (if type =? TYPE_WORD then mem_store_word ptr (wrap (val + 1))
         else mem_store_byte ptr (val + 1)) ;;
        line <- rs 4 ;;
        line <- rv_int line ;;
        txt <- rs 3 ;;
        backtotop line txt ;;
        ret RET_SUCCESS
      else unwind.

Definition dowhile (startTxtPtr : string) (arg : Z) : M unit :=
  push_return (RInt WHILEFRAME) ;;
  c <- get compile ;;
  if c then
    before <- get rtPCBeforeEval ;;
    push_return (RInt before) ;;
    emit VM_NOT ;;
    pc <- get rtPC ;;
    push_return (RInt (pc + 1)) ;;
    emit_imm VM_BRNCHIMM 65535 ;;
    push_return (RInt 0)
  else
    skip <- get skipFlag ;;
    (if skip then push_return (RInt 0)
     else if u8 arg =? 0 then modify (set_skipFlag true) ;; push_return (RInt 1)
     else push_return (RInt 2)) ;;
    cnt <- get counter ;;
    push_return (RInt cnt) ;;
    push_return (RTxt startTxtPtr).

Definition doendwhile `{Platform} : M bool :=
  tag <- rs 4 ;;
  if negb (rv_is tag WHILEFRAME) then error ERR_NOWHILE ;; ret RET_ERROR
  else
    c <- get compile ;;
    (if c then
       top <- rs 3 ;;
       top <- rv_int top ;;
       emit_imm VM_JMPIMM top ;;
       a <- rs 2 ;;
       a <- rv_int a ;;
       pc <- get rtPC ;;
       emit_fixup a pc
     else
       st <- rs 3 ;;
       if rv_is st 0 then ret tt
       else if rv_is st 1 then modify (set_skipFlag false)
       else if rv_is st 2 then
         line <- rs 2 ;;
         line <- rv_int line ;;
         txt <- rs 1 ;;
         backtotop line txt
       else exit 99) ;;
    pop_return ;;
    pop_return ;;
    pop_return ;;
    pop_return ;;
    ret RET_SUCCESS.

(** The search loop of [doreturn]: the first index [p] with
    [from <= p <= RETSTACKSZ - 1] whose slot holds [CALLFRAME]. *)
Fixpoint find_callframe (st : list rval) (i from : Z) : option Z :=
  match st with
  | [] => None
  | v :: r =>
      if (from <=? i) && (i <=? RETSTACKSZ - 1) && rv_is v CALLFRAME then Some i
      else find_callframe r (i + 1) from
  end.

Definition doreturn `{Platform} (retvalue : Z) : M bool :=
  c <- get compile ;;
  if c then
    emit VM_FPTOSP ;;
    emit VM_RTS ;;
    ret RET_SUCCESS
  else
    sp <- get returnSP ;;
    st <- get return_stack ;;
    match find_callframe st 0 (sp + 1) with
    | None => error ERR_STACK ;; ret RET_ERROR
    | Some p =>
        modify (set_returnSP p) ;;
        modify (set_retregister retvalue) ;;
        vars_deletecallframe ;;
        line <- rs (-1) ;;
        line <- rv_int line ;;
        txt <- rs (-2) ;;
        backtotop line txt ;;
        ret RET_SUCCESS
    end.

(** ** Linker *)

(** [strncmp (a, b, SUBRNUMCHARS) == 0] *)
Definition same_sub (a b : string) : bool :=
  String.eqb (strn SUBRNUMCHARS a) (strn SUBRNUMCHARS b).

(** The inner loop of [linksubs], entered with [sub] not NULL. *)
Fixpoint link_search (sub : sub_t) (rest : list sub_t) (name : string) : option sub_t :=
  if same_sub sub.(s_name) name then Some sub
  else
    match rest with
    | [] => None
    | sub' :: rest' => link_search sub' rest' name
    end.

Fixpoint linksubs_from `{Platform} (cs : list sub_t) : M unit :=
  match cs with
  | [] => ret tt
  | call :: cs' =>
      defs <- get subs ;;
      match defs with
      | [] => undefined "subsbegin is NULL"
      | sub :: rest =>
          match link_search sub rest call.(s_name) with
          | None => error ERR_LINK
          | Some def => emit_fixup call.(s_addr) def.(s_addr) ;; linksubs_from cs'
          end
      end
  end.

Definition linksubs `{Platform} : M unit :=
  cs <- get calls ;;
  linksubs_from cs.

(** [writebytecode]: the file system is outside the embedding; opening and
    writing are taken to succeed, and the file is recorded in [files]. *)
Definition writebytecode : M unit :=
  modify (fun s => set_readbuf s.(filename) s) ;;
  printchar 10 ;;
  print "Writing " ;;
  name <- get readbuf ;;
  print name ;;
  printchar (code_of ":") ;;
  print ("..." ++ nl) ;;
  modify (fun s => set_files (s.(files) ++ [(s.(filename), s.(code))]) s).

(** ** Cursor primitives *)

(** The macro [eatspace()]. *)
Definition eatspace : M unit :=
  modify (fun s => set_txtPtr (skip_spaces s.(txtPtr)) s).

(** [++txtPtr] *)
Definition inc_txtPtr : M unit :=
  t <- get txtPtr ;;
  match next t with
  | Some t' => modify (set_txtPtr t')
  | None => undefined "txtPtr moved past the end of the line"
  end.

(** [expect]: a one-character token. *)
Definition expect (token : ascii) : M bool :=
  t <- get txtPtr ;;
  if Ascii.eqb (peek t) token then
    inc_txtPtr ;; eatspace ;; ret RET_SUCCESS
  else
    error ERR_EXPECT ;; printchar (code_of token) ;; ret RET_ERROR.

Fixpoint parseint_digits (p : string) (val : Z) : Z * string :=
  match p with
  | String c r =>
      if isdigitch c then parseint_digits r (wrap (wrap (val * 10) + (code_of c - 48)))
      else (val, p)
  | EmptyString => (val, p)
  end.

(** [parseint]: [None] when the source returns 1. *)
Definition parseint : M (option Z) :=
  t <- get txtPtr ;;
  if negb (isdigitch (peek t)) then ret None
  else
    let '(val, rest) := parseint_digits t 0 in
    modify (set_txtPtr rest) ;; ret (Some val).

Definition ishexch (c : ascii) : bool :=
  isdigitch c || ((97 <=? code_of c) && (code_of c <=? 102)).

Definition hexchar2val (c : ascii) : Z :=
  if (97 <=? code_of c) && (code_of c <=? 102) then code_of c - 97 + 10
  else u8 (code_of c - 48).

Fixpoint parsehex_digits (p : string) (val : Z) : Z * string :=
  match p with
  | String c r =>
      if ishexch c then parsehex_digits r (wrap (wrap (val * 16) + hexchar2val c))
      else (val, p)
  | EmptyString => (val, p)
  end.

Definition parsehexint : M (option Z) :=
  t <- get txtPtr ;;
  if negb (ishexch (peek t)) then ret None
  else
    let '(val, rest) := parsehex_digits t 0 in
    modify (set_txtPtr rest) ;; ret (Some val).

(** [compareUntil]: [false] (0) if equal up to the terminator, [true] (1)
    if unequal. *)
Fixpoint compareUntil (s1 s2 : string) (term : ascii) : bool :=
  match s1 with
  | EmptyString =>
      (* s1 is at its terminating NUL *)
      if is_nul (peek s2) then true
      else if Ascii.eqb zero term || Ascii.eqb zero " " then false
      else true
  | String c1 r1 =>
      if Ascii.eqb c1 (peek s2) then
        if is_nul c1 then true
        else compareUntil r1 (match s2 with String _ r2 => r2 | EmptyString => s2 end) term
      else if Ascii.eqb c1 term || Ascii.eqb c1 " " then false
      else true
  end.

(** ** Applying an operator *)

Definition bool_int (b : bool) : Z := if b then 1 else 0.

(** One arm of the switch in [pop_operator] for an operator with an opcode:
    emit it when compiling, else push the result. *)
Definition apply_op (vm : bytecode) (result : Z) : M bool :=
  c <- get compile ;;
  if c then emit vm ;; ret RET_SUCCESS
  else push_operand_stack result ;; ret RET_SUCCESS.

Definition pop_operator : M bool :=
  token <- pop_operator_stack ;;
  operand1 <- pop_operand_stack ;;
  c <- get compile ;;
  if negb (ISUNARY token) then
    operand2 <- pop_operand_stack ;;
    if token =? TOK_POW then
      push_operand_stack (_pow operand2 operand1) ;; ret RET_SUCCESS
    else if token =? TOK_MUL then apply_op VM_MUL (wrap (operand2 * operand1))
    else if token =? TOK_DIV then
      if c then emit VM_DIV ;; ret RET_SUCCESS
      else if operand1 =? 0 then error ERR_DIVZERO ;; ret RET_ERROR
      else if (operand2 =? -2147483648) && (operand1 =? -1) then
        undefined "INT_MIN / -1"
      else push_operand_stack (wrap (Z.quot operand2 operand1)) ;; ret RET_SUCCESS
    else if token =? TOK_MOD then
      if c then emit VM_MOD ;; ret RET_SUCCESS
      else if operand1 =? 0 then error ERR_DIVZERO ;; ret RET_ERROR
      else if (operand2 =? -2147483648) && (operand1 =? -1) then
        undefined "INT_MIN % -1"
      else push_operand_stack (Z.rem operand2 operand1) ;; ret RET_SUCCESS
    else if token =? TOK_ADD then apply_op VM_ADD (wrap (operand2 + operand1))
    else if token =? TOK_SUB then apply_op VM_SUB (wrap (operand2 - operand1))
    else if token =? TOK_GT then apply_op VM_GT (bool_int (operand1 <? operand2))
    else if token =? TOK_GTE then apply_op VM_GTE (bool_int (operand1 <=? operand2))
    else if token =? TOK_LT then apply_op VM_LT (bool_int (operand2 <? operand1))
    else if token =? TOK_LTE then apply_op VM_LTE (bool_int (operand2 <=? operand1))
    else if token =? TOK_EQL then apply_op VM_EQL (bool_int (operand2 =? operand1))
    else if token =? TOK_NEQL then apply_op VM_NEQL (bool_int (negb (operand2 =? operand1)))
    else if token =? TOK_AND then
      apply_op VM_AND (bool_int (negb (operand2 =? 0) && negb (operand1 =? 0)))
    else if token =? TOK_OR then
      apply_op VM_OR (bool_int (negb (operand2 =? 0) || negb (operand1 =? 0)))
    else if token =? TOK_BITAND then apply_op VM_BITAND (Z.land operand2 operand1)
    else if token =? TOK_BITOR then apply_op VM_BITOR (Z.lor operand2 operand1)
    else if token =? TOK_BITXOR then apply_op VM_BITXOR (Z.lxor operand2 operand1)
    else if token =? TOK_LSH then
      if c then emit VM_LSH ;; ret RET_SUCCESS
      else if (0 <=? operand1) && (operand1 <? 32) then
        push_operand_stack (wrap (Z.shiftl operand2 operand1)) ;; ret RET_SUCCESS
      else undefined "shift count out of range"
    else if token =? TOK_RSH then
      if c then emit VM_RSH ;; ret RET_SUCCESS
      else if (0 <=? operand1) && (operand1 <? 32) then
        push_operand_stack (Z.shiftr operand2 operand1) ;; ret RET_SUCCESS
      else undefined "shift count out of range"
    else exit 99
  else
    if token =? TOK_UNM then apply_op VM_NEG (wrap (- operand1))
    else if token =? TOK_UNP then
      if c then ret RET_SUCCESS else push_operand_stack operand1 ;; ret RET_SUCCESS
    else if token =? TOK_NOT then apply_op VM_NOT (bool_int (operand1 =? 0))
    else if token =? TOK_BITNOT then apply_op VM_BITNOT (Z.lnot operand1)
    else if token =? TOK_STAR then
      if c then emit VM_LDAWORD ;; ret RET_SUCCESS
      else result <- mem_load_word operand1 ;; push_operand_stack result ;; ret RET_SUCCESS
    else if token =? TOK_CARET then
      if c then emit VM_LDABYTE ;; ret RET_SUCCESS
      else result <- mem_load_byte operand1 ;; push_operand_stack result ;; ret RET_SUCCESS
    else exit 99.

(** ** Statement table *)

Definition TOK_COMM := 150.
Definition TOK_PRDEC := 151.
Definition TOK_PRDEC_S := 152.
Definition TOK_PRHEX := 153.
Definition TOK_PRMSG := 154.
Definition TOK_PRNL := 155.
Definition TOK_PRSTR := 156.
Definition TOK_PRCH := 157.
Definition TOK_KBDCH := 158.
Definition TOK_KBDLN := 159.
Definition TOK_QUIT := 160.
Definition TOK_CLEAR := 161.
Definition TOK_VARS := 162.
Definition TOK_WORD := 163.
Definition TOK_BYTE := 164.
Definition TOK_CONST := 165.
Definition TOK_RUN := 166.
Definition TOK_COMPILE := 167.
Definition TOK_NEW := 168.
Definition TOK_SUBR := 169.
Definition TOK_ENDSUBR := 170.
Definition TOK_IF := 171.
Definition TOK_ELSE := 172.
Definition TOK_ENDIF := 173.
Definition TOK_FREE := 174.
Definition TOK_CALL := 175.
Definition TOK_RET := 176.
Definition TOK_FOR := 177.
Definition TOK_ENDFOR := 178.
Definition TOK_WHILE := 179.
Definition TOK_ENDW := 180.
Definition TOK_END := 181.
Definition TOK_MODE := 182.
Definition TOK_POKEWORD := 183.
Definition TOK_POKEBYTE := 184.
Definition TOK_LOAD := 185.
Definition TOK_SAVE := 186.
Definition TOK_LIST := 187.
Definition TOK_CHANGE := 188.
Definition TOK_APP := 189.
Definition TOK_INS := 190.
Definition TOK_DEL := 191.

(** [enum stmnttype] *)
Inductive stmnttype : Type :=
| FULLLINE | NOARGS | ONEARG | TWOARGS | INITIALARG | ONESTRARG
| INITIALNAMEARG | CUSTOM.

(** [struct stmnttabent] *)
Record stmnttabent := mkStmnt {
  st_name : string;
  st_token : Z;
  st_type : stmnttype
}.

Definition stmnttab : list stmnttabent :=
  [ mkStmnt "'" TOK_COMM FULLLINE;
    mkStmnt "pr.dec" TOK_PRDEC ONEARG;
    mkStmnt "pr.dec.s" TOK_PRDEC_S ONEARG;
    mkStmnt "pr.hex" TOK_PRHEX ONEARG;
    mkStmnt "pr.msg" TOK_PRMSG ONESTRARG;
    mkStmnt "pr.nl" TOK_PRNL NOARGS;
    mkStmnt "pr.str" TOK_PRSTR ONEARG;
    mkStmnt "pr.ch" TOK_PRCH ONEARG;
    mkStmnt "kbd.ch" TOK_KBDCH ONEARG;
    mkStmnt "kbd.ln" TOK_KBDLN TWOARGS;
    mkStmnt "quit" TOK_QUIT NOARGS;
    mkStmnt "clear" TOK_CLEAR NOARGS;
    mkStmnt "vars" TOK_VARS NOARGS;
    mkStmnt "word" TOK_WORD CUSTOM;
    mkStmnt "byte" TOK_BYTE CUSTOM;
    mkStmnt "const" TOK_CONST CUSTOM;
    mkStmnt "run" TOK_RUN NOARGS;
    mkStmnt "comp" TOK_COMPILE ONESTRARG;
    mkStmnt "new" TOK_NEW NOARGS;
    mkStmnt "sub" TOK_SUBR INITIALNAMEARG;
    mkStmnt "endsub" TOK_ENDSUBR NOARGS;
    mkStmnt "if" TOK_IF ONEARG;
    mkStmnt "else" TOK_ELSE NOARGS;
    mkStmnt "endif" TOK_ENDIF NOARGS;
    mkStmnt "free" TOK_FREE NOARGS;
    mkStmnt "call" TOK_CALL INITIALNAMEARG;
    mkStmnt "return" TOK_RET ONEARG;
    mkStmnt "for" TOK_FOR CUSTOM;
    mkStmnt "endfor" TOK_ENDFOR NOARGS;
    mkStmnt "while" TOK_WHILE ONEARG;
    mkStmnt "endwhile" TOK_ENDW NOARGS;
    mkStmnt "end" TOK_END NOARGS;
    mkStmnt "mode" TOK_MODE ONEARG;
    mkStmnt "*" TOK_POKEWORD INITIALARG;
    mkStmnt "^" TOK_POKEBYTE INITIALARG;
    mkStmnt ":r" TOK_LOAD ONESTRARG;
    mkStmnt ":w" TOK_SAVE ONESTRARG;
    mkStmnt ":l" TOK_LIST CUSTOM;
    mkStmnt ":c" TOK_CHANGE INITIALARG;
    mkStmnt ":a" TOK_APP ONEARG;
    mkStmnt ":i" TOK_INS ONEARG;
    mkStmnt ":d" TOK_DEL INITIALARG ].

(** The scan of [matchstatement] over the table. *)
Fixpoint matchstatement_from (tab : list stmnttabent) (p : string) : Z :=
  match tab with
  | [] => ILLEGAL
  | s :: tab' =>
      if starts_with s.(st_name) p then
        if (TOK_POKEWORD <=? s.(st_token)) || (s.(st_token) <=? TOK_COMM) then s.(st_token)
        else
          let c := peek (drop (String.length s.(st_name)) p) in
          if is_nul c || Ascii.eqb c " " || Ascii.eqb c ";" then s.(st_token)
          else matchstatement_from tab' p
      else matchstatement_from tab' p
  end.

Definition matchstatement (p : string) : Z := matchstatement_from stmnttab p.

(** [checkNoMoreArgs]: [true] (1) if something other than the end of the
    line or a semicolon is next. *)
Definition checkNoMoreArgs : M bool :=
  eatspace ;;
  t <- get txtPtr ;;
  if negb (is_nul (peek t)) && negb (Ascii.eqb (peek t) ";") then
    error ERR_EXTRA ;; printchar 32 ;; print t ;; ret true
  else ret false.

(** ** The expression parser

    The functions below call each other recursively in the source.  Each
    body is written once, over the functions it calls; the recursion is
    closed afterwards by a fixpoint on the fuel. *)

Section Bodies.

Context {pf : Platform}.

(** The callees, one level of fuel down. *)
Variable push_operator : Z -> M bool.
Variable E_more : M bool.
Variable E_drain : M bool.
Variable E : M bool.
Variable P : M bool.
Variable subscript : M (option Z).
Variable eval : bool -> M (option Z).
Variable docall : M bool.
Variable run : bool -> M unit.

(** [push_operator]: operator precedence is handled here. *)
Definition push_operator_body (operator_token : Z) : M bool :=
  top <- top_operator_stack ;;
  match getprecedence top, getprecedence operator_token with
  | Some ptop, Some pnew =>
      if pnew <=? ptop then orfail pop_operator (push_operator operator_token)
      else push_operator_stack operator_token ;; ret RET_SUCCESS
  | _, _ => exit 99
  end.

(** The last loop of [E]: apply what is left above the sentinel. *)
Definition E_drain_body : M bool :=
  top <- top_operator_stack ;;
  if negb (top =? SENTINEL) then orfail pop_operator E_drain
  else ret RET_SUCCESS.

(** The first loop of [E]: binary operator, then predicate. *)
Definition E_more_body : M bool :=
  t <- get txtPtr ;;
  let op := binary t in
  if negb (op =? ILLEGAL) then
    orfail (push_operator op)
      ((if IS1CHBINARY op then inc_txtPtr else inc_txtPtr ;; inc_txtPtr) ;;
       orfail P E_more)
  else E_drain.

Definition E_body : M bool := orfail P E_more.

(** [subscript]: [None] when the source returns 1, else the index. *)
Definition subscript_body : M (option Z) :=
  push_operator_stack SENTINEL ;;
  r <- expect "[" ;;
  if r then ret None
  else
    idx <- eval false ;;
    match idx with
    | None => ret None
    | Some i =>
        r <- expect "]" ;;
        if r then ret None
        else pop_operator_stack ;; ret (Some i)
    end.

(** The part of [P] that follows the name of a variable, up to the label
    [skip_var]. *)
Definition P_variable (key : string) (idx : Z) (addressmode : bool) : M bool :=
  let common :=
    r <- getintvar key idx addressmode ;;
    match r with
    | None => ret RET_ERROR
    | Some (arg, type) =>
        oc <- get onlyconstants ;;
        if oc && negb (is_const_type type) then error ERR_CONST ;; ret RET_ERROR
        else
          c <- get compile ;;
          (if negb c then push_operand_stack arg else ret tt) ;;
          eatspace ;; ret RET_SUCCESS
    end in
  c <- get compile ;;
  if c then
    modify (set_compiletimelookup true) ;;
    r <- getintvar key idx addressmode ;;
    match r with
    | None => ret RET_ERROR
    | Some (arg, type) =>
        if is_const_type type then
          push_operand_stack arg ;; eatspace ;; ret RET_SUCCESS
        else common
    end
  else common.

(** The function invocation inside [P]. *)
Definition P_invoke (addressmode : bool) : M bool :=
  oc <- get onlyconstants ;;
  if oc then error ERR_CONST ;; ret RET_ERROR
  else if addressmode then error ERR_VAR ;; ret RET_ERROR
  else
    c <- get compile ;;
    if c then
      push_operator_stack SENTINEL ;;
      orfail docall (pop_operator_stack ;; eatspace ;; ret RET_SUCCESS)
    else
      push_operator_stack SENTINEL ;;
      oldcurrent <- get current ;;
      oldcounter <- get counter ;;
      push_return (RInt CALLFRAME) ;;
      push_return (RInt (-2)) ;;
      push_return (RInt (-1)) ;;
      orfail docall
        (run true ;;
         modify (fun s => set_counter oldcounter (set_current oldcurrent s)) ;;
         pop_return ;;
         pop_return ;;
         pop_return ;;
         pop_operator_stack ;;
         r <- get retregister ;;
         push_operand_stack r ;;
         eatspace ;; ret RET_SUCCESS).

(** [P]: a predicate. *)
Definition P_body : M bool :=
  eatspace ;;
  t <- get txtPtr ;;
  let c := peek t in
  if is_nul c then error ERR_EXPR ;; ret RET_ERROR
  else if Ascii.eqb c "&" || isalphach c then
    let addressmode := Ascii.eqb c "&" in
    (if addressmode then inc_txtPtr else ret tt) ;;
    t <- get txtPtr ;;
    if addressmode && negb (isalphach (peek t)) then error ERR_VAR ;; ret RET_ERROR
    else
      let '(lexeme, rest) := span_alnum t in
      modify (fun s => set_txtPtr rest (set_readbuf lexeme s)) ;;
      let key := strn VARNUMCHARS lexeme in
      if Ascii.eqb (peek rest) "[" then
        idx <- subscript ;;
        match idx with
        | None => error ERR_SUBSCR ;; ret RET_ERROR
        | Some i => P_variable key i addressmode
        end
      else if Ascii.eqb (peek rest) "(" then P_invoke addressmode
      else P_variable key (-1) addressmode
  else if isdigitch c then
    r <- parseint ;;
    match r with
    | None => error ERR_NUM ;; ret RET_ERROR
    | Some arg => push_operand_stack arg ;; eatspace ;; ret RET_SUCCESS
    end
  else if Ascii.eqb c "$" then
    inc_txtPtr ;;
    r <- parsehexint ;;
    match r with
    | None => error ERR_NUM ;; ret RET_ERROR
    | Some arg => push_operand_stack arg ;; eatspace ;; ret RET_SUCCESS
    end
  else if Ascii.eqb c "'" then
    inc_txtPtr ;;
    t <- get txtPtr ;;
    let arg := char_int (peek t) in
    inc_txtPtr ;;
    t <- get txtPtr ;;
    if negb (Ascii.eqb (peek t) "'") then error ERR_NUM ;; ret RET_ERROR
    else inc_txtPtr ;; push_operand_stack arg ;; eatspace ;; ret RET_SUCCESS
  else if Ascii.eqb c "(" then
    inc_txtPtr ;;
    push_operator_stack SENTINEL ;;
    orfail E (orfail (expect ")") (pop_operator_stack ;; ret RET_SUCCESS))
  else if negb (unary t =? ILLEGAL) then
    push_operator_stack (unary t) ;;
    inc_txtPtr ;;
    P
  else
    error ERR_EXTRA ;; printchar 32 ;; printchar (char_int c) ;; ret RET_ERROR.

(** [eval]: [None] when the source returns 1, else the value of the
    expression. *)
Definition eval_body (checkNoMore : bool) : M (option Z) :=
  eatspace ;;
  t <- get txtPtr ;;
  if is_nul (peek t) then error ERR_EXPR ;; ret None
  else
    r <- E ;;
    if r then ret None
    else
      t <- get txtPtr ;;
      if checkNoMore && negb (Ascii.eqb (peek t) ";") && negb (is_nul (peek t)) then
        error ERR_EXTRA ;; printchar 32 ;; print t ;; ret None
      else val <- pop_operand_stack ;; ret (Some val).

End Bodies.

(** ** Declarations and assignment *)

Section Declarations.

Context {pf : Platform}.

Variable subscript : M (option Z).
Variable eval : bool -> M (option Z).
Variable civ_fill : Z -> Z -> Z -> Z -> list (option Z) -> M (option (list (option Z))).
Variable civ_emit : Z -> Z -> Z -> Z -> M bool.
Variable createintvar : string -> Z -> Z -> Z -> Z -> Z -> M bool.

Definition civ_st_rel_word (i : Z) : M unit :=
  sp <- get rtSP ;;
  fp <- get rtFP ;;
  emitldi (u32 (sp - fp + 2 * i)) ;;
  emit VM_STRWORD.

Definition civ_st_rel_byte (i : Z) : M unit :=
  sp <- get rtSP ;;
  fp <- get rtFP ;;
  emitldi (u32 (sp - fp + i)) ;;
  emit VM_STRBYTE.

(** The closing bracket of a list initializer, and the double quote. *)
Definition list_close : ascii := "}".
Definition dquote : ascii := ascii_of_nat 34.

(** The loop of [createintvar] that initializes an array of the
    interpreter, from element [i] on; [None] when the source returns 1. *)
Definition civ_fill_body (arrinitmode type i sz : Z) (elems : list (option Z))
  : M (option (list (option Z))) :=
  if i <? sz then
    t <- get txtPtr ;;
    val <-
      (if arrinitmode =? STRG_INIT then
         if Ascii.eqb (peek t) dquote then ret (Some 0)
         else inc_txtPtr ;; ret (Some (char_int (peek t)))
       else if Ascii.eqb (peek t) list_close then ret (Some 0)
       else
         r <- eval false ;;
         match r with
         | None => ret None
         | Some val =>
             eatspace ;;
             t <- get txtPtr ;;
             (if Ascii.eqb (peek t) "," then inc_txtPtr else ret tt) ;;
             eatspace ;;
             ret (Some val)
         end) ;;
    match val with
    | None => ret None
    | Some val =>
        civ_fill arrinitmode type (i + 1) sz
          (upd elems (Z.to_nat i) (Some (if type =? TYPE_WORD then val else u8 val)))
    end
  else ret (Some elems).

(** The same loop when compiling: it emits the stores. *)
Definition civ_emit_body (arrinitmode type i sz : Z) : M bool :=
  if i <? sz then
    t <- get txtPtr ;;
    let st := if type =? TYPE_WORD then civ_st_rel_word i else civ_st_rel_byte i in
    if arrinitmode =? STRG_INIT then
      emitldi (if Ascii.eqb (peek t) dquote then 0 else char_int (peek t)) ;;
      st ;;
      if Ascii.eqb (peek t) dquote then ret RET_SUCCESS
      else inc_txtPtr ;; civ_emit arrinitmode type (i + 1) sz
    else if Ascii.eqb (peek t) list_close then ret RET_SUCCESS
    else
      r <- eval false ;;
      match r with
      | None => ret RET_ERROR
      | Some _ =>
          st ;;
          eatspace ;;
          t <- get txtPtr ;;
          (if Ascii.eqb (peek t) "," then inc_txtPtr else ret tt) ;;
          eatspace ;;
          civ_emit arrinitmode type (i + 1) sz
      end
  else ret RET_SUCCESS.

(** Relative address if compiling a subroutine, absolute otherwise. *)
Definition rt_alloc (bytes : Z) : M Z :=
  a <- rt_push_callstack bytes ;;
  csub <- get compilingsub ;;
  fp <- get rtFP ;;
  ret (if csub then u32 (a - fp) else u32 (a + 1)).

(** [createintvar]: create a new variable, appended to the table. *)
Definition createintvar_body (name : string) (type isarray sz value bodyptr : Z) : M bool :=
  found <- get (findintvar name true) ;;
  match fst found with
  | Some _ => error ERR_REDEF ;; ret RET_ERROR
  | None =>
      if sz <? 1 then error ERR_DIM ;; ret RET_ERROR
      else
        let isconst := if type =? TYPE_CONST then 1 else 0 in
        let type := if type =? TYPE_CONST then TYPE_WORD else type in
        let vtype := u8 (Z.lor (Z.lor (Z.shiftl isconst 5) (Z.shiftl isarray 4)) type) in
        let finish (a : Z) (d : payload) : M bool :=
          append_var (mkVar a (strn VARNUMCHARS name) vtype d) true ;;
          ret RET_SUCCESS in
        c <- get compile ;;
        if isarray =? 0 then
          if c then
            a <- alloc1 (SZ_VAR + SZ_INT) ;;
            if isconst =? 1 then finish a (IntCell value)
            else if type =? TYPE_WORD then
              addr <- rt_alloc 2 ;; emit VM_PSHWORD ;; finish a (IntCell addr)
            else
              addr <- rt_alloc 1 ;; emit VM_PSHBYTE ;; finish a (IntCell addr)
          else if type =? TYPE_WORD then
            a <- alloc1 (SZ_VAR + SZ_INT) ;; finish a (IntCell value)
          else
            a <- alloc1 (SZ_VAR + 1) ;; finish a (ByteCell (u8 value))
        else if negb (bodyptr =? 0) then
          a <- alloc1 (SZ_VAR + 2 * SZ_INT) ;;
          finish a (Arr bodyptr sz [])
        else
          t <- get txtPtr ;;
          let quoted := Ascii.eqb (peek t) dquote in
          let listed := Ascii.eqb (peek t) "{" in
          (if quoted || listed then inc_txtPtr else ret tt) ;;
          let arrinitmode := if quoted then STRG_INIT else LIST_INIT in
          let close (a : Z) (d : payload) : M bool :=
            t <- get txtPtr ;;
            if Ascii.eqb (peek t) (if quoted then dquote else list_close) then
              inc_txtPtr ;; finish a d
            else error ERR_TOOLONG ;; ret RET_ERROR in
          if c then
            a <- alloc1 (SZ_VAR + 2 * SZ_INT) ;;
            body <- rt_alloc (if type =? TYPE_WORD then sz * 2 else sz) ;;
            emitldi sz ;;
            emit VM_DEC ;;
            emit VM_DUP ;;
            emitldi 0 ;;
            emit (if type =? TYPE_WORD then VM_PSHWORD else VM_PSHBYTE) ;;
            emitldi 0 ;;
            emit VM_NEQL ;;
            pc <- get rtPC ;;
            emit_imm VM_BRNCHIMM (pc - 10) ;;
            emit VM_DROP ;;
            if negb (quoted || listed) then undefined "arrinitmode is read uninitialised"
            else
              orfail (civ_emit arrinitmode type 0 (if quoted then sz - 1 else sz))
                (close a (Arr body sz []))
          else
            a <- alloc1 (if type =? TYPE_WORD then SZ_VAR + (sz + 2) * SZ_INT
                         else SZ_VAR + 2 * SZ_INT + sz) ;;
            if negb (quoted || listed) then undefined "arrinitmode is read uninitialised"
            else
              r <- civ_fill arrinitmode type 0 (if quoted then sz - 1 else sz)
                     (repeat None (Z.to_nat sz)) ;;
              match r with
              | None => ret RET_ERROR
              | Some elems => close a (Arr (a + SZ_VAR + 2 * SZ_INT) sz elems)
              end
  end.

Definition type_of_mode (mode : Z) : Z :=
  if mode =? CONST_MODE then TYPE_CONST
  else if mode =? WORD_MODE then TYPE_WORD else TYPE_BYTE.

(** [assignorcreate]: declaration, assignment, and entry to a for loop. *)
Definition assignorcreate_body (mode : Z) : M bool :=
  oldcompile <- get compile ;;
  t <- get txtPtr ;;
  if negb (isalphach (peek t)) then error ERR_VAR ;; ret RET_ERROR
  else
    let '(lexeme, rest) := span_alnum t in
    let name := strn VARNUMCHARS lexeme in
    modify (set_txtPtr rest) ;;
    let isarray := Ascii.eqb (peek rest) "[" in
    i <-
      (if isarray then
         if (mode =? WORD_MODE) || (mode =? BYTE_MODE) then
           modify (set_onlyconstants true) ;;
           modify (set_compile false) ;;
           r <- subscript ;;
           modify (set_onlyconstants false) ;;
           modify (set_compile oldcompile) ;;
           ret r
         else subscript
       else ret (Some 0)) ;;
    match i with
    | None => ret RET_ERROR
    | Some i =>
        eatspace ;;
        orfail (expect "=")
          (eatspace ;;
           (if mode =? CONST_MODE then modify (set_compile false) else ret tt) ;;
           j <-
             (if negb isarray || (mode =? LET_MODE) || (mode =? FOR_MODE) then
                eval (negb (mode =? FOR_MODE))
              else ret (Some 0)) ;;
           match j with
           | None => modify (set_compile true) ;; ret RET_ERROR
           | Some j =>
               modify (set_compile oldcompile) ;;
               let declare :=
                 (mode =? WORD_MODE) || (mode =? BYTE_MODE) || (mode =? CONST_MODE) in
               let i := if declare then (if i =? 0 then 1 else i)
                        else (if isarray then i else -1) in
               orfail
                 (if declare then
                    createintvar name (type_of_mode mode) (bool_int isarray) i j 0
                  else setintvar name i j)
                 (if negb (mode =? FOR_MODE) then ret RET_SUCCESS
                  else
                    orfail (expect ":")
                      (k <- eval true ;;
                       match k with
                       | None => ret RET_ERROR
                       | Some k =>
                           c <- get compile ;;
                           (if c then modify (set_compiletimelookup true) else ret tt) ;;
                           r <- getintvar name i true ;;
                           match r with
                           | None => ret RET_ERROR
                           | Some (j, type) =>
                               push_return
                                 (RInt (if base_type type =? TYPE_WORD then FORFRAME_W
                                        else FORFRAME_B)) ;;
                               if c then
                                 found <- get (findintvar name false) ;;
                                 csub <- get compilingsub ;;
                                 push_return (RInt (bool_int (snd found && csub))) ;;
                                 emit VM_PSHWORD ;;
                                 pc <- get rtPC ;;
                                 push_return (RInt pc) ;;
                                 push_return (RInt j) ;;
                                 push_return (RInt 0) ;;
                                 ret RET_SUCCESS
                               else
                                 cnt <- get counter ;;
                                 push_return (RInt cnt) ;;
                                 t <- get txtPtr ;;
                                 push_return (RTxt t) ;;
                                 push_return (RInt k) ;;
                                 push_return (RInt j) ;;
                                 ret RET_SUCCESS
                           end
                       end))
           end)
    end.

End Declarations.

(** ** Subroutines *)

(** [*(int * )((unsigned char * )v + sizeof(var_t)) += d], skipping frame
    markers; [None] if an entry has no word there. *)
Definition bump_first_word (d : Z) (v : var_t) : option var_t :=
  if is_marker v then Some v
  else
    match v.(v_data) with
    | IntCell x => Some (mkVar v.(v_addr) v.(v_name) v.(v_type) (IntCell (wrap (x + d))))
    | Arr b size elems =>
        Some (mkVar v.(v_addr) v.(v_name) v.(v_type) (Arr (wrap (b + d)) size elems))
    | ByteCell _ => None
    end.

(** The same for every entry from index [i] on. *)
Fixpoint bump_from (d : Z) (vs : list var_t) (i : nat) : option (list var_t) :=
  match vs with
  | [] => Some []
  | v :: r =>
      match i with
      | O =>
          match bump_first_word d v, bump_from d r O with
          | Some v', Some r' => Some (v' :: r')
          | _, _ => None
          end
      | S i' => option_map (cons v) (bump_from d r i')
      end
  end.

(** [while ( *p != '(') ++p; ++p]: the text behind the next parenthesis. *)
Fixpoint behind_paren (p : string) : option string :=
  match p with
  | String c r => if is_nul c then None else if Ascii.eqb c "(" then Some r else behind_paren r
  | EmptyString => None
  end.

(** The [[]] that marks an array parameter: [None] is the argument error. *)
Definition array_suffix (p : string) : option (bool * string) :=
  if Ascii.eqb (peek p) "[" then
    if Ascii.eqb (peek1 p) "]" then Some (true, drop 2 p) else None
  else Some (false, p).

Section Subroutines.

Context {pf : Platform}.

Variable eval : bool -> M (option Z).
Variable createintvar : string -> Z -> Z -> Z -> Z -> Z -> M bool.
Variable dosubr_formals : M bool.
Variable docall_formals :
  string -> Z -> bool -> Z -> option nat -> option nat -> nat -> string -> M bool.

(** The loop of [dosubr] over the formal parameters, and what follows it. *)
Definition dosubr_formals_body : M bool :=
  eatspace ;;
  t <- get txtPtr ;;
  if Ascii.eqb (peek t) ")" then expect ")"
  else
    let isword := starts_with "word " t in
    let isbyte := starts_with "byte " t in
    if negb (isword || isbyte) then error ERR_ARG ;; ret RET_ERROR
    else
      let type := if isword then TYPE_WORD else TYPE_BYTE in
      let '(lexeme, rest) := span_alnum (skip_spaces (drop 5 t)) in
      match array_suffix rest with
      | None => modify (set_txtPtr (drop 1 rest)) ;; error ERR_ARG ;; ret RET_ERROR
      | Some (arraymode, rest) =>
          modify (set_txtPtr rest) ;;
          vl <- get varslocal ;;
          vs <- get vars ;;
          match
            match vl with
            | Some i => bump_from (if arraymode || (type =? TYPE_WORD) then 2 else 1) vs i
            | None => Some vs
            end
          with
          | None => undefined "no word behind a local variable"
          | Some vs' =>
              modify (set_vars vs') ;;
              a <- alloc1 (if arraymode then SZ_VAR + 2 * SZ_INT else SZ_VAR + SZ_INT) ;;
              append_var
                (mkVar a (strn VARNUMCHARS lexeme)
                   (u8 (Z.lor (Z.shiftl (bool_int arraymode) 4) type))
                   (if arraymode then Arr 4 (-1) [] else IntCell 4))
                true ;;
              eatspace ;;
              t <- get txtPtr ;;
              (if Ascii.eqb (peek t) "," then inc_txtPtr else ret tt) ;;
              dosubr_formals
          end
      end.

(** [dosubr]: subroutine declaration; only the compiler gets here. *)
Definition dosubr_body : M bool :=
  c <- get compile ;;
  if c then
    modify (set_compilingsub true) ;;
    print (nl ++ "[") ;;
    name <- get readbuf ;;
    print name ;;
    print "]" ;;
    modify (fun s => set_subs (s.(subs) ++ [mkSub (strn SUBRNUMCHARS name) s.(rtPC)]) s) ;;
    vars_markcallframe ;;
    emit VM_SPTOFP ;;
    modify (fun s => set_rtFP s.(rtSP) s) ;;
    orfail (expect "(") dosubr_formals
  else error ERR_RUNSUB ;; ret RET_ERROR.

Definition doendsubr : M bool :=
  c <- get compile ;;
  (if c then
     modify (fun s => set_rtSP s.(rtFP) s) ;;
     modify (set_compilingsub false) ;;
     vars_deletecallframe ;;
     emitldi 0
   else ret tt) ;;
  doreturn 0 ;;
  ret RET_SUCCESS.

(** The loop of [docall] over the formal parameters of the sub at [p] and
    the arguments of the call at [txtPtr], and what follows it.  [li] is the
    index of the line of the sub, [sname] the name kept for the call table. *)
Definition docall_formals_body (p : string) (argbytes : Z) (local : bool)
    (origcounter : Z) (oldvarslocal newvarslocal : option nat) (li : nat)
    (sname : string) : M bool :=
  let fail (err : Z) : M bool :=
    modify (set_counter origcounter) ;; error err ;; ret RET_ERROR in
  let p := skip_spaces p in
  c <- get compile ;;
  if Ascii.eqb (peek p) ")" then
    eatspace ;;
    r <- expect ")" ;;
    if r then modify (set_counter origcounter) ;; ret RET_ERROR
    else if c then
      emit_imm VM_JSRIMM 65535 ;;
      modify (fun s => set_calls (s.(calls) ++ [mkSub sname (s.(rtPC) - 2)]) s) ;;
      (if negb (argbytes =? 0) then emitldi argbytes ;; emit VM_DISCARD else ret tt) ;;
      ret RET_SUCCESS
    else
      t <- get txtPtr ;;
      push_return (RTxt t) ;;
      lines <- get program ;;
      match nth_error lines (S li) with
      | None => undefined "the sub is the last line: current->line with current NULL"
      | Some line =>
          modify (fun s =>
            set_txtPtr line (set_counter (s.(counter) + 1) (set_current (Some (S li)) s))) ;;
          ret RET_SUCCESS
      end
  else
    let isword := starts_with "word " p in
    let isbyte := starts_with "byte " p in
    if negb (isword || isbyte) then error ERR_ARG ;; ret RET_ERROR
    else
      let type := if isword then TYPE_WORD else TYPE_BYTE in
      let '(lexeme, p) := span_alnum (skip_spaces (drop 5 p)) in
      let name := strn VARNUMCHARS lexeme in
      match array_suffix p with
      | None => error ERR_ARG ;; ret RET_ERROR
      | Some (arraymode, p) =>
          t <- get txtPtr ;;
          if is_nul (peek t) || Ascii.eqb (peek t) ")" then fail ERR_ARG
          else
            let continue (argbytes : Z) (local : bool) : M bool :=
              eatspace ;;
              t <- get txtPtr ;;
              (if Ascii.eqb (peek t) "," then inc_txtPtr else ret tt) ;;
              eatspace ;;
              let p := skip_spaces p in
              docall_formals (if Ascii.eqb (peek p) "," then drop 1 p else p)
                argbytes local origcounter oldvarslocal newvarslocal li sname in
            if negb arraymode then
              (if negb c then modify (set_varslocal oldvarslocal) else ret tt) ;;
              arg <- eval false ;;
              match arg with
              | None => fail ERR_ARG
              | Some arg =>
                  if c then
                    if type =? TYPE_WORD then emit VM_PSHWORD ;; continue (u8 (argbytes + 2)) local
                    else emit VM_PSHBYTE ;; continue (u8 (argbytes + 1)) local
                  else
                    modify (set_varslocal newvarslocal) ;;
                    createintvar name type 0 1 arg 0 ;;
                    continue argbytes local
              end
            else if negb c then
              let '(lexeme2, rest) := span_alnum t in
              modify (set_txtPtr rest) ;;
              modify (set_varslocal oldvarslocal) ;;
              found <- get (findintvar (strn VARNUMCHARS lexeme2) local) ;;
              match found with
              | (None, _) => fail ERR_VAR
              | (Some ai, local) =>
                  array <- nth_var ai ;;
                  let j := Z.shiftr (Z.land array.(v_type) 240) 4 in
                  if negb (base_type array.(v_type) =? type) || (j =? 0) then fail ERR_TYPE
                  else
                    modify (set_varslocal newvarslocal) ;;
                    body <- scalar_word array ;;
                    size <- array_size array ;;
                    createintvar name type j size 0 body ;;
                    continue argbytes local
              end
            else
              arg <- eval false ;;
              match arg with
              | None => fail ERR_ARG
              | Some _ => emit VM_PSHWORD ;; continue (u8 (argbytes + 2)) local
              end
      end.

(** The outer loop of [docall]: find the line of the sub. *)
Fixpoint docall_scan (lines : list string) (li : nat) (origcounter : Z)
    (sname : string) : M bool :=
  match lines with
  | [] => modify (set_counter origcounter) ;; error ERR_NOSUB ;; ret RET_ERROR
  | line :: lines' =>
      c <- get compile ;;
      (if negb c then modify (fun s => set_counter (s.(counter) + 1) s) else ret tt) ;;
      modify (set_skipFlag false) ;;
      let p := skip_spaces line in
      name <- get readbuf ;;
      if starts_with "sub " p && negb (compareUntil (skip_spaces (drop 4 p)) name "(") then
        match behind_paren (skip_spaces (drop 4 p)) with
        | None => undefined "no parenthesis on the line of the sub"
        | Some p =>
            eatspace ;;
            r <- expect "(" ;;
            if r then modify (set_counter origcounter) ;; ret RET_ERROR
            else
              oldvarslocal <- get varslocal ;;
              (if negb c then
                 push_return (RInt CALLFRAME) ;;
                 push_return (RInt origcounter) ;;
                 vars_markcallframe
               else ret tt) ;;
              newvarslocal <- get varslocal ;;
              docall_formals p 0 false origcounter oldvarslocal newvarslocal li sname
        end
      else docall_scan lines' (S li) origcounter sname
  end.

(** [docall]: the name of the sub is in [readbuf]. *)
Definition docall_body : M bool :=
  sname <- get (fun s => strn SUBRNUMCHARS s.(readbuf)) ;;
  origcounter <- get counter ;;
  c <- get compile ;;
  (if negb c then modify (set_counter (-1)) else ret tt) ;;
  lines <- get program ;;
  docall_scan lines 0 origcounter sname.

End Subroutines.

(** ** Statement dispatcher *)

(** The head of the loop of [parseline]: [eatspace()], then the loop that
    eats semicolons and the spaces behind them.  Together they skip every
    leading space and semicolon. *)
Fixpoint skip_separators (p : string) : string :=
  match p with
  | String c r => if Ascii.eqb c " " || Ascii.eqb c ";" then skip_separators r else p
  | EmptyString => p
  end.

(** [while ( *txtPtr && ( *txtPtr != ';')) ++txtPtr]: eat the statement up
    to the semicolon or the end. *)
Fixpoint eat_statement (p : string) : string :=
  match p with
  | String c r => if is_nul c || Ascii.eqb c ";" then p else eat_statement r
  | EmptyString => p
  end.

(** [while ( *txtPtr) ++txtPtr]: eat the line. *)
Fixpoint eat_line (p : string) : string :=
  match p with
  | String c r => if is_nul c then p else eat_line r
  | EmptyString => p
  end.

(** The characters up to the closing quote (or the end), and the rest. *)
Fixpoint span_quoted (p : string) : string * string :=
  match p with
  | String c r =>
      if is_nul c || Ascii.eqb c dquote then (EmptyString, p)
      else let '(w, rest) := span_quoted r in (String c w, rest)
  | EmptyString => (EmptyString, p)
  end.

(** The tokens that are processed while [skipFlag] is set. *)
Definition manipulates_skipFlag (token : Z) : bool :=
  (token =? TOK_IF) || (token =? TOK_ELSE) || (token =? TOK_ENDIF)
  || (token =? TOK_WHILE) || (token =? TOK_ENDW).

(** How the code of a statement leaves the switch: [break] (on to the next
    statement) or [return]. *)
Inductive flow : Type :=
| Next
| Return (status : Z).

(** The C string at address [a]: bytes of a byte array up to the NUL. *)
Fixpoint load_cstring (vs : list var_t) (a : Z) (n : nat) : option string :=
  match n with
  | O => None
  | S n' =>
      match load_byte vs a with
      | None => None
      | Some b =>
          if b =? 0 then Some EmptyString
          else option_map (String (ascii_of_int b)) (load_cstring vs (a + 1) n')
      end
  end.

(** [printvars] *)
Definition printvar (v : var_t) : M unit :=
  let ch (i : nat) :=
    let c := peek (drop i v.(v_name)) in
    printchar (if is_nul c then 32 else char_int c) in
  ch 0%nat ;; ch 1%nat ;; ch 2%nat ;; ch 3%nat ;;
  (if is_array_type v.(v_type) then
     printchar (code_of "[") ;; size <- array_size v ;; printdec size ;;
     printchar (code_of "]")
   else ret tt) ;;
  printchar 32 ;;
  printchar (code_of (if base_type v.(v_type) =? TYPE_WORD then "w" else "b")) ;;
  printchar (code_of (if is_const_type v.(v_type) then "c" else " ")) ;;
  printchar 32 ;;
  (if negb (is_array_type v.(v_type)) then
     if v.(v_type) =? TYPE_WORD then x <- scalar_word v ;; printdec x
     else x <- scalar_byte v ;; printdec x
   else ret tt) ;;
  printchar 10.

Fixpoint printvars_from (vs : list var_t) : M unit :=
  match vs with
  | [] => ret tt
  | v :: r => printvar v ;; printvars_from r
  end.

Definition printvars : M unit := vs <- get vars ;; printvars_from vs.

(** [showfreespace] of the Linux build. *)
Definition showfreespace `{Platform} : M unit :=
  print ("free:" ++ nl) ;;
  p <- get heap1Ptr ;;
  printdec (p - HEAP1LIM + 1) ;;
  print " / " ;;
  printdec (HEAP1TOP - HEAP1LIM + 1) ;;
  print (" bytecode,vars" ++ nl) ;;
  print "unlimited source,linkage".

(** What the [comp] statement does after [run(0)] if the compile flag is
    still set: end the code, link, write the file, leave compile mode. *)
Definition finish_compile `{Platform} : M unit :=
  emit VM_END ;;
  linksubs ;;
  writebytecode ;;
  modify (set_compile false).

(** The tail of the [TOK_COMPILE] case, from the return of [run(0)] to the
    [break] that goes on to the next statement. *)
Definition end_compile `{Platform} : M flow :=
  c <- get compile ;;
  (if c then finish_compile else ret tt) ;;
  ret Next.

Section Dispatcher.

Context {pf : Platform}.

Variable eval : bool -> M (option Z).
Variable assignorcreate : Z -> M bool.
Variable dosubr : M bool.
Variable docall : M bool.
Variable parseline : M Z.
Variable run_lines : M Z.
Variable run : bool -> M unit.

(** The generic parameter handling of [parseline], by statement type:
    [None] when the source returns 2, else [arg] and [arg2]. *)
Definition parse_args (type : stmnttype) : M (option (Z * Z)) :=
  match type with
  | NOARGS =>
      r <- checkNoMoreArgs ;;
      if r then ret None else ret (Some (0, 0))
  | ONEARG =>
      a <- eval true ;;
      match a with None => ret None | Some arg => ret (Some (arg, 0)) end
  | TWOARGS =>
      a <- eval false ;;
      match a with
      | None => ret None
      | Some arg =>
          eatspace ;;
          r <- expect "," ;;
          if r then ret None
          else
            b <- eval false ;;
            match b with None => ret None | Some arg2 => ret (Some (arg, arg2)) end
      end
  | INITIALARG =>
      a <- eval false ;;
      match a with None => ret None | Some arg => ret (Some (arg, 0)) end
  | ONESTRARG =>
      t <- get txtPtr ;;
      if negb (Ascii.eqb (peek t) dquote) then ret None
      else
        let '(str, rest) := span_quoted (drop 1 t) in
        modify (fun s => set_txtPtr rest (set_readbuf str s)) ;;
        if Ascii.eqb (peek rest) dquote then
          inc_txtPtr ;;
          r <- checkNoMoreArgs ;;
          if r then ret None else ret (Some (0, 0))
        else error ERR_STR ;; ret None
  | INITIALNAMEARG =>
      t <- get txtPtr ;;
      if negb (isalphach (peek t)) then ret None
      else
        let '(name, rest) := span_alnum t in
        modify (fun s => set_txtPtr rest (set_readbuf name s)) ;;
        ret (Some (0, 0))
  | FULLLINE =>
      modify (fun s => set_txtPtr (eat_line s.(txtPtr)) s) ;;
      ret (Some (0, 0))
  | CUSTOM => ret (Some (0, 0))
  end.

Definition failing (m : M bool) : M flow :=
  r <- m ;; if r then ret (Return 2) else ret Next.

(** The code for the individual statements in [parseline]. *)
Definition statement (token arg arg2 : Z) (startTxtPtr : string) : M flow :=
  c <- get compile ;;
  if token =? TOK_COMM then ret Next
  else if token =? TOK_QUIT then print ("Bye!" ++ nl) ;; exit 0
  else if token =? TOK_PRDEC then
    (if c then emit VM_PRDEC else printdec arg) ;; ret Next
  else if token =? TOK_PRDEC_S then
    (if c then
       emit VM_DUP ;;
       emitldi 32768 ;;
       emit VM_BITAND ;;
       emit VM_NOT ;;
       pc <- get rtPC ;;
       emit_imm VM_BRNCHIMM (pc + 9) ;;
       emitldi (code_of "-") ;;
       emit VM_PRCH ;;
       emit VM_NEG ;;
       emit VM_PRDEC
     else ret tt) ;;
    (if arg <? 0 then printchar (code_of "-") ;; printdec (wrap (- arg))
     else printdec arg) ;;
    ret Next
  else if token =? TOK_PRHEX then
    (if c then emit VM_PRHEX else printhex arg) ;; ret Next
  else if token =? TOK_PRMSG then
    (if c then emitprmsg else msg <- get readbuf ;; print msg) ;; ret Next
  else if token =? TOK_PRNL then
    (if c then emitldi 10 ;; emit VM_PRCH else printchar 10) ;; ret Next
  else if token =? TOK_PRSTR then
    (if c then emit VM_PRSTR
     else
       vs <- get vars ;;
       match load_cstring vs arg (Z.to_nat HEAP1SZ) with
       | Some str => print str
       | None => undefined "string read through an unresolved pointer"
       end) ;;
    ret Next
  else if token =? TOK_PRCH then
    (if c then emit VM_PRCH else printchar arg) ;; ret Next
  else if token =? TOK_KBDCH then
    (if c then emit VM_KBDCH ;; emit VM_SWAP ;; emit VM_STABYTE
     else print ("kbd.ch unimplemented on Linux" ++ nl)) ;;
    ret Next
  else if token =? TOK_KBDLN then
    if c then emit VM_KBDLN ;; ret Next
    else undefined "getln: keyboard input is outside the embedding"
  else if token =? TOK_CLEAR then clearvars ;; ret Next
  else if token =? TOK_VARS then printvars ;; ret Next
  else if token =? TOK_WORD then failing (assignorcreate WORD_MODE)
  else if token =? TOK_BYTE then failing (assignorcreate BYTE_MODE)
  else if token =? TOK_CONST then failing (assignorcreate CONST_MODE)
  else if token =? TOK_RUN then run false ;; ret Next
  else if token =? TOK_COMPILE then
    modify (fun s => set_filename (strn FILENAMELEN s.(readbuf)) s) ;;
    modify (set_compile true) ;;
    modify (fun s => set_calls [] (set_subs [] s)) ;;
    CLEARRTCALLSTACK ;;
    run false ;;
    end_compile
  else if token =? TOK_NEW then new ;; ret Next
  else if token =? TOK_SUBR then failing dosubr
  else if token =? TOK_ENDSUBR then failing doendsubr
  else if token =? TOK_CALL then
    r <- docall ;;
    c <- get compile ;;
    if r then ret (Return 2)
    else if c then emit VM_DROP ;; ret Next
    else
      line <- rs 2 ;;
      (if rv_is line (-1) then run true else ret tt) ;;
      ret Next
  else if token =? TOK_RET then
    r <- doreturn arg ;;
    if r then ret (Return 2)
    else
      line <- rs 2 ;;
      if rv_is line (-2) then ret (Return 1) else ret Next
  else if token =? TOK_IF then doif arg ;; ret Next
  else if token =? TOK_ELSE then failing doelse
  else if token =? TOK_ENDIF then failing doendif
  else if token =? TOK_FOR then failing (assignorcreate FOR_MODE)
  else if token =? TOK_ENDFOR then failing doendfor
  else if token =? TOK_WHILE then dowhile startTxtPtr arg ;; ret Next
  else if token =? TOK_ENDW then failing doendwhile
  else if token =? TOK_END then
    if c then emit VM_END ;; ret Next else ret (Return 1)
  else if token =? TOK_MODE then ret Next
  else if token =? TOK_FREE then showfreespace ;; ret Next
  else if (token =? TOK_POKEWORD) || (token =? TOK_POKEBYTE) then
    eatspace ;;
    r <- expect "=" ;;
    if r then ret (Return 2)
    else
      v <- eval true ;;
      match v with
      | None => ret (Return 2)
      | Some arg2 =>
          c <- get compile ;;
          if c then
            emit VM_SWAP ;;
            emit (if token =? TOK_POKEWORD then VM_STAWORD else VM_STABYTE) ;;
            ret (Return 0)
          else
            (if token =? TOK_POKEWORD then mem_store_word arg arg2
             else mem_store_byte arg arg2) ;;
            ret Next
      end
  else if token =? TOK_APP then
    findline arg ;;
    cur <- get current ;;
    match cur with
    | None => error ERR_LINE ;; ret Next
    | Some _ => modify (set_editmode 1) ;; ret Next
    end
  else if token =? TOK_INS then
    if arg <=? 1 then modify (set_editmode 2) ;; ret Next
    else
      findline (arg - 1) ;;
      cur <- get current ;;
      match cur with
      | None => error ERR_LINE ;; ret Next
      | Some _ => modify (set_editmode 1) ;; ret Next
      end
  else if (TOK_LOAD <=? token) && (token <=? TOK_DEL) then
    undefined "editor command outside the embedding"
  else exit 99.

(** [parseline]: one turn of its loop, then the next. *)
Definition parseline_body : M Z :=
  s0 <- get (fun s => s) ;;
  if checkInterrupted s0 then ret 3
  else
    modify (fun s => set_txtPtr (skip_separators s.(txtPtr)) s) ;;
    t <- get txtPtr ;;
    if is_nul (peek t) then ret 0
    else
      let token := matchstatement t in
      skip <- get skipFlag ;;
      if skip && negb (manipulates_skipFlag token) then
        modify (set_txtPtr (eat_statement t)) ;;
        parseline
      else if token =? ILLEGAL then
        r <- assignorcreate LET_MODE ;;
        if r then ret 2 else parseline
      else
        match aget stmnttab (token - TOK_COMM) with
        | None => undefined "stmnttab index"
        | Some s =>
            modify (set_txtPtr (drop (String.length s.(st_name)) t)) ;;
            eatspace ;;
            modify (fun st => set_rtPCBeforeEval st.(rtPC) st) ;;
            args <- parse_args s.(st_type) ;;
            match args with
            | None => ret 2
            | Some (arg, arg2) =>
                f <- statement token arg arg2 t ;;
                match f with
                | Return status => ret status
                | Next => parseline
                end
            end
        end.

(** The loop of [run]; its value is the final [status]. *)
Definition run_lines_body : M Z :=
  cur <- get current ;;
  match cur with
  | None => ret 0
  | Some i =>
      c <- get compile ;;
      (if c then printchar (code_of ".") else ret tt) ;;
      lines <- get program ;;
      match nth_error lines i with
      | None => undefined "current is stale"
      | Some line =>
          modify (set_txtPtr line) ;;
          status <- parseline ;;
          cur <- get current ;;
          match cur with
          | None => ret status
          | Some j =>
              modify (fun s => set_counter (s.(counter) + 1) (set_current (next_line s j) s)) ;;
              if status =? 0 then run_lines else ret status
          end
      end
  end.

(** The head of [run]: a fresh start unless [cont] is set. *)
Definition run_reset (cont : bool) : M unit :=
  modify (set_calllevel 0) ;;
  modify (set_skipFlag false) ;;
  if negb cont then
    modify (set_counter 0) ;;
    clearvars ;;
    modify (set_returnSP (RETSTACKSZ - 1)) ;;
    modify (fun s => set_current (first_line s) s)
  else ret tt.

(** The [switch (status)] at the end of [run]. *)
Definition run_report (status : Z) : M unit :=
  if (status =? 2) || (status =? 3) then
    print (if status =? 2 then " err at " else nl ++ "Brk at ") ;;
    cnt <- get counter ;;
    printdec cnt ;;
    printchar 10 ;;
    modify (set_returnSP (RETSTACKSZ - 1)) ;;
    modify (set_skipFlag false) ;;
    modify (set_compile false)
  else ret tt.

(** [run] *)
Definition run_body (cont : bool) : M unit :=
  run_reset cont ;;
  status <- run_lines ;;
  run_report status.

End Dispatcher.

(** ** Closing the recursion

    Every function takes the fuel [n]; a call or a turn of a loop uses the
    callee with the fuel [n - 1].  The state is an explicit argument, so that
    a callee is only unfolded when it is called. *)

Section Interpreter.

Context {pf : Platform}.

Fixpoint push_operator (n : nat) (operator_token : Z) (s : state) : outcome bool :=
  match n with
  | O => OutOfFuel
  | S k => push_operator_body (push_operator k) operator_token s
  end.

Fixpoint E_drain (n : nat) (s : state) : outcome bool :=
  match n with
  | O => OutOfFuel
  | S k => E_drain_body (E_drain k) s
  end.

Fixpoint dosubr_formals (n : nat) (s : state) : outcome bool :=
  match n with
  | O => OutOfFuel
  | S k => dosubr_formals_body (dosubr_formals k) s
  end.

Definition dosubr (n : nat) (s : state) : outcome bool :=
  match n with
  | O => OutOfFuel
  | S k => dosubr_body (dosubr_formals k) s
  end.

Fixpoint E_more (n : nat) (s : state) : outcome bool :=
  match n with
  | O => OutOfFuel
  | S k => E_more_body (push_operator k) (E_more k) (E_drain k) (P k) s
  end

with E (n : nat) (s : state) : outcome bool :=
  match n with
  | O => OutOfFuel
  | S k => E_body (E_more k) (P k) s
  end

with P (n : nat) (s : state) : outcome bool :=
  match n with
  | O => OutOfFuel
  | S k => P_body (E k) (P k) (subscript k) (docall k) (run k) s
  end

with subscript (n : nat) (s : state) : outcome (option Z) :=
  match n with
  | O => OutOfFuel
  | S k => subscript_body (eval k) s
  end

with eval (n : nat) (checkNoMore : bool) (s : state) : outcome (option Z) :=
  match n with
  | O => OutOfFuel
  | S k => eval_body (E k) checkNoMore s
  end

with civ_fill (n : nat) (arrinitmode type i sz : Z) (elems : list (option Z))
    (s : state) : outcome (option (list (option Z))) :=
  match n with
  | O => OutOfFuel
  | S k => civ_fill_body (eval k) (civ_fill k) arrinitmode type i sz elems s
  end

with civ_emit (n : nat) (arrinitmode type i sz : Z) (s : state) : outcome bool :=
  match n with
  | O => OutOfFuel
  | S k => civ_emit_body (eval k) (civ_emit k) arrinitmode type i sz s
  end

with createintvar (n : nat) (name : string) (type isarray sz value bodyptr : Z)
    (s : state) : outcome bool :=
  match n with
  | O => OutOfFuel
  | S k => createintvar_body (civ_fill k) (civ_emit k) name type isarray sz value bodyptr s
  end

with assignorcreate (n : nat) (mode : Z) (s : state) : outcome bool :=
  match n with
  | O => OutOfFuel
  | S k => assignorcreate_body (subscript k) (eval k) (createintvar k) mode s
  end

with docall_formals (n : nat) (p : string) (argbytes : Z) (local : bool)
    (origcounter : Z) (oldvarslocal newvarslocal : option nat) (li : nat)
    (sname : string) (s : state) : outcome bool :=
  match n with
  | O => OutOfFuel
  | S k =>
      docall_formals_body (eval k) (createintvar k) (docall_formals k)
        p argbytes local origcounter oldvarslocal newvarslocal li sname s
  end

with docall (n : nat) (s : state) : outcome bool :=
  match n with
  | O => OutOfFuel
  | S k => docall_body (docall_formals k) s
  end

with parseline (n : nat) (s : state) : outcome Z :=
  match n with
  | O => OutOfFuel
  | S k =>
      parseline_body (eval k) (assignorcreate k) (dosubr k) (docall k) (parseline k) (run k) s
  end

with run_lines (n : nat) (s : state) : outcome Z :=
  match n with
  | O => OutOfFuel
  | S k => run_lines_body (parseline k) (run_lines k) s
  end

with run (n : nat) (cont : bool) (s : state) : outcome unit :=
  match n with
  | O => OutOfFuel
  | S k => run_body (run_lines k) cont s
  end.

(** ** The top-level loop *)

(** The macro [clearexprstacks()]. *)
Definition clearexprstacks : M unit :=
  modify (set_operandSP (STACKSZ - 1)) ;;
  modify (set_operatorSP (STACKSZ - 1)) ;;
  push_operator_stack SENTINEL.

(** [appendline]: the new line goes behind [current], which moves to it. *)
Definition appendline (line : string) : M unit :=
  cur <- get current ;;
  match cur with
  | None => undefined "current is NULL"
  | Some i =>
      modify (fun s =>
        set_current (Some (S i))
          (set_program (firstn (S i) s.(program) ++ cstr line :: skipn (S i) s.(program)) s))
  end.

Definition insertfirstline (line : string) : M unit :=
  modify (fun s => set_program (cstr line :: s.(program)) s).

(** What [main] does with one line of input: from [clearexprstacks()] at
    the head of the loop up to the call of [parseline]. [lnbuf] is the line
    that [getln] delivers. *)
Definition main_before_parse (lnbuf : string) : M unit :=
  clearexprstacks ;;
  em <- get editmode ;;
  (if negb (em =? 0) then printchar (code_of ">") else ret tt) ;;
  modify (set_compile false) ;;
  if em =? 0 then
    modify (fun s => set_counter (-1) (set_current None (set_txtPtr (cstr lnbuf) s)))
  else ret tt.

(** The rest of the turn for immediate mode, after [parseline] returned. *)
Definition main_after_parse (status : Z) : M unit :=
  (if (status =? 0) || (status =? 1) then printchar 10
   else if (status =? 2) || (status =? 3) then
     print ((if status =? 2 then " err" else "Brk") ++ nl) ;;
     modify (set_returnSP (RETSTACKSZ - 1)) ;;
     modify (set_skipFlag false)
   else ret tt) ;;
  sp <- get returnSP ;;
  (if negb (sp =? RETSTACKSZ - 1) then
     error ERR_STACK ;; modify (set_returnSP (RETSTACKSZ - 1))
   else ret tt) ;;
  modify (set_skipFlag false).

(** One turn of the loop of [main]. *)
Definition main_turn (n : nat) (lnbuf : string) : M unit :=
  main_before_parse lnbuf ;;
  em <- get editmode ;;
  if em =? 0 then
    status <- parseline n ;;
    main_after_parse status
  else if em =? 1 then
    if Ascii.eqb (peek lnbuf) "." then modify (set_editmode 0)
    else appendline lnbuf
  else if em =? 2 then
    insertfirstline lnbuf ;;
    findline 1 ;;
    modify (set_editmode 1)
  else ret tt.

(** The loop of [main] over the lines typed.  A [longjmp] comes back to the
    [setjmp] in front of the loop: "Restart" is printed and the loop is
    entered again, with the globals as the jump left them.  The final state
    is returned; [None] stands for the outcomes that end or leave the
    embedding ([exit], undefined behaviour, no fuel). *)
Fixpoint main_loop (n : nat) (lines : list string) (s : state) : option state :=
  match lines with
  | [] => Some s
  | lnbuf :: lines' =>
      match main_turn n lnbuf s with
      | Ret _ s' => main_loop n lines' s'
      | LongJmp s' =>
          match print ("Restart" ++ nl) s' with
          | Ret _ s'' => main_loop n lines' s''
          | _ => None
          end
      | _ => None
      end
  end.

(** The globals when [main] reaches its loop.  The console trace starts
    here: the banner and the report of free space are left out of [out]. *)
Definition initial_state : state :=
  mkState false false false false "" "" ""
    (repeat 0 (Z.to_nat STACKSZ)) (repeat 0 (Z.to_nat STACKSZ))
    (repeat (RInt 0) (Z.to_nat RETSTACKSZ))
    0 0 (RETSTACKSZ - 1)
    0 0 0 0 []
    None 0 0 HEAP1TOP 0 [] false 1 [] None [] [] [] [].

End Interpreter.

(** * Vocabulary of the properties

    The states and tables in which the properties below are stated. *)

Local Open Scope monad_scope.
Local Open Scope list_scope.

(** ** Operator precedence *)

(** The precedence table as the specification gives it, highest first. *)
Definition precedence_table : list (Z * Z) :=
  [ (TOK_UNM, 11); (TOK_UNP, 11); (TOK_NOT, 11); (TOK_BITNOT, 11);
    (TOK_STAR, 11); (TOK_CARET, 11);
    (TOK_POW, 10); (TOK_MUL, 10); (TOK_DIV, 10); (TOK_MOD, 10);
    (TOK_ADD, 9); (TOK_SUB, 9);
    (TOK_LSH, 8); (TOK_RSH, 8);
    (TOK_LT, 7); (TOK_LTE, 7); (TOK_GT, 7); (TOK_GTE, 7);
    (TOK_EQL, 6); (TOK_NEQL, 6);
    (TOK_BITAND, 5);
    (TOK_BITXOR, 4);
    (TOK_BITOR, 3);
    (TOK_AND, 2);
    (TOK_OR, 1);
    (SENTINEL, 0) ].

Fixpoint table_lookup (token : Z) (tab : list (Z * Z)) : option Z :=
  match tab with
  | [] => None
  | (tok, prec) :: tab' => if token =? tok then Some prec else table_lookup token tab'
  end.

(** ** Division *)

(** The state in which [pop_operator] leaves a division by zero: operator
    and both operands popped, the message printed. *)
Definition div0_state (s : state) : state :=
  set_out (s.(out) ++ chars "?div/0")
    (set_operandSP (s.(operandSP) + 2) (set_operatorSP (s.(operatorSP) + 1) s)).

(** The opcode that compiled code gets for a division operator. *)
Definition division_opcode (token : Z) : bytecode :=
  if token =? TOK_DIV then VM_DIV else VM_MOD.

(** ** if / else / endif *)

(** What [else] does to the state, by the status word of the open frame. *)
Definition after_else (status : Z) (s : state) : state :=
  if status =? 2 then set_skipFlag true s
  else if status =? 1 then set_skipFlag false s
  else s.

(** What [endif] does to the state, by the status word of the open frame. *)
Definition after_endif (status : Z) (s : state) : state :=
  set_returnSP (s.(returnSP) + 3)
    (if status =? 0 then s else set_skipFlag false s).

(** ** Skipping *)

(** The end of a line that holds no [if], [else], [endif], [while] or
    [endwhile]: what is left of [t] when each statement has been passed over
    up to its semicolon, in at most [n] turns.  [None] when one of the five
    is met. *)
Fixpoint skipped_line (n : nat) (t : string) : option string :=
  match n with
  | O => None
  | S k =>
      let t' := skip_separators t in
      if is_nul (peek t') then Some t'
      else if manipulates_skipFlag (matchstatement t') then None
      else skipped_line k (eat_statement t')
  end.

(** ** run *)

Section Vocabulary.

Context {pf : Platform}.

(** The state in which [run(0)] enters its loop over the lines. *)
Definition fresh_run (s : state) : state :=
  set_current (first_line s)
    (set_returnSP (RETSTACKSZ - 1)
       (set_varslocal None
          (set_vars []
             (set_heap1Ptr HEAP1TOP
                (set_counter 0 (set_skipFlag false (set_calllevel 0 s))))))).

(** ** return *)

(** The variable table once the frame that starts behind [caller] is gone. *)
Definition frame_dropped (caller : list var_t) (s : state) : state :=
  set_varslocal (last_marker caller 0 None)
    (set_calllevel (wrap (s.(calllevel) - 1))
       (set_vars caller
          (set_heap1Ptr
             (match caller with
              | [] => HEAP1TOP
              | _ => s.(heap1Ptr) + (varsend_addr caller - varsend_addr s.(vars))
              end) s))).

(** Where [backtotop] resumes: in immediate mode for line -1, else at the
    line with that (0-based) number. *)
Definition resumed (line : Z) (txt : string) (s : state) : state :=
  set_txtPtr txt
    (set_counter line
       (set_current (if line =? -1 then None else Some (Z.to_nat line)) s)).

(** The state after a successful [doreturn] whose call frame has its tag
    in slot [p] of the return stack. *)
Definition returned (retvalue p line : Z) (txt : string) (caller : list var_t)
    (s : state) : state :=
  resumed line txt (frame_dropped caller (set_retregister retvalue (set_returnSP p s))).

(** ** Declarations *)

(** The state in which [assignorcreate] evaluates the dimension of an array:
    declarations of [word] and [byte] arrays evaluate it in interpret mode,
    from constants only. *)
Definition dimension_state (mode : Z) (rest : string) (s : state) : state :=
  if (mode =? WORD_MODE) || (mode =? BYTE_MODE) then
    set_compile false (set_onlyconstants true (set_txtPtr rest s))
  else set_txtPtr rest s.

(** ** Linker *)

(** The first definition whose name agrees with [name] in its first
    [SUBRNUMCHARS] characters. *)
Definition resolve (defs : list sub_t) (name : string) : option sub_t :=
  find (fun def => same_sub def.(s_name) name) defs.

(** Offset in [code] of the operand that the call at [call] left open. *)
Definition placeholder (call : sub_t) : Z := call.(s_addr) - RTPCSTART.

(** The operand is inside the code. *)
Definition placeholder_in (code : list cell) (call : sub_t) : Prop :=
  0 <= placeholder call /\ placeholder call + 1 < Z.of_nat (List.length code).

(** Write [word], low byte first, at offset [off]. *)
Definition patch (code : list cell) (off word : Z) : list cell :=
  upd (upd code (Z.to_nat off) (Byte (lo8 word))) (Z.to_nat (off + 1)) (Byte (hi8 word)).

(** Linking as a function: the calls are patched in order, up to the first
    one without a definition; the flag tells whether all were resolved. *)
Fixpoint link_code (defs calls : list sub_t) (code : list cell) : list cell * bool :=
  match calls with
  | [] => (code, true)
  | call :: calls' =>
      match resolve defs call.(s_name) with
      | Some def => link_code defs calls' (patch code (placeholder call) def.(s_addr))
      | None => (code, false)
      end
  end.

(** Every call has a definition. *)
Definition all_resolved (defs calls : list sub_t) : bool :=
  forallb (fun call => match resolve defs call.(s_name) with
                       | Some _ => true
                       | None => false
                       end) calls.

(** Two calls whose operands do not overlap. *)
Definition apart (a b : sub_t) : Prop :=
  placeholder a + 1 < placeholder b \/ placeholder b + 1 < placeholder a.

(** What [writebytecode] prints. *)
Definition writing_message (name : string) : list event :=
  PrCh (ascii_of_int 10) :: chars "Writing " ++ chars name
    ++ PrCh ":" :: chars ("..." ++ nl)%string.

(** The state in which the [comp] statement leaves the interpreter when the
    compile flag is still set after the pass over the program. *)
Definition compiled (s : state) : state :=
  let ended := s.(code) ++ [Op VM_END] in
  let linked := link_code s.(subs) s.(calls) ended in
  set_compile false
    (set_files (s.(files) ++ [(s.(filename), fst linked)])
       (set_out
          (s.(out) ++ (if all_resolved s.(subs) s.(calls) then [] else chars "?link")
             ++ writing_message s.(filename))
          (set_readbuf s.(filename)
             (set_code (fst linked)
                (set_rtPC (s.(rtPC) + 1) s))))).

End Vocabulary.

(** ** A host for the examples *)

(** The interpreter as a 32-bit Linux build could run it: the arena at some
    address, target addresses as for a 64K machine, nobody pressing a key,
    zeros behind the return stack. *)
Definition example_host : Platform :=
  {| heap1 := 134520832;
     RTPCSTART := 0;
     RTCALLSTACKTOP := 49151;
     RTCALLSTACKLIM := 38912;
     checkInterrupted := fun _ => false;
     behind_return_stack := fun _ _ => RInt 0 |}.

(** The globals when [main] reaches its loop on that host. *)
Definition boot : state := @initial_state example_host.

(** The state in which [main] calls [parseline] for a line typed in
    immediate mode. *)
Definition typed (line : string) (s : state) : state :=
  match main_before_parse line s with
  | Ret _ s' => s'
  | _ => s
  end.

(** [p] between double quotes. *)
Definition quoted (p : string) : string :=
  String dquote (p ++ String dquote EmptyString)%string.

(** The stacks when the evaluator is about to apply the division of
    [7 / 0]. *)
Definition dividing (c : bool) : state :=
  set_compile c
    (set_operandSP 13
       (set_operand_stack (repeat 0 14 ++ [0; 7])
          (set_operatorSP 13
             (set_operator_stack (repeat 0 14 ++ [TOK_DIV; SENTINEL]) boot)))).

(** An open [if] whose frame holds [status]. *)
Definition if_open (status : Z) (skip : bool) : state :=
  set_skipFlag skip
    (set_returnSP 60
       (set_return_stack
          (repeat (RInt 0) 61 ++ [RInt 0; RInt status; RInt IFFRAME]) boot)).

(** A line read while skipFlag is set. *)
Definition skipping (line : string) : state :=
  set_skipFlag true (typed line (if_open 1 true)).

(** Inside a subroutine called from immediate mode, with [x] declared by
    the caller, the local [y], and an [if] still open in the callee. *)
Definition caller_x : var_t := mkVar 134537199 "x" TYPE_WORD (IntCell 5).
Definition frame_marker : var_t := mkVar 134537183 "----" TYPE_WORD (IntCell 134537199).
Definition local_y : var_t := mkVar 134537167 "y" TYPE_WORD (IntCell 1).

Definition in_callee : state :=
  set_calllevel 2
    (set_heap1Ptr 134537167
       (set_varslocal (Some 1%nat)
          (set_vars [caller_x; frame_marker; local_y]
             (set_returnSP 57
                (set_return_stack
                   (repeat (RInt 0) 58
                      ++ [RInt 0; RInt 2; RInt IFFRAME;
                          RTxt "; pr.dec x"; RInt (-1); RInt CALLFRAME])
                   boot))))).

(** Compile mode after the pass over the program
    [sub foo() / endsub / call <first>() / call foo()]. *)
Definition to_link (first : string) : state :=
  set_filename "out"
    (set_compile true
       (set_subs [mkSub "foo" 0]
          (set_calls [mkSub first 7; mkSub "foo" 11]
             (set_rtPC 14
                (set_code
                   [Op VM_SPTOFP; Op VM_LDIMM; Byte 0; Byte 0; Op VM_FPTOSP; Op VM_RTS;
                    Op VM_JSRIMM; Byte 255; Byte 255; Op VM_DROP;
                    Op VM_JSRIMM; Byte 255; Byte 255; Op VM_DROP]
                   boot))))).

(** That program, in which [foobar] has no definition. *)
Definition dangling_call : list string :=
  [ "sub foo()"; "endsub"; "call foobar()"; "call foo()" ].

(** The line of the specification's example. *)
Definition for_line : string :=
  "for i = 1 : 4 ; pr.dec i ; pr.ch ' ' ; endfor ; pr.nl".

(** The word variable [i] as the first declaration after start-up, and the
    state after that declaration. *)
Definition word_i (v : Z) : var_t := mkVar 134537199 "i" TYPE_WORD (IntCell v).

Definition with_i (v : Z) : state :=
  set_heap1Ptr 134537199 (set_varslocal (Some 0%nat) (set_vars [word_i v] boot)).

(** Twenty-two [if]s on one line: one more frame than the return stack
    holds. *)
Definition nested_ifs : string :=
  "if 0; if 0; if 0; if 0; if 0; if 0; if 0; if 0; if 0; if 0; if 0; if 0; if 0; if 0; if 0; if 0; if 0; if 0; if 0; if 0; if 0; if 0".

(** The state in which a [longjmp] arrives at the loop of [main]. *)
Definition restarted (s : state) : state :=
  set_out (s.(out) ++ chars ("Restart" ++ nl)%string) s.

(** A subroutine in which [return 7] is reached inside a [for] loop with
    the given limit; it is called from immediate mode by
    [call f(); pr.dec 1]. *)
Definition return_in_for (limit : string) : list string :=
  [ "sub f()"; "word i = 0"; ("for i = 1 : " ++ limit)%string; "return 7"; "endfor";
    "endsub" ].

(** ** Sequences of stack operations *)

(** Push the values of a list, first to last. *)
Fixpoint push_returns (vs : list rval) : M unit :=
  match vs with
  | [] => ret tt
  | v :: r => push_return v ;; push_returns r
  end.

(** Pop [n] values; the first one popped is the head of the result. *)
Fixpoint pop_returns (n : nat) : M (list rval) :=
  match n with
  | O => ret []
  | S k => v <- pop_return ;; r <- pop_returns k ;; ret (v :: r)
  end.

(** ** Frames of if and while *)

(** The status word that [doif] and [dowhile] put into their frame. *)
Definition frame_status (skip : bool) (arg : Z) : Z :=
  if skip then 0 else if u8 arg =? 0 then 1 else 2.

(** The state after [doif arg] when interpreting: the tag, the status and a
    dummy in the three slots from the stack pointer down. *)
Definition if_pushed (arg : Z) (s : state) : state :=
  set_returnSP (s.(returnSP) - 3)
    (set_return_stack
       (upd (upd (upd s.(return_stack) (Z.to_nat s.(returnSP)) (RInt IFFRAME))
               (Z.to_nat (s.(returnSP) - 1)) (RInt (frame_status s.(skipFlag) arg)))
          (Z.to_nat (s.(returnSP) - 2)) (RInt 0))
       (set_skipFlag (s.(skipFlag) || (u8 arg =? 0)) s)).

(** The state after [dowhile startTxtPtr arg] when interpreting: the tag,
    the status, the line counter and the text of the statement. *)
Definition while_pushed (startTxtPtr : string) (arg : Z) (s : state) : state :=
  set_returnSP (s.(returnSP) - 4)
    (set_return_stack
       (upd (upd (upd (upd s.(return_stack) (Z.to_nat s.(returnSP)) (RInt WHILEFRAME))
                    (Z.to_nat (s.(returnSP) - 1)) (RInt (frame_status s.(skipFlag) arg)))
               (Z.to_nat (s.(returnSP) - 2)) (RInt s.(counter)))
          (Z.to_nat (s.(returnSP) - 3)) (RTxt startTxtPtr))
       (set_skipFlag (s.(skipFlag) || (u8 arg =? 0)) s)).

(** ** Variables *)

(** What an assignment leaves alone in a table entry: name, type, address,
    and for an array the size and the pointer to its body. *)
Definition kept (v v' : var_t) : Prop :=
  v'.(v_name) = v.(v_name)
  /\ v'.(v_type) = v.(v_type)
  /\ v'.(v_addr) = v.(v_addr)
  /\ second_word v' = second_word v
  /\ (second_word v <> None -> first_word v' = first_word v).

(** The value that a variable of type [type] holds after [value] has been
    assigned to it: a byte keeps the low eight bits. *)
Definition stored (type value : Z) : Z :=
  if base_type type =? TYPE_WORD then value else u8 value.

(** The type byte of a variable: bit 5 for a constant, bit 4 for an array,
    the data type below. *)
Definition type_byte (type isarray : Z) : Z :=
  u8 (Z.lor (Z.lor (Z.shiftl (if type =? TYPE_CONST then 1 else 0) 5) (Z.shiftl isarray 4))
        (if type =? TYPE_CONST then TYPE_WORD else type)).

(** The entry that the interpreter makes for a scalar, and the bytes it
    takes from arena 1: header and one [int], or header and one byte. *)
Definition scalar_bytes (type : Z) : Z :=
  if (type =? TYPE_BYTE) then SZ_VAR + 1 else SZ_VAR + SZ_INT.

Definition scalar_entry (name : string) (type value : Z) (s : state) : var_t :=
  mkVar (s.(heap1Ptr) - scalar_bytes type) (strn VARNUMCHARS name) (type_byte type 0)
    (if type =? TYPE_BYTE then ByteCell (u8 value) else IntCell value).

(** The state after the declaration of a scalar. *)
Definition declared (name : string) (type value : Z) (s : state) : state :=
  set_varslocal (match s.(vars) with [] => Some O | _ => s.(varslocal) end)
    (set_vars (s.(vars) ++ [scalar_entry name type value s])
       (set_heap1Ptr (s.(heap1Ptr) - scalar_bytes type) s)).

(** ** Compiled code *)

(** The code pointer and the program counter of the target are in step. *)
Definition in_step `{Platform} (s : state) : Prop :=
  s.(rtPC) = RTPCSTART + Z.of_nat (List.length s.(code)).

(** An instruction with a 16-bit operand, low byte first. *)
Definition jump (c : bytecode) (target : Z) : list cell :=
  [Op c; Byte (lo8 target); Byte (hi8 target)].

(** From [s] to [s'] the compiler has appended [block] and has left the
    return stack alone. *)
Definition compiles (block : list cell) (s s' : state) : Prop :=
  s'.(code) = s.(code) ++ block
  /\ s'.(rtPC) = s.(rtPC) + Z.of_nat (List.length block)
  /\ s'.(return_stack) = s.(return_stack)
  /\ s'.(returnSP) = s.(returnSP)
  /\ s'.(compile) = s.(compile).

(** The state in which [doif] leaves the compiler. *)
Definition if_compiled (s : state) : state :=
  set_returnSP (s.(returnSP) - 3)
    (set_return_stack
       (upd (upd (upd s.(return_stack) (Z.to_nat s.(returnSP)) (RInt IFFRAME))
               (Z.to_nat (s.(returnSP) - 1)) (RInt (s.(rtPC) + 2)))
          (Z.to_nat (s.(returnSP) - 2)) (RInt 0))
       (set_rtPC (s.(rtPC) + 4)
          (set_code (s.(code) ++ Op VM_NOT :: jump VM_BRNCHIMM 65535) s))).

(** ** for loops *)

(** The tag of the frame of a [for] loop over a word or a byte variable,
    reading the variable through the pointer in the frame, and the value
    that [endfor] writes back. *)
Definition for_tag (word : bool) : Z := if word then FORFRAME_W else FORFRAME_B.

Definition load_var (word : bool) (vs : list var_t) (a : Z) : option Z :=
  if word then load_word vs a else load_byte vs a.

Definition incremented (word : bool) (val : Z) : Z :=
  if word then wrap (val + 1) else u8 (val + 1).

(** ** Numbers *)

(** The number that a string of digits denotes, to base [base], with the
    value of each digit given by [digit]. *)
Definition numeral (base : Z) (digit : ascii -> Z) (ds : string) : Z :=
  fold_left (fun acc c => base * acc + digit c) (list_ascii_of_string ds) 0.

Definition decimal_digit (c : ascii) : Z := code_of c - 48.

(** ** States for the examples *)

(** The stacks when the evaluator is about to apply the power of
    [2 ^ 10]. *)
Definition raising (c : bool) : state :=
  set_compile c
    (set_operandSP 13
       (set_operand_stack (repeat 0 14 ++ [10; 2])
          (set_operatorSP 13
             (set_operator_stack (repeat 0 14 ++ [TOK_POW; SENTINEL]) boot)))).

(** Immediate mode with the expression stacks cleared. *)
Definition ready : state := typed EmptyString boot.

(** The compiler at the start of a program. *)
Definition compiling : state := set_compile true boot.

(** Back at the top level after a call, with the global [i]. *)
Definition after_call : state := set_varslocal None (with_i 5).

(** At the [endfor] of [for i = 1 : 4] typed in immediate mode. *)
Definition in_for_loop (v : Z) : state :=
  set_returnSP 58
    (set_return_stack
       (repeat (RInt 0) 59
          ++ [RInt 134537211; RInt 4; RTxt "; pr.dec i; endfor"; RInt (-1);
              RInt FORFRAME_W])
       (with_i v)).

(** Arena 1 with fourteen bytes left. *)
Definition arena_full : state := set_heap1Ptr 134520846 boot.

(** The compiler behind [if 1; pr.ch 65], with the code of the condition
    left out. *)
Definition then_block : state :=
  set_rtPC 5
    (set_code [Op VM_NOT; Op VM_BRNCHIMM; Byte 255; Byte 255; Op VM_PRCH]
       (if_compiled compiling)).

(** The editor about to insert at the head of an empty program. *)
Definition editing : state := set_editmode 2 boot.

(** A call of [bar] where the program defines [foo] only. *)
Definition calling_bar : state :=
  set_readbuf "bar" (set_program ["sub foo()"; "endsub"] ready).
(** * Properties *)

(** ** Proof tools *)

(** Reading a field of an updated state. *)
Ltac simpl_state :=
  cbn [
    compile compilingsub onlyconstants compiletimelookup readbuf filename
    txtPtr operand_stack operator_stack return_stack operatorSP operandSP
    returnSP rtPC rtSP rtFP rtPCBeforeEval code current counter retregister
    heap1Ptr editmode program skipFlag calllevel vars varslocal subs calls
    out files set_compile set_compilingsub set_onlyconstants
    set_compiletimelookup set_readbuf set_filename set_txtPtr
    set_operand_stack set_operator_stack set_return_stack set_operatorSP
    set_operandSP set_returnSP set_rtPC set_rtSP set_rtFP set_rtPCBeforeEval
    set_code set_current set_counter set_retregister set_heap1Ptr
    set_editmode set_program set_skipFlag set_calllevel set_vars
    set_varslocal set_subs set_calls set_out set_files ] in *.

Lemma bind_Ret {A B} (m : M A) (k : A -> M B) s a s' :
  m s = Ret a s' -> bind m k s = k a s'.
Proof. intros H. unfold bind. rewrite H. reflexivity. Qed.

Lemma bind_get {A B} (f : state -> A) (k : A -> M B) s :
  bind (get f) k s = k (f s) s.
Proof. reflexivity. Qed.

Lemma bind_modify {B} (f : state -> state) (k : unit -> M B) s :
  bind (modify f) k s = k tt (f s).
Proof. reflexivity. Qed.

Lemma bind_ret {A B} (a : A) (k : A -> M B) s : bind (ret a) k s = k a s.
Proof. reflexivity. Qed.

Lemma bind_bind {A B C} (m : M A) (k : A -> M B) (h : B -> M C) s :
  bind (bind m k) h s = bind m (fun a => bind (k a) h) s.
Proof. unfold bind. destruct (m s); reflexivity. Qed.

(** Run the steps of a monadic computation that only read or write
    globals. *)
Ltac mstep :=
  repeat (rewrite ?bind_bind, ?bind_get, ?bind_modify, ?bind_ret; cbv beta match).

Ltac zlia := unfold STACKSZ, RETSTACKSZ in *; lia.

Lemma u8_small z : 0 <= z < 256 -> u8 z = z.
Proof. intros. unfold u8. apply Z.mod_small. lia. Qed.

Lemma aget_Some_lt {A} (l : list A) i x :
  aget l i = Some x -> 0 <= i < Z.of_nat (List.length l).
Proof.
  unfold aget. destruct (Z.ltb_spec i 0); [ discriminate | ].
  intros Hx. assert (Hn : nth_error l (Z.to_nat i) <> None) by congruence.
  apply nth_error_Some in Hn. lia.
Qed.

Lemma aget_lt_Some {A} (l : list A) i :
  0 <= i < Z.of_nat (List.length l) -> exists x, aget l i = Some x.
Proof.
  intros Hi. unfold aget. destruct (Z.ltb_spec i 0); [ lia | ].
  destruct (nth_error l (Z.to_nat i)) eqn:E; [ eauto | ].
  apply nth_error_None in E. lia.
Qed.

Lemma aget_nth {A} (l : list A) (i : Z) :
  0 <= i -> aget l i = nth_error l (Z.to_nat i).
Proof. intros H. unfold aget. destruct (Z.ltb_spec i 0); [ lia | reflexivity ]. Qed.

Lemma error_Ret (errcode : Z) (msg : string) s :
  aget errmsgs (errcode - ERR_FIRST) = Some msg ->
  error errcode s = Ret tt (set_out (s.(out) ++ PrCh "?" :: chars msg) s).
Proof.
  intros H. unfold error. rewrite H. unfold printchar, print. mstep.
  unfold modify. simpl_state. rewrite <- app_assoc. reflexivity.
Qed.

Lemma pop_operator_stack_Ret s tok :
  0 <= s.(operatorSP) < STACKSZ - 1 ->
  aget s.(operator_stack) (s.(operatorSP) + 1) = Some tok ->
  pop_operator_stack s = Ret tok (set_operatorSP (s.(operatorSP) + 1) s).
Proof.
  intros Hsp Htop. unfold pop_operator_stack. mstep.
  destruct (Z.eqb_spec (operatorSP s) (STACKSZ - 1)); [ lia | ].
  mstep. rewrite u8_small by zlia. simpl_state. rewrite Htop. reflexivity.
Qed.

Lemma pop_operand_stack_Ret s v :
  s.(compile) = false ->
  0 <= s.(operandSP) < STACKSZ - 1 ->
  aget s.(operand_stack) (s.(operandSP) + 1) = Some v ->
  pop_operand_stack s = Ret v (set_operandSP (s.(operandSP) + 1) s).
Proof.
  intros Hc Hsp Htop. unfold pop_operand_stack. mstep. rewrite Hc.
  mstep.
  destruct (Z.eqb_spec (operandSP s) (STACKSZ - 1)); [ lia | ].
  mstep. rewrite u8_small by zlia. simpl_state. rewrite Htop. reflexivity.
Qed.

Lemma pop_operand_stack_compile s :
  s.(compile) = true -> pop_operand_stack s = Ret 0 s.
Proof. intros Hc. unfold pop_operand_stack. mstep. rewrite Hc. reflexivity. Qed.

Lemma pop_return_Ret s v :
  0 <= s.(returnSP) < RETSTACKSZ - 1 ->
  aget s.(return_stack) (s.(returnSP) + 1) = Some v ->
  pop_return s = Ret v (set_returnSP (s.(returnSP) + 1) s).
Proof.
  intros Hsp Htop. unfold pop_return. mstep.
  destruct (Z.eqb_spec (returnSP s) (RETSTACKSZ - 1)); [ lia | ].
  mstep. rewrite u8_small by zlia. simpl_state. rewrite Htop. reflexivity.
Qed.

Section ReturnStackReads.

Context {pf : Platform}.

Lemma rs_Ret (k : Z) s v :
  aget s.(return_stack) (s.(returnSP) + k) = Some v ->
  s.(returnSP) + k < RETSTACKSZ ->
  rs k s = Ret v s.
Proof.
  intros H Hlt. unfold rs, rs_at. mstep.
  destruct (Z.leb_spec RETSTACKSZ (returnSP s + k)); [ lia | ].
  rewrite H. reflexivity.
Qed.

End ReturnStackReads.

(** ** Operator precedence *)

Lemma getprecedence_in_table (token : Z) :
  getprecedence token = table_lookup token precedence_table.
Proof.
  unfold getprecedence, precedence_table, table_lookup.
  repeat match goal with
         | |- context [?a =? ?b] =>
             destruct (Z.eqb_spec a b) as [-> | ?]; [vm_compute; reflexivity | ]
         end.
  reflexivity.
Qed.

(** C7: [getprecedence] is exactly the table of the specification: 11 for
    the unary operators, 10 for pow, mul, div and mod, 9 for add and sub,
    8 for the shifts, 7 for the four orderings, 6 for (in)equality, 5, 4, 3
    for bitwise and, xor, or, 2 for logical and, 1 for logical or; the
    sentinel has 0, and 0 is below the precedence of every operator. *)
Theorem getprecedence_table :
  (forall token, getprecedence token = table_lookup token precedence_table)
  /\ getprecedence SENTINEL = Some 0
  /\ (forall token prec,
        getprecedence token = Some prec -> token <> SENTINEL -> 0 < prec <= 11).
Proof.
  split; [exact getprecedence_in_table | split; [reflexivity | ]].
  intros token prec H Hs. unfold getprecedence in H.
  repeat match type of H with
         | context [?a =? ?b] =>
             destruct (Z.eqb_spec a b) as [-> | ?];
             [vm_compute in H; inversion H; subst; try lia; congruence | ]
         end.
  discriminate.
Qed.

(** ** Division by zero *)

Lemma set_operandSP_twice a b s :
  set_operandSP a (set_operandSP b s) = set_operandSP a s.
Proof. reflexivity. Qed.

(** C8: when [pop_operator] applies / or % in interpret mode and the right
    operand (the top of the operand stack) is 0, it prints the div/0 message
    and returns the error flag; the operator and both operands are popped and
    no slot of the operand stack is written.  In compile mode nothing is
    looked at: the opcode VM_DIV or VM_MOD is emitted and the call
    succeeds. *)
Theorem pop_operator_division (s : state) (token : Z) :
  token = TOK_DIV \/ token = TOK_MOD ->
  0 <= s.(operatorSP) < STACKSZ - 1 ->
  aget s.(operator_stack) (s.(operatorSP) + 1) = Some token ->
  (s.(compile) = false ->
   forall operand2,
     0 <= s.(operandSP) < STACKSZ - 2 ->
     aget s.(operand_stack) (s.(operandSP) + 1) = Some 0 ->
     aget s.(operand_stack) (s.(operandSP) + 2) = Some operand2 ->
     pop_operator s = Ret RET_ERROR (div0_state s)
     /\ operand_stack (div0_state s) = s.(operand_stack))
  /\ (s.(compile) = true ->
      pop_operator s =
        Ret RET_SUCCESS
          (set_rtPC (s.(rtPC) + 1)
             (set_code (s.(code) ++ [Op (division_opcode token)])
                (set_operatorSP (s.(operatorSP) + 1) s)))).
Proof.
  intros Htok Hsp Htop.
  assert (HU : ISUNARY token = false) by (destruct Htok; subst; reflexivity).
  split.
  - intros Hc operand2 Hosp H1 H2. split; [ | reflexivity ].
    unfold pop_operator.
    rewrite (bind_Ret _ _ _ _ _ (pop_operator_stack_Ret s token Hsp Htop)).
    rewrite (bind_Ret pop_operand_stack _ _ 0
               (set_operandSP (s.(operandSP) + 1) (set_operatorSP (s.(operatorSP) + 1) s))).
    2:{ rewrite pop_operand_stack_Ret with (v := 0); simpl_state; auto. zlia. }
    mstep. simpl_state. rewrite Hc, HU. cbv beta iota delta [negb].
    erewrite bind_Ret.
    2:{ apply pop_operand_stack_Ret with (v := operand2); simpl_state; auto.
        - zlia.
        - rewrite <- H2. f_equal. lia. }
    destruct Htok; subst token; cbv beta iota;
      cbn [Z.eqb TOK_DIV TOK_MOD TOK_POW TOK_MUL Pos.eqb];
      mstep; erewrite bind_Ret by (apply error_Ret; reflexivity);
      unfold div0_state, ret; simpl_state; rewrite set_operandSP_twice;
      replace (operandSP s + 1 + 1) with (operandSP s + 2) by lia; reflexivity.
  - intros Hc.
    unfold pop_operator.
    rewrite (bind_Ret _ _ _ _ _ (pop_operator_stack_Ret s token Hsp Htop)).
    rewrite (bind_Ret pop_operand_stack _ _ 0 (set_operatorSP (s.(operatorSP) + 1) s)).
    2:{ apply pop_operand_stack_compile. exact Hc. }
    mstep. simpl_state. rewrite Hc, HU. cbv beta iota delta [negb].
    rewrite (bind_Ret pop_operand_stack _ _ 0 (set_operatorSP (s.(operatorSP) + 1) s)).
    2:{ apply pop_operand_stack_compile. exact Hc. }
    destruct Htok; subst token; reflexivity.
Qed.

(** ** else and endif *)

Section IfElse.

Context {pf : Platform}.

(** C5: in interpret mode, with an IFFRAME on top of the return stack whose
    status word is 0, 1 or 2, [doelse] sets skipFlag for status 2, clears it
    for status 1 and changes nothing for status 0; [doendif] clears skipFlag
    unless the status is 0 and pops the three slots of the frame.  Both
    succeed. *)
Theorem else_endif_skipFlag (s : state) (status : Z) :
  s.(compile) = false ->
  List.length s.(return_stack) = Z.to_nat RETSTACKSZ ->
  0 <= s.(returnSP) ->
  aget s.(return_stack) (s.(returnSP) + 3) = Some (RInt IFFRAME) ->
  aget s.(return_stack) (s.(returnSP) + 2) = Some (RInt status) ->
  status = 0 \/ status = 1 \/ status = 2 ->
  doelse s = Ret RET_SUCCESS (after_else status s)
  /\ doendif s = Ret RET_SUCCESS (after_endif status s).
Proof.
  intros Hc Hlen Hsp Htag Hst Hrange.
  assert (Hin := aget_Some_lt _ _ _ Htag). rewrite Hlen in Hin.
  assert (Hlt : returnSP s + 3 < RETSTACKSZ) by zlia.
  split.
  - unfold doelse.
    rewrite (bind_Ret _ _ _ _ _ (rs_Ret 3 s _ Htag Hlt)).
    cbn [rv_is]. rewrite Z.eqb_refl. cbv beta match delta [negb].
    mstep. rewrite Hc. mstep.
    rewrite (bind_Ret (rs 2) _ _ _ _ (rs_Ret 2 s _ Hst ltac:(lia))).
    cbn [rv_is]. unfold after_else, ret.
    destruct Hrange as [-> | [-> | ->]]; reflexivity.
  - unfold doendif.
    rewrite (bind_Ret _ _ _ _ _ (rs_Ret 3 s _ Htag Hlt)).
    cbn [rv_is]. rewrite Z.eqb_refl. cbv beta match delta [negb].
    mstep. rewrite Hc. mstep.
    rewrite (bind_Ret (rs 2) _ _ _ _ (rs_Ret 2 s _ Hst ltac:(lia))).
    cbn [rv_nonzero].
    destruct (aget_lt_Some s.(return_stack) (s.(returnSP) + 1)) as [v1 H1];
      [ rewrite Hlen; zlia | ].
    assert (popped : forall s0, returnSP s0 = returnSP s ->
                return_stack s0 = return_stack s ->
                (pop_return ;; pop_return ;; pop_return ;; ret RET_SUCCESS) s0
                = Ret RET_SUCCESS (set_returnSP (returnSP s + 3) s0)).
    { intros s0 E1 E2.
      erewrite bind_Ret by (apply pop_return_Ret; rewrite ?E1, ?E2; [ zlia | exact H1 ]).
      erewrite bind_Ret
        by (apply pop_return_Ret; simpl_state; rewrite ?E1, ?E2;
            [ zlia | replace (returnSP s + 1 + 1) with (returnSP s + 2) by lia; exact Hst ]).
      erewrite bind_Ret
        by (apply pop_return_Ret; simpl_state; rewrite ?E1, ?E2;
            [ zlia | replace (returnSP s + 1 + 1 + 1) with (returnSP s + 3) by lia; exact Htag ]).
      unfold ret. simpl_state. rewrite E1.
      replace (returnSP s + 1 + 1 + 1) with (returnSP s + 3) by lia. reflexivity. }
    unfold after_endif.
    destruct Hrange as [-> | [-> | ->]]; cbv beta match delta [negb Z.eqb Pos.eqb];
      mstep; rewrite popped by reflexivity; reflexivity.
Qed.

End IfElse.

(** ** Skipping *)

(** The text eaten by [eat_statement] holds no semicolon, and what is left
    starts with a semicolon or is the end of the line. *)
Lemma eat_statement_spec (t : string) :
  exists eaten,
    t = (eaten ++ eat_statement t)%string
    /\ Forall (fun c => c <> ";"%char /\ is_nul c = false) (list_ascii_of_string eaten)
    /\ (peek (eat_statement t) = ";"%char \/ is_nul (peek (eat_statement t)) = true).
Proof.
  induction t as [ | c r IH ]; cbn [eat_statement].
  - exists ""%string. repeat split; [ constructor | right; reflexivity ].
  - destruct (is_nul c) eqn:En; cbn [orb].
    + exists ""%string. repeat split; [ constructor | right; exact En ].
    + destruct (Ascii.eqb_spec c ";") as [-> | Hne].
      * exists ""%string. repeat split; [ constructor | left; reflexivity ].
      * destruct IH as (eaten & E & Hall & Hend).
        exists (String c eaten). cbn [append list_ascii_of_string].
        repeat split; [ congruence | constructor; auto | exact Hend ].
Qed.

Section Skipping.

Context {pf : Platform}.

Lemma set_txtPtr_same (s : state) : set_txtPtr s.(txtPtr) s = s.
Proof. destruct s; reflexivity. Qed.

Lemma parseline_skip_step (n : nat) (s : state) :
  s.(skipFlag) = true ->
  checkInterrupted s = false ->
  is_nul (peek (skip_separators s.(txtPtr))) = false ->
  manipulates_skipFlag (matchstatement (skip_separators s.(txtPtr))) = false ->
  parseline (S n) s
  = parseline n (set_txtPtr (eat_statement (skip_separators s.(txtPtr))) s).
Proof.
  intros Hskip Hint Hnul Htok.
  cbn [parseline]. unfold parseline_body.
  mstep. rewrite Hint. mstep. simpl_state. rewrite Hnul. mstep.
  simpl_state. rewrite Hskip, Htok. cbn [andb negb]. mstep. reflexivity.
Qed.

Lemma parseline_end_of_line (n : nat) (s : state) :
  checkInterrupted s = false ->
  is_nul (peek (skip_separators s.(txtPtr))) = true ->
  parseline (S n) s = Ret 0 (set_txtPtr (skip_separators s.(txtPtr)) s).
Proof.
  intros Hint Hnul. cbn [parseline]. unfold parseline_body.
  mstep. rewrite Hint. mstep. simpl_state. rewrite Hnul. reflexivity.
Qed.

(** A whole line of such statements: [parseline] comes to the end of the
    line and returns 0, and nothing but the text cursor has changed. *)
Lemma parseline_skips_line (n : nat) :
  forall (s : state) (rest : string),
    s.(skipFlag) = true ->
    (forall t, checkInterrupted (set_txtPtr t s) = false) ->
    skipped_line n s.(txtPtr) = Some rest ->
    parseline n s = Ret 0 (set_txtPtr rest s).
Proof.
  induction n as [ | k IH ]; intros s rest Hskip Hint Hline; [ discriminate | ].
  assert (Hint0 : checkInterrupted s = false).
  { rewrite <- (set_txtPtr_same s). apply Hint. }
  cbn [skipped_line] in Hline.
  destruct (is_nul (peek (skip_separators (txtPtr s)))) eqn:Hnul.
  - injection Hline as <-. apply parseline_end_of_line; assumption.
  - destruct (manipulates_skipFlag (matchstatement (skip_separators (txtPtr s)))) eqn:Htok;
      [ discriminate | ].
    rewrite parseline_skip_step by assumption.
    rewrite (IH (set_txtPtr (eat_statement (skip_separators (txtPtr s))) s) rest).
    + reflexivity.
    + exact Hskip.
    + intros t. apply (Hint t).
    + exact Hline.
Qed.

(** C6: while skipFlag is set, a statement whose keyword is not one of if,
    else, endif, while, endwhile runs no handler: the dispatcher moves the
    text cursor over it, up to the next semicolon or the end of the line, and
    goes on with the rest of the line in a state that differs from the one
    before in the text cursor only.  A line that holds none of the five
    keywords is passed over to its end: [parseline] returns 0 and only the
    text cursor has changed. *)
Theorem parseline_skips_statement (n : nat) (s : state) :
  s.(skipFlag) = true ->
  (checkInterrupted s = false ->
   is_nul (peek (skip_separators s.(txtPtr))) = false ->
   manipulates_skipFlag (matchstatement (skip_separators s.(txtPtr))) = false ->
   parseline (S n) s
   = parseline n (set_txtPtr (eat_statement (skip_separators s.(txtPtr))) s)
   /\ exists eaten,
        skip_separators s.(txtPtr)
        = (eaten ++ eat_statement (skip_separators s.(txtPtr)))%string
        /\ Forall (fun c => c <> ";"%char /\ is_nul c = false) (list_ascii_of_string eaten)
        /\ (peek (eat_statement (skip_separators s.(txtPtr))) = ";"%char
            \/ is_nul (peek (eat_statement (skip_separators s.(txtPtr)))) = true))
  /\ ((forall t, checkInterrupted (set_txtPtr t s) = false) ->
      forall rest,
        skipped_line n s.(txtPtr) = Some rest ->
        parseline n s = Ret 0 (set_txtPtr rest s)).
Proof.
  intros Hskip. split.
  - intros Hint Hnul Htok.
    split; [ apply parseline_skip_step; assumption | apply eat_statement_spec ].
  - intros Hint rest Hline. apply parseline_skips_line; assumption.
Qed.

(** ** run *)

(** C10: [run(0)] goes into its loop over the program lines with the
    variable table empty, the return stack empty and the program as it was;
    in that state no name is found, whether the search is local or not. *)
Theorem run_starts_fresh (n : nat) (s : state) :
  run (S n) false s = (status <- run_lines n ;; run_report status) (fresh_run s)
  /\ (fresh_run s).(vars) = []
  /\ (fresh_run s).(returnSP) = RETSTACKSZ - 1
  /\ (forall name local, findintvar name local (fresh_run s) = (None, local))
  /\ (fresh_run s).(program) = s.(program).
Proof.
  split; [ | repeat split ].
  - cbn [run]. unfold run_body, run_reset, clearvars, CLEARHEAP1. cbn [negb].
    mstep. reflexivity.
  - intros name local. unfold findintvar, fresh_run. simpl_state.
    destruct local; reflexivity.
Qed.

End Skipping.

(** ** return *)

(** *** The search for the call frame *)

Lemma find_callframe_found (st : list rval) (from p : Z) :
  forall i,
    i <= p -> from <= p <= RETSTACKSZ - 1 ->
    (exists v, nth_error st (Z.to_nat (p - i)) = Some v /\ rv_is v CALLFRAME = true) ->
    (forall q v, from <= q < p -> i <= q ->
                 nth_error st (Z.to_nat (q - i)) = Some v -> rv_is v CALLFRAME = false) ->
    find_callframe st i from = Some p.
Proof.
  induction st as [ | v0 r IH ]; intros i Hi Hp (v & Hv & Htag) Hbelow.
  - destruct (Z.to_nat (p - i)); discriminate.
  - cbn [find_callframe].
    destruct (Z.eq_dec i p) as [-> | Hne].
    + rewrite Z.sub_diag in Hv. cbn in Hv. injection Hv as ->. rewrite Htag.
      destruct (Z.leb_spec from p); [ | lia ].
      destruct (Z.leb_spec p (RETSTACKSZ - 1)); [ reflexivity | lia ].
    + assert (Hfalse : (from <=? i) && (i <=? RETSTACKSZ - 1) && rv_is v0 CALLFRAME = false).
      { destruct (Z.leb_spec from i); [ | reflexivity ].
        rewrite (Hbelow i v0); [ apply andb_false_r | lia | lia | ].
        rewrite Z.sub_diag. reflexivity. }
      rewrite Hfalse. apply IH; [ lia | exact Hp | | ].
      * exists v. split; [ | exact Htag ].
        replace (Z.to_nat (p - i)) with (S (Z.to_nat (p - (i + 1)))) in Hv by lia.
        exact Hv.
      * intros q v' Hq1 Hq2 Hnth. apply (Hbelow q v'); [ lia | lia | ].
        replace (Z.to_nat (q - i)) with (S (Z.to_nat (q - (i + 1)))) by lia.
        exact Hnth.
Qed.

Lemma find_callframe_none (st : list rval) (from : Z) :
  forall i,
    (forall q v, from <= q <= RETSTACKSZ - 1 -> i <= q ->
                 nth_error st (Z.to_nat (q - i)) = Some v -> rv_is v CALLFRAME = false) ->
    find_callframe st i from = None.
Proof.
  induction st as [ | v0 r IH ]; intros i Hall; [ reflexivity | ].
  cbn [find_callframe].
  assert (Hfalse : (from <=? i) && (i <=? RETSTACKSZ - 1) && rv_is v0 CALLFRAME = false).
  { destruct (Z.leb_spec from i); [ | reflexivity ].
    destruct (Z.leb_spec i (RETSTACKSZ - 1)); [ | reflexivity ].
    rewrite (Hall i v0); [ reflexivity | lia | lia | ].
    rewrite Z.sub_diag. reflexivity. }
  rewrite Hfalse. apply IH. intros q v Hq1 Hq2 Hnth.
  apply (Hall q v); [ lia | lia | ].
  replace (Z.to_nat (q - i)) with (S (Z.to_nat (q - (i + 1)))) by lia.
  exact Hnth.
Qed.

(** *** Tearing down the variable frame *)

Lemma varsend_addr_snoc (vs : list var_t) (v : var_t) :
  varsend_addr (vs ++ [v]) = v.(v_addr).
Proof.
  unfold varsend_addr. rewrite map_app. cbn [map]. rewrite last_last. reflexivity.
Qed.

Lemma index_of_addr_app (a : Z) (front back : list var_t) (v : var_t) :
  forall i,
    v.(v_addr) = a ->
    ~ In a (map v_addr front) ->
    index_of_addr a (front ++ v :: back) i = Some (i + List.length front)%nat.
Proof.
  induction front as [ | f front IH ]; intros i Hv Hnot; cbn [app index_of_addr List.length].
  - rewrite Hv, Z.eqb_refl. f_equal. lia.
  - destruct (Z.eqb_spec (v_addr f) a) as [E | _].
    + exfalso. apply Hnot. left. exact E.
    + rewrite IH; [ f_equal; lia | exact Hv | ].
      intros Hin. apply Hnot. right. exact Hin.
Qed.

Lemma findline_from_found (rest : list string) (linenum : Z) :
  forall idx cnt,
    cnt <= linenum < cnt + Z.of_nat (List.length rest) ->
    findline_from rest idx cnt linenum = (Some (idx + Z.to_nat (linenum - cnt))%nat, linenum).
Proof.
  induction rest as [ | l rest IH ]; intros idx cnt H; cbn [List.length] in H; [ lia | ].
  cbn [findline_from].
  destruct (Z.eqb_spec cnt linenum) as [-> | Hne].
  - rewrite Z.sub_diag. cbn [Z.to_nat]. rewrite Nat.add_0_r. reflexivity.
  - rewrite IH by lia. f_equal. f_equal. lia.
Qed.

Section Return.

Context {pf : Platform}.

Lemma vars_deletecallframe_Ret (s : state) (caller locals : list var_t) (marker : var_t) :
  s.(vars) = caller ++ marker :: locals ->
  s.(varslocal) = Some (List.length caller) ->
  marker.(v_data) = IntCell (varsend_addr caller) ->
  NoDup (map v_addr s.(vars)) ->
  Forall (fun v => v.(v_addr) <> 0) caller ->
  vars_deletecallframe s = Ret tt (frame_dropped caller s).
Proof.
  intros Hvars Hlocal Hdata Hnodup Hnz.
  unfold vars_deletecallframe. mstep. rewrite Hlocal, Hvars.
  rewrite nth_error_app2 by lia. rewrite Nat.sub_diag. cbn [nth_error].
  unfold first_word. rewrite Hdata.
  destruct caller as [ | c0 caller' ] using rev_ind.
  - cbn [varsend_addr map last Z.eqb]. unfold CLEARHEAP1. mstep.
    unfold ret, frame_dropped. simpl_state. reflexivity.
  - clear IHcaller'. rewrite varsend_addr_snoc.
    assert (Hc0 : v_addr c0 <> 0).
    { apply Forall_app in Hnz. destruct Hnz as [_ Hnz]. inversion Hnz. assumption. }
    destruct (Z.eqb_spec (v_addr c0) 0); [ contradiction | ].
    unfold free1. mstep.
    rewrite <- app_assoc. cbn [app].
    rewrite (index_of_addr_app (v_addr c0) caller' (marker :: locals) c0 0%nat);
      [ | reflexivity | ].
    2:{ rewrite Hvars, <- app_assoc, map_app in Hnodup. cbn [app map] in Hnodup.
        apply NoDup_remove_2 in Hnodup. intros Hin. apply Hnodup.
        apply in_or_app. left. exact Hin. }
    mstep. unfold ret, frame_dropped. simpl_state.
    rewrite Hvars, varsend_addr_snoc.
    replace (firstn (S (0 + List.length caller')) (caller' ++ c0 :: marker :: locals))
      with (caller' ++ [c0]).
    2:{ replace (caller' ++ c0 :: marker :: locals) with ((caller' ++ [c0]) ++ marker :: locals)
          by (rewrite <- app_assoc; reflexivity).
        replace (S (0 + List.length caller')) with (List.length (caller' ++ [c0]) + 0)%nat
          by (rewrite length_app; cbn; lia).
        rewrite firstn_app_2. cbn [firstn]. rewrite app_nil_r. reflexivity. }
    destruct (caller' ++ [c0]) eqn:E; [ destruct caller'; discriminate | ].
    rewrite <- E. rewrite <- app_assoc. reflexivity.
Qed.

Lemma backtotop_Ret (s : state) (line : Z) (txt : string) :
  line = -1 \/ 0 <= line < Z.of_nat (List.length s.(program)) ->
  backtotop line (RTxt txt) s = Ret tt (resumed line txt s).
Proof.
  intros Hline. unfold backtotop, resumed. cbn [rv_txt].
  destruct (Z.eqb_spec line (-1)) as [-> | Hne].
  - mstep. reflexivity.
  - destruct Hline as [ | Hline ]; [ contradiction | ].
    unfold findline. mstep.
    rewrite findline_from_found by lia. mstep. simpl_state. mstep.
    replace (line + 1 - 1) with line by lia. reflexivity.
Qed.

(** An interpreted [return] with value [retvalue], where the tag is met
    first in the slot of the call frame.  If slot [p] is the first one above
    the stack pointer that holds the value of the CALLFRAME tag, with the
    caller's line and text pointer in the two slots below it, and the
    variable table is the caller's entries, the frame marker and the
    callee's locals, then [doreturn] succeeds and leaves the stack pointer at
    [p], the value in the return register, the variable table cut back to
    the caller's entries, and line and text pointer as saved.  If no slot
    above the stack pointer holds the value, [doreturn] prints the stack
    message and returns the error flag. *)
Theorem doreturn_unwinds (s : state) (retvalue : Z) :
  s.(compile) = false ->
  List.length s.(return_stack) = Z.to_nat RETSTACKSZ ->
  0 <= s.(returnSP) ->
  (forall p line txt caller marker locals,
      s.(returnSP) < p <= RETSTACKSZ - 1 ->
      aget s.(return_stack) p = Some (RInt CALLFRAME) ->
      (forall q v, s.(returnSP) < q < p ->
                   aget s.(return_stack) q = Some v -> rv_is v CALLFRAME = false) ->
      aget s.(return_stack) (p - 1) = Some (RInt line) ->
      aget s.(return_stack) (p - 2) = Some (RTxt txt) ->
      line = -1 \/ 0 <= line < Z.of_nat (List.length s.(program)) ->
      s.(vars) = caller ++ marker :: locals ->
      s.(varslocal) = Some (List.length caller) ->
      marker.(v_data) = IntCell (varsend_addr caller) ->
      NoDup (map v_addr s.(vars)) ->
      Forall (fun v => v.(v_addr) <> 0) caller ->
      doreturn retvalue s = Ret RET_SUCCESS (returned retvalue p line txt caller s))
  /\ ((forall q v, s.(returnSP) < q <= RETSTACKSZ - 1 ->
                   aget s.(return_stack) q = Some v -> rv_is v CALLFRAME = false) ->
      doreturn retvalue s = Ret RET_ERROR (set_out (s.(out) ++ chars "?stack") s)).
Proof.
  intros Hc Hlen Hsp. split.
  - intros p line txt caller marker locals Hp Htag Hbelow Hline Htxt Hrange
           Hvars Hlocal Hdata Hnodup Hnz.
    unfold doreturn. mstep. rewrite Hc. mstep.
    rewrite (find_callframe_found _ (returnSP s + 1) p 0).
    + mstep.
      erewrite bind_Ret.
      2:{ apply (vars_deletecallframe_Ret _ caller locals marker); simpl_state; assumption. }
      erewrite bind_Ret.
      2:{ apply rs_Ret; unfold frame_dropped; simpl_state; [ exact Hline | zlia ]. }
      cbn [rv_int]. mstep.
      erewrite bind_Ret.
      2:{ apply rs_Ret; unfold frame_dropped; simpl_state; [ exact Htxt | zlia ]. }
      erewrite bind_Ret.
      2:{ apply backtotop_Ret. unfold frame_dropped. simpl_state. exact Hrange. }
      reflexivity.
    + lia.
    + lia.
    + exists (RInt CALLFRAME). rewrite Z.sub_0_r, <- aget_nth by lia.
      split; [ exact Htag | reflexivity ].
    + intros q v Hq1 Hq2 Hnth. apply (Hbelow q v); [ lia | ].
      rewrite aget_nth by lia. rewrite Z.sub_0_r in Hnth. exact Hnth.
  - intros Hnone.
    unfold doreturn. mstep. rewrite Hc. mstep.
    rewrite find_callframe_none.
    + erewrite bind_Ret by (apply error_Ret; reflexivity). reflexivity.
    + intros q v Hq1 Hq2 Hnth. apply (Hnone q v); [ lia | ].
      rewrite aget_nth by lia. rewrite Z.sub_0_r in Hnth. exact Hnth.
Qed.

End Return.

(** ** Linking *)

Lemma upd_length {A} (l : list A) (x : A) :
  forall n, List.length (upd l n x) = List.length l.
Proof.
  induction l as [ | h t IH ]; intros [ | n ]; cbn [upd List.length]; auto.
Qed.

Lemma nth_error_upd_same {A} (l : list A) (x : A) :
  forall n, (n < List.length l)%nat -> nth_error (upd l n x) n = Some x.
Proof.
  induction l as [ | h t IH ]; intros [ | n ] H; cbn [List.length] in H;
    cbn [upd nth_error]; try lia; [ reflexivity | apply IH; lia ].
Qed.

Lemma nth_error_upd_other {A} (l : list A) (x : A) :
  forall n m, n <> m -> nth_error (upd l n x) m = nth_error l m.
Proof.
  induction l as [ | h t IH ]; intros [ | n ] [ | m ] H; cbn [upd nth_error];
    try reflexivity; try congruence.
  apply IH. congruence.
Qed.

Lemma link_search_resolve (rest : list sub_t) (name : string) :
  forall sub, link_search sub rest name = resolve (sub :: rest) name.
Proof.
  unfold resolve.
  induction rest as [ | sub' rest IH ]; intros sub; cbn [link_search find];
    destruct (same_sub (s_name sub) name); try reflexivity.
  rewrite IH. reflexivity.
Qed.

Section Linker.

Context {pf : Platform}.

Lemma patch_length (code : list cell) (off word : Z) :
  List.length (patch code off word) = List.length code.
Proof. unfold patch. rewrite !upd_length. reflexivity. Qed.

Lemma patch_low (code : list cell) (off word : Z) :
  0 <= off -> off + 1 < Z.of_nat (List.length code) ->
  aget (patch code off word) off = Some (Byte (lo8 word)).
Proof.
  intros H0 H1. rewrite aget_nth by lia. unfold patch.
  rewrite nth_error_upd_other by lia.
  apply nth_error_upd_same. lia.
Qed.

Lemma patch_high (code : list cell) (off word : Z) :
  0 <= off -> off + 1 < Z.of_nat (List.length code) ->
  aget (patch code off word) (off + 1) = Some (Byte (hi8 word)).
Proof.
  intros H0 H1. rewrite aget_nth by lia. unfold patch.
  apply nth_error_upd_same. rewrite upd_length. lia.
Qed.

Lemma patch_other (code : list cell) (off word i : Z) :
  0 <= off -> 0 <= i -> i <> off -> i <> off + 1 ->
  aget (patch code off word) i = aget code i.
Proof.
  intros H0 Hi H1 H2. rewrite !aget_nth by lia. unfold patch.
  rewrite !nth_error_upd_other by lia. reflexivity.
Qed.

Lemma placeholder_in_patch (code : list cell) (off word : Z) (calls : list sub_t) :
  Forall (placeholder_in code) calls ->
  Forall (placeholder_in (patch code off word)) calls.
Proof.
  apply Forall_impl. intros call. unfold placeholder_in. rewrite patch_length. auto.
Qed.

Lemma emit_fixup_Ret (s : state) (call : sub_t) (word : Z) :
  placeholder_in s.(code) call ->
  emit_fixup call.(s_addr) word s
  = Ret tt (set_code (patch s.(code) (placeholder call) word) s).
Proof.
  intros [H0 H1]. unfold placeholder in *. unfold emit_fixup, aset. mstep.
  destruct (Z.leb_spec 0 (s_addr call - RTPCSTART)); [ | lia ].
  destruct (Z.ltb_spec (s_addr call - RTPCSTART) (Z.of_nat (List.length (code s))));
    [ | lia ].
  cbn [andb]. rewrite upd_length.
  destruct (Z.leb_spec 0 (s_addr call - RTPCSTART + 1)); [ | lia ].
  destruct (Z.ltb_spec (s_addr call - RTPCSTART + 1) (Z.of_nat (List.length (code s))));
    [ | lia ].
  reflexivity.
Qed.

Lemma link_code_flag (defs calls : list sub_t) :
  forall code, snd (link_code defs calls code) = all_resolved defs calls.
Proof.
  induction calls as [ | call calls IH ]; intros code; cbn [link_code all_resolved forallb];
    [ reflexivity | ].
  destruct (resolve defs (s_name call)); [ apply IH | reflexivity ].
Qed.

Lemma link_code_length (defs calls : list sub_t) :
  forall code, List.length (fst (link_code defs calls code)) = List.length code.
Proof.
  induction calls as [ | call calls IH ]; intros code; cbn [link_code]; [ reflexivity | ].
  destruct (resolve defs (s_name call)); [ | reflexivity ].
  rewrite IH. apply patch_length.
Qed.

(** [linksubs] computes [link_code]. *)
Lemma linksubs_from_Ret (cs : list sub_t) :
  forall s,
    cs = [] \/ s.(subs) <> [] ->
    Forall (placeholder_in s.(code)) cs ->
    linksubs_from cs s
    = Ret tt
        (set_out (s.(out) ++ if all_resolved s.(subs) cs then [] else chars "?link")
           (set_code (fst (link_code s.(subs) cs s.(code))) s)).
Proof.
  induction cs as [ | call cs IH ]; intros s Hdefs Hin.
  - cbn [linksubs_from link_code all_resolved forallb fst]. rewrite app_nil_r.
    destruct s; reflexivity.
  - destruct Hdefs as [ | Hdefs ]; [ discriminate | ].
    cbn [linksubs_from link_code all_resolved forallb]. mstep.
    destruct (subs s) as [ | sub rest ] eqn:Esubs; [ contradiction | ].
    rewrite link_search_resolve.
    inversion Hin as [ | ? ? Hcall Hrest ]; subst.
    destruct (resolve (sub :: rest) (s_name call)) as [ def | ].
    + erewrite bind_Ret by (apply emit_fixup_Ret; exact Hcall).
      rewrite IH; simpl_state.
      * rewrite Esubs. reflexivity.
      * right. rewrite Esubs. discriminate.
      * apply placeholder_in_patch. exact Hrest.
    + cbn [andb fst]. erewrite error_Ret by reflexivity.
      destruct s; reflexivity.
Qed.

(** Cells that are no operand of a call are left alone. *)
Lemma link_code_other (defs calls : list sub_t) (i : Z) :
  forall code,
    0 <= i ->
    Forall (placeholder_in code) calls ->
    Forall (fun call => i <> placeholder call /\ i <> placeholder call + 1) calls ->
    aget (fst (link_code defs calls code)) i = aget code i.
Proof.
  induction calls as [ | call calls IH ]; intros code Hi Hin Hnot; cbn [link_code];
    [ reflexivity | ].
  inversion Hin as [ | ? ? [H0 H1] Hrest ]; inversion Hnot as [ | ? ? [N0 N1] Nrest ]; subst.
  destruct (resolve defs (s_name call)); [ | reflexivity ].
  rewrite IH; [ | exact Hi | apply placeholder_in_patch; exact Hrest | exact Nrest ].
  apply patch_other; assumption.
Qed.

(** When every call has a definition and no two operands overlap, every
    operand ends up holding the address of the definition. *)
Lemma link_code_patched (defs calls : list sub_t) :
  forall code,
    all_resolved defs calls = true ->
    ForallOrdPairs apart calls ->
    Forall (placeholder_in code) calls ->
    forall call, In call calls ->
      exists def,
        resolve defs call.(s_name) = Some def
        /\ aget (fst (link_code defs calls code)) (placeholder call)
           = Some (Byte (lo8 def.(s_addr)))
        /\ aget (fst (link_code defs calls code)) (placeholder call + 1)
           = Some (Byte (hi8 def.(s_addr))).
Proof.
  induction calls as [ | c calls IH ]; intros code Hall Hapart Hin call Hcall;
    [ contradiction | ].
  cbn [all_resolved forallb] in Hall. apply andb_prop in Hall. destruct Hall as [Hc Hall].
  inversion Hapart as [ | ? ? Hc_apart Hrest_apart ]; subst.
  inversion Hin as [ | ? ? [H0 H1] Hrest ]; subst.
  cbn [link_code].
  destruct (resolve defs (s_name c)) as [ def | ] eqn:Edef; [ | discriminate ].
  destruct Hcall as [ <- | Hcall ].
  - exists def. split; [ exact Edef | ].
    split.
    + rewrite link_code_other;
        [ apply patch_low; assumption | lia | apply placeholder_in_patch; exact Hrest | ].
      revert Hc_apart. apply Forall_impl. unfold apart. lia.
    + rewrite link_code_other;
        [ apply patch_high; assumption | lia | apply placeholder_in_patch; exact Hrest | ].
      revert Hc_apart. apply Forall_impl. unfold apart. lia.
  - apply IH; [ exact Hall | exact Hrest_apart | apply placeholder_in_patch; exact Hrest
              | exact Hcall ].
Qed.

Lemma writebytecode_Ret (s : state) :
  writebytecode s
  = Ret tt
      (set_files (s.(files) ++ [(s.(filename), s.(code))])
         (set_out (s.(out) ++ writing_message s.(filename))
            (set_readbuf s.(filename) s))).
Proof.
  unfold writebytecode, printchar, print. mstep. unfold modify. simpl_state.
  unfold writing_message. rewrite <- !app_assoc. reflexivity.
Qed.

(** The tail of the [comp] statement when the pass over the program
    leaves the compile flag set: the code is ended with VM_END, the linker
    runs, and [writebytecode] and the [break] follow it unconditionally.
    The linker takes the pending calls in order and writes into the operand
    of each the address of the first definition that has the first eight
    characters of its name; at the first call without a definition it
    prints the link message and leaves the remaining operands as they are.
    When every call has a definition and no two operands overlap, the
    operand of every call holds the address of its definition in the
    file. *)
Theorem comp_links_and_writes (s : state) :
  s.(compile) = true ->
  s.(calls) = [] \/ s.(subs) <> [] ->
  Forall (placeholder_in (s.(code) ++ [Op VM_END])) s.(calls) ->
  end_compile s = Ret Next (compiled s)
  /\ (compiled s).(code)
     = fst (link_code s.(subs) s.(calls) (s.(code) ++ [Op VM_END]))
  /\ (compiled s).(files) = s.(files) ++ [(s.(filename), (compiled s).(code))]
  /\ (compiled s).(out)
     = s.(out) ++ (if all_resolved s.(subs) s.(calls) then [] else chars "?link")
         ++ writing_message s.(filename)
  /\ (all_resolved s.(subs) s.(calls) = true ->
      ForallOrdPairs apart s.(calls) ->
      forall call, In call s.(calls) ->
        exists def,
          resolve s.(subs) call.(s_name) = Some def
          /\ aget (compiled s).(code) (placeholder call) = Some (Byte (lo8 def.(s_addr)))
          /\ aget (compiled s).(code) (placeholder call + 1)
             = Some (Byte (hi8 def.(s_addr)))).
Proof.
  intros Hc Hdefs Hin.
  split; [ | split; [ reflexivity | split; [ reflexivity | split; [ reflexivity | ] ] ] ].
  - unfold end_compile. mstep. rewrite Hc. unfold finish_compile, emit, linksubs. mstep.
    simpl_state.
    erewrite bind_Ret by (apply linksubs_from_Ret; simpl_state; assumption).
    mstep. simpl_state. rewrite (bind_Ret writebytecode _ _ _ _ (writebytecode_Ret _)).
    mstep. unfold ret, compiled. simpl_state. rewrite <- app_assoc. reflexivity.
  - intros Hall Hapart call Hcall. unfold compiled. simpl_state.
    apply link_code_patched; assumption.
Qed.

End Linker.

(** ** Array dimensions *)

Lemma peek_String (t : string) (c : ascii) :
  peek t = c -> is_nul c = false -> exists r, t = String c r.
Proof.
  destruct t as [ | c0 r ]; cbn [peek]; intros <- H; [ discriminate | eauto ].
Qed.

Section Dimension.

Context {pf : Platform}.

Lemma expect_Ret (token : ascii) (r : string) (s : state) :
  is_nul token = false ->
  s.(txtPtr) = String token r ->
  expect token s = Ret RET_SUCCESS (set_txtPtr (skip_spaces r) s).
Proof.
  intros Hnul Ht. unfold expect, inc_txtPtr, eatspace. mstep. rewrite Ht.
  cbn [peek]. rewrite Ascii.eqb_refl. mstep. rewrite Ht. cbn [next]. rewrite Hnul.
  mstep. reflexivity.
Qed.

Lemma createintvar_bad_dim (n : nat) (name : string) (type isarray sz value bodyptr : Z)
    (s : state) :
  fst (findintvar name true s) = None ->
  sz < 1 ->
  createintvar (S n) name type isarray sz value bodyptr s
  = Ret RET_ERROR (set_out (s.(out) ++ chars "?bad dim") s).
Proof.
  intros Hfree Hsz. cbn [createintvar]. unfold createintvar_body. mstep.
  rewrite Hfree. destruct (Z.ltb_spec sz 1); [ | lia ].
  erewrite bind_Ret by (apply error_Ret; reflexivity). reflexivity.
Qed.

(** A negative dimension: a declaration of an array in word, byte or const
    mode whose dimension evaluates to a negative number, for a name that is
    not yet declared in the current scope, prints the bad dim message and
    returns the error flag; the variable table is the one the evaluation of
    the dimension left. *)
Theorem negative_dimension_rejected (n : nat) (mode : Z) (s s2 : state)
    (lexeme rest : string) (size : Z) :
  mode = WORD_MODE \/ mode = BYTE_MODE \/ mode = CONST_MODE ->
  isalphach (peek s.(txtPtr)) = true ->
  span_alnum s.(txtPtr) = (lexeme, rest) ->
  peek rest = "["%char ->
  subscript n (dimension_state mode rest s) = Ret (Some size) s2 ->
  size < 0 ->
  peek (skip_spaces s2.(txtPtr)) = "="%char ->
  fst (findintvar (strn VARNUMCHARS lexeme) true s2) = None ->
  exists s',
    assignorcreate (S n) mode s = Ret RET_ERROR s'
    /\ s'.(vars) = s2.(vars)
    /\ s'.(out) = s2.(out) ++ chars "?bad dim".
Proof.
  intros Hmode Halpha Hspan Hopen Hsub Hneg Heq Hfree.
  destruct n as [ | k ]; [ discriminate | ].
  destruct (peek_String _ _ Heq eq_refl) as [r Hr].
  cbn [assignorcreate]. unfold assignorcreate_body. mstep.
  rewrite Halpha. cbn [negb]. rewrite Hspan. mstep. rewrite Hopen.
  change (Ascii.eqb "[" "[") with true. cbv beta iota.
  destruct Hmode as [-> | [-> | ->]]; cbv beta iota delta [dimension_state] in Hsub;
    cbn [Z.eqb WORD_MODE BYTE_MODE CONST_MODE LET_MODE FOR_MODE Pos.eqb orb negb] in *;
    mstep; simpl_state.
  all: rewrite (bind_Ret _ _ _ _ _ Hsub); mstep; unfold eatspace, orfail; mstep;
    simpl_state; rewrite Hr;
    erewrite bind_Ret by (apply expect_Ret; [ reflexivity | simpl_state; reflexivity ]);
    cbv beta iota delta [RET_SUCCESS]; mstep; simpl_state;
    erewrite bind_Ret
      by (apply createintvar_bad_dim;
          [ exact Hfree | destruct (Z.eqb_spec size 0); lia ]);
    eexists; split; [ reflexivity | split; reflexivity ].
Qed.

End Dimension.

(** ** The head of the loop of main *)

(** From the top of the loop to the call of [parseline], [main] touches
    neither the return stack pointer nor skipFlag. *)
Lemma main_before_parse_keeps (lnbuf : string) (s s' : state) :
  main_before_parse lnbuf s = Ret tt s' ->
  s'.(returnSP) = s.(returnSP) /\ s'.(skipFlag) = s.(skipFlag)
  /\ s'.(return_stack) = s.(return_stack).
Proof.
  unfold main_before_parse, clearexprstacks, push_operator_stack, printchar.
  mstep. simpl_state.
  destruct (aset (operator_stack s) (STACKSZ - 1) (u8 SENTINEL)); [ | discriminate ].
  change (STACKSZ - 1 =? 0) with false. cbv beta iota. mstep. simpl_state.
  destruct (editmode s =? 0); cbn [negb]; mstep; unfold modify, ret;
    intros H; inversion H; subst; simpl_state; repeat split.
Qed.

(** * The properties on the example host *)

Section Examples.

#[local] Existing Instance example_host.

(** ** Division: [7 / 0] *)

Lemma pop_operator_division_7_by_0 :
  (pop_operator (dividing false) = Ret RET_ERROR (div0_state (dividing false))
   /\ operand_stack (div0_state (dividing false)) = operand_stack (dividing false))
  /\ pop_operator (dividing true)
     = Ret RET_SUCCESS
         (set_rtPC 1 (set_code [Op VM_DIV] (set_operatorSP 14 (dividing true)))).
Proof.
  split.
  - destruct (pop_operator_division (dividing false) TOK_DIV) as [Hinterpret _].
    + left. reflexivity.
    + cbn. lia.
    + reflexivity.
    + apply (Hinterpret eq_refl 7).
      * cbn. lia.
      * reflexivity.
      * reflexivity.
  - destruct (pop_operator_division (dividing true) TOK_DIV) as [_ Hcompile].
    + left. reflexivity.
    + cbn. lia.
    + reflexivity.
    + apply (Hcompile eq_refl).
Defined.

(** ** else and endif after a true condition *)

Lemma else_endif_after_true_condition :
  doelse (if_open 2 false) = Ret RET_SUCCESS (set_skipFlag true (if_open 2 false))
  /\ doendif (if_open 2 false)
     = Ret RET_SUCCESS (set_returnSP 63 (set_skipFlag false (if_open 2 false))).
Proof.
  apply (else_endif_skipFlag (if_open 2 false) 2).
  - reflexivity.
  - reflexivity.
  - cbn. lia.
  - reflexivity.
  - reflexivity.
  - right. right. reflexivity.
Defined.

(** ** A skipped statement *)

Lemma skipping_pr_dec :
  parseline 21 (skipping "pr.dec 7; endif")
  = parseline 20 (set_txtPtr "; endif" (skipping "pr.dec 7; endif"))
  /\ parseline 20 (skipping "pr.dec 7; x = 3")
     = Ret 0 (set_txtPtr "" (skipping "pr.dec 7; x = 3")).
Proof.
  split.
  - destruct (parseline_skips_statement 20 (skipping "pr.dec 7; endif") eq_refl)
      as [Hstep _].
    destruct Hstep as [Hgo _]; [ reflexivity | reflexivity | reflexivity | exact Hgo ].
  - destruct (parseline_skips_statement 20 (skipping "pr.dec 7; x = 3") eq_refl)
      as [_ Hline].
    apply Hline; [ intros t; reflexivity | reflexivity ].
Defined.

(** ** return from a subroutine called in immediate mode *)

Lemma doreturn_in_callee :
  doreturn 9 in_callee
  = Ret RET_SUCCESS (returned 9 63 (-1) "; pr.dec x" [caller_x] in_callee)
  /\ (returned 9 63 (-1) "; pr.dec x" [caller_x] in_callee).(vars) = [caller_x]
  /\ (returned 9 63 (-1) "; pr.dec x" [caller_x] in_callee).(returnSP) = 63
  /\ (returned 9 63 (-1) "; pr.dec x" [caller_x] in_callee).(retregister) = 9
  /\ (returned 9 63 (-1) "; pr.dec x" [caller_x] in_callee).(txtPtr) = "; pr.dec x".
Proof.
  split; [ | repeat split ].
  destruct (doreturn_unwinds in_callee 9) as [Hfound _].
  - reflexivity.
  - reflexivity.
  - cbn. lia.
  - apply (Hfound 63 (-1) "; pr.dec x" [caller_x] frame_marker [local_y]).
    + cbn. lia.
    + reflexivity.
    + intros q v Hq Hv. cbn in Hq.
      assert (Hcases : q = 58 \/ q = 59 \/ q = 60 \/ q = 61 \/ q = 62) by lia.
      destruct Hcases as [-> | [-> | [-> | [-> | ->]]]];
        vm_compute in Hv; injection Hv as <-; reflexivity.
    + reflexivity.
    + reflexivity.
    + left. reflexivity.
    + reflexivity.
    + reflexivity.
    + reflexivity.
    + cbn. repeat (constructor; [ cbn; intuition discriminate | ]). constructor.
    + repeat constructor. discriminate.
Defined.

(** C4, at a [return] inside [for i = 1 : 65534]: [doreturn] looks for
    the call frame by comparing every slot above the stack pointer with the
    tag 65534, the slots that hold the payload of the frames in between
    included.  Here the limit of the loop is met first: the stack pointer
    stops at slot 57 and not at the tag in slot 63, the address of the loop
    variable is taken for the line of the caller, no such line is found, and
    [backtotop] leaves the interpreter with status 99 at the place that its
    comment says is never reached.  With the limit 65533 the same call
    returns: the stack is empty again, 7 is in the return register, the
    local [i] is gone and the rest of the line prints 1. *)
Theorem return_inside_for_65534 :
  (exists s',
     parseline 300
       (typed "call f(); pr.dec 1" (set_program (return_in_for "65534") boot))
     = Exited 99 s'
     /\ s'.(returnSP) = 57
     /\ skipn 56 s'.(return_stack)
        = [RInt 134537195; RInt 65534; RTxt EmptyString; RInt 2; RInt FORFRAME_W;
           RTxt "; pr.dec 1"; RInt (-1); RInt CALLFRAME]
     /\ s'.(out) = [])
  /\ (exists s',
        main_loop 300 ["call f(); pr.dec 1"] (set_program (return_in_for "65533") boot)
        = Some s'
        /\ s'.(returnSP) = RETSTACKSZ - 1
        /\ s'.(retregister) = 7
        /\ s'.(vars) = []
        /\ s'.(out) = [PrDec 1; PrCh (ascii_of_int 10)]).
Proof.
  split.
  - eexists. split; [ vm_compute; reflexivity | repeat split ].
  - eexists. split; [ vm_compute; reflexivity | repeat split ].
Qed.

(** ** Linking *)

Lemma linking_two_calls_of_foo :
  end_compile (to_link "foo") = Ret Next (compiled (to_link "foo"))
  /\ (compiled (to_link "foo")).(files)
     = [("out",
         [Op VM_SPTOFP; Op VM_LDIMM; Byte 0; Byte 0; Op VM_FPTOSP; Op VM_RTS;
          Op VM_JSRIMM; Byte 0; Byte 0; Op VM_DROP;
          Op VM_JSRIMM; Byte 0; Byte 0; Op VM_DROP; Op VM_END])].
Proof.
  destruct (comp_links_and_writes (to_link "foo")) as (Hrun & _ & Hfiles & _).
  - reflexivity.
  - right. discriminate.
  - repeat first [ apply Forall_nil | apply Forall_cons ];
      unfold placeholder_in, placeholder; cbn; lia.
  - split; [ exact Hrun | exact Hfiles ].
Defined.

(** C3, at the program [sub foo()], [endsub], [call foobar()],
    [call foo()] compiled with [comp "out"]: the call of [foobar] passes the
    check of [docall] against the line [sub foo()] and has no definition for
    the linker.  The link message is printed, but the compilation is not
    stopped: the operands of this call and of the next are left open (255,
    255), the file is written all the same and [parseline] returns 0, the
    status of a line without an error.  After an error during the pass, when
    the compile flag has been cleared, the same statement neither links nor
    writes. *)
Theorem unresolved_call_is_not_fatal :
  (exists s',
     parseline 300 (typed ("comp " ++ quoted "out") (set_program dangling_call boot))
     = Ret 0 s'
     /\ s'.(subs) = [mkSub "foo" 0]
     /\ s'.(calls) = [mkSub "foobar" 7; mkSub "foo" 11]
     /\ s'.(files)
        = [("out",
            [Op VM_SPTOFP; Op VM_LDIMM; Byte 0; Byte 0; Op VM_FPTOSP; Op VM_RTS;
             Op VM_JSRIMM; Byte 255; Byte 255; Op VM_DROP;
             Op VM_JSRIMM; Byte 255; Byte 255; Op VM_DROP; Op VM_END])]
     /\ s'.(out)
        = chars ("." ++ nl ++ "[foo]...?link" ++ nl ++ "Writing out:..." ++ nl))
  /\ (forall s : state, s.(compile) = false -> end_compile s = Ret Next s).
Proof.
  split.
  - eexists. split; [ vm_compute; reflexivity | repeat split ].
  - intros s Hc. unfold end_compile. mstep. rewrite Hc. reflexivity.
Qed.

(** ** Array dimensions *)

Lemma negative_dimension_of_b :
  exists s',
    assignorcreate 51 WORD_MODE (set_txtPtr "b[0-1] = {}" (typed "" boot)) = Ret RET_ERROR s'
    /\ s'.(vars) = []
    /\ s'.(out) = chars "?bad dim".
Proof.
  edestruct (negative_dimension_rejected 50 WORD_MODE
               (set_txtPtr "b[0-1] = {}" (typed "" boot)))
    as (s' & Hrun & Hvars & Hout).
  - left. reflexivity.
  - reflexivity.
  - vm_compute. reflexivity.
  - reflexivity.
  - vm_compute. reflexivity.
  - vm_compute. reflexivity.
  - reflexivity.
  - reflexivity.
  - exists s'. split; [ exact Hrun | split; [ exact Hvars | exact Hout ] ].
Defined.

(** C2, at [word a[0] = {}], [byte b[0] = {}] and [const c[0] = {}]:
    [createintvar] reports a bad dimension for every size below 1, and so
    for 0; but [assignorcreate] has made a 1 of the 0 before it calls
    [createintvar], so that the declaration succeeds without a message and
    an array of one element is added to the variable table.  With -1 in
    place of 0 the same line reports the bad dimension and adds nothing. *)
Theorem zero_dimension_is_accepted :
  (exists s',
     parseline 200 (typed "word a[0] = {}" boot) = Ret 0 s'
     /\ s'.(out) = []
     /\ s'.(vars) = [mkVar 134537191 "a" 17 (Arr 134537211 1 [Some 0])])
  /\ (exists s',
        parseline 200 (typed "byte b[0] = {}" boot) = Ret 0 s'
        /\ s'.(out) = []
        /\ s'.(vars) = [mkVar 134537194 "b" 18 (Arr 134537214 1 [Some 0])])
  /\ (exists s',
        parseline 200 (typed "const c[0] = {}" boot) = Ret 0 s'
        /\ s'.(out) = []
        /\ s'.(vars) = [mkVar 134537191 "c" 49 (Arr 134537211 1 [Some 0])])
  /\ (forall n name type isarray value bodyptr (s : state),
         fst (findintvar name true s) = None ->
         createintvar (S n) name type isarray 0 value bodyptr s
         = Ret RET_ERROR (set_out (s.(out) ++ chars "?bad dim") s))
  /\ (exists s',
        parseline 200 (typed "word a[0-1] = {}" boot) = Ret 2 s'
        /\ s'.(out) = chars "?bad dim"
        /\ s'.(vars) = []).
Proof.
  split; [ | split; [ | split; [ | split ] ] ].
  - eexists. split; [ vm_compute; reflexivity | repeat split ].
  - eexists. split; [ vm_compute; reflexivity | repeat split ].
  - eexists. split; [ vm_compute; reflexivity | repeat split ].
  - intros n name type isarray value bodyptr s Hfree.
    apply createintvar_bad_dim; [ exact Hfree | lia ].
  - eexists. split; [ vm_compute; reflexivity | repeat split ].
Qed.

(** ** The for loop of the specification *)

(** Without a variable [i] the line stops at the assignment. *)
Lemma for_needs_a_declared_variable :
  exists s',
    parseline 200 (typed for_line boot) = Ret 2 s'
    /\ s'.(out) = chars "?expect var"
    /\ s'.(vars) = []
    /\ s'.(returnSP) = RETSTACKSZ - 1.
Proof.
  eexists. split; [ vm_compute; reflexivity | repeat split ].
Qed.

(** C9, as the code has it: with [i] declared as a word variable, whatever
    its value, the line prints 1, 2, 3, 4, each followed by a space, and then
    a newline; [parseline] returns 0, the frame of the loop is gone from the
    return stack, and [i] is 4.  So it is when the declaration [word i = 0]
    is typed first: [main] adds its own newline after each of the two
    lines. *)
Theorem for_loop_prints_1_to_4 (v : Z) :
  (exists s',
     parseline 200 (typed for_line (with_i v)) = Ret 0 s'
     /\ s'.(out)
        = [PrDec 1; PrCh " "; PrDec 2; PrCh " "; PrDec 3; PrCh " "; PrDec 4; PrCh " ";
           PrCh (ascii_of_int 10)]
     /\ s'.(returnSP) = RETSTACKSZ - 1
     /\ s'.(vars) = [word_i 4])
  /\ (exists s',
        main_loop 200 ["word i = 0"; for_line] boot = Some s'
        /\ s'.(out)
           = [PrCh (ascii_of_int 10);
              PrDec 1; PrCh " "; PrDec 2; PrCh " "; PrDec 3; PrCh " "; PrDec 4; PrCh " ";
              PrCh (ascii_of_int 10); PrCh (ascii_of_int 10)]
        /\ s'.(returnSP) = RETSTACKSZ - 1
        /\ s'.(vars) = [word_i 4]).
Proof.
  split; eexists; (split; [ vm_compute; reflexivity | repeat split ]).
Qed.

(** ** Restart *)

(** C1, at a line of twenty-two [if]s: the last push overflows the return
    stack and jumps to [main] with the stack pointer at 0 and skipFlag set.
    The loop of [main] resets neither before it parses the next line, so
    that [pr.dec 7], typed next, prints nothing and the stack message comes
    once more; only then are both reset.  Typed after start-up the same line
    prints 7. *)
Theorem restart_keeps_return_stack_and_skipFlag :
  (exists s1,
     main_turn 300 nested_ifs boot = LongJmp s1
     /\ s1.(returnSP) = 0 /\ s1.(skipFlag) = true
     /\ (typed "pr.dec 7" (restarted s1)).(returnSP) = 0
     /\ (typed "pr.dec 7" (restarted s1)).(skipFlag) = true)
  /\ (forall lnbuf s s',
        main_before_parse lnbuf s = Ret tt s' ->
        s'.(returnSP) = s.(returnSP) /\ s'.(skipFlag) = s.(skipFlag))
  /\ (exists s2,
        main_loop 300 [nested_ifs; "pr.dec 7"] boot = Some s2
        /\ s2.(out) = chars ("?stackRestart" ++ nl ++ nl ++ "?stack"))
  /\ (exists s3,
        main_loop 300 ["pr.dec 7"] boot = Some s3
        /\ s3.(out) = [PrDec 7; PrCh (ascii_of_int 10)]).
Proof.
  split; [ | split; [ | split ] ].
  - eexists. split; [ vm_compute; reflexivity | repeat split ].
  - intros lnbuf s s' H. destruct (main_before_parse_keeps lnbuf s s' H) as (H1 & H2 & _).
    split; assumption.
  - eexists. split; [ vm_compute; reflexivity | reflexivity ].
  - eexists. split; [ vm_compute; reflexivity | reflexivity ].
Qed.

End Examples.

(** * Further properties of the code *)

(** ** The return stack *)

Lemma aget_upd_same {A} (l : list A) (i : Z) (x : A) :
  0 <= i < Z.of_nat (List.length l) -> aget (upd l (Z.to_nat i) x) i = Some x.
Proof.
  intros H. rewrite aget_nth by lia. apply nth_error_upd_same. lia.
Qed.

Lemma aget_upd_other {A} (l : list A) (i j : Z) (x : A) :
  0 <= i -> 0 <= j -> i <> j -> aget (upd l (Z.to_nat i) x) j = aget l j.
Proof.
  intros Hi Hj Hne. rewrite !aget_nth by lia. apply nth_error_upd_other. lia.
Qed.

Lemma push_return_Ret (v : rval) (s : state) :
  List.length s.(return_stack) = Z.to_nat RETSTACKSZ ->
  0 < s.(returnSP) <= RETSTACKSZ - 1 ->
  push_return v s
  = Ret tt (set_returnSP (s.(returnSP) - 1)
              (set_return_stack (upd s.(return_stack) (Z.to_nat s.(returnSP)) v) s)).
Proof.
  intros Hlen Hsp. unfold push_return, aset. mstep.
  destruct (Z.leb_spec 0 (returnSP s)); [ | lia ].
  destruct (Z.ltb_spec (returnSP s) (Z.of_nat (List.length (return_stack s)))); [ | zlia ].
  cbn [andb]. mstep.
  destruct (Z.eqb_spec (returnSP s) 0); [ lia | ].
  reflexivity.
Qed.

Lemma bind_ext {A B} (m : M A) (k1 k2 : A -> M B) (s : state) :
  (forall a s', k1 a s' = k2 a s') -> bind m k1 s = bind m k2 s.
Proof. intros H. unfold bind. destruct (m s); auto. Qed.

Lemma bind_cong {A B} (m1 m2 : M A) (k : A -> M B) (s : state) :
  m1 s = m2 s -> bind m1 k s = bind m2 k s.
Proof. intros H. unfold bind. rewrite H. reflexivity. Qed.

Lemma pop_returns_snoc (n : nat) :
  forall s,
    pop_returns (n + 1) s
    = (l <- pop_returns n ;; v <- pop_return ;; ret (l ++ [v])) s.
Proof.
  induction n as [ | k IH ]; intros s.
  - cbn [pop_returns Nat.add]. mstep. apply bind_ext. intros v s1. reflexivity.
  - cbn [pop_returns Nat.add]. mstep. apply bind_ext. intros v s1.
    rewrite (bind_cong _ _ _ _ (IH s1)). mstep. apply bind_ext. intros l s2.
    mstep. apply bind_ext. intros v0 s3. reflexivity.
Qed.

Lemma set_return_stack_same (s : state) : set_return_stack s.(return_stack) s = s.
Proof. destruct s; reflexivity. Qed.

(** X1: the return stack is a stack.  Values pushed one after the other
    come back in the opposite order when as many are popped, provided the
    stack pointer leaves room for them (a push with the pointer at 0 is an
    overflow, so a pointer of [k] has room for [k] values).  Afterwards the
    stack pointer is where it was, the slots above it are untouched, and
    nothing else in the state has changed. *)
Theorem return_stack_is_lifo (vs : list rval) :
  forall s : state,
    List.length s.(return_stack) = Z.to_nat RETSTACKSZ ->
    Z.of_nat (List.length vs) <= s.(returnSP) <= RETSTACKSZ - 1 ->
    exists st',
      (push_returns vs ;; pop_returns (List.length vs)) s
      = Ret (rev vs) (set_return_stack st' s)
      /\ List.length st' = Z.to_nat RETSTACKSZ
      /\ forall i, s.(returnSP) < i -> aget st' i = aget s.(return_stack) i.
Proof.
  induction vs as [ | v r IH ]; intros s Hlen Hsp.
  - exists s.(return_stack). rewrite set_return_stack_same.
    repeat split; auto.
  - cbn [List.length] in Hsp.
    cbn [push_returns List.length rev]. mstep.
    rewrite (bind_Ret _ _ _ _ _ (push_return_Ret v s Hlen ltac:(lia))).
    replace (S (List.length r)) with (List.length r + 1)%nat by lia.
    erewrite bind_ext by (intros; apply pop_returns_snoc).
    rewrite <- bind_bind.
    destruct (IH (set_returnSP (returnSP s - 1)
                    (set_return_stack (upd (return_stack s) (Z.to_nat (returnSP s)) v) s)))
      as (st1 & Hrun & Hlen1 & Hkeep).
    + simpl_state. rewrite upd_length. exact Hlen.
    + simpl_state. lia.
    + simpl_state. rewrite (bind_Ret _ _ _ _ _ Hrun).
      assert (Hv : aget st1 (returnSP s) = Some v).
      { rewrite Hkeep by lia. apply aget_upd_same. rewrite Hlen. zlia. }
      erewrite bind_Ret.
      2:{ apply pop_return_Ret with (v := v); simpl_state.
          - zlia.
          - replace (returnSP s - 1 + 1) with (returnSP s) by lia. exact Hv. }
      exists st1. simpl_state.
      replace (returnSP s - 1 + 1) with (returnSP s) by lia.
      split; [ reflexivity | split; [ exact Hlen1 | ] ].
      intros i Hi. rewrite Hkeep by lia.
      apply aget_upd_other; lia.
Qed.

(** X2: the two ends of the return stack.  A push with the stack pointer
    at 0 stores its value in slot 0, prints the stack message and jumps to
    [main] without moving the pointer: of the 64 slots, 63 can be used.  A
    pop from the empty stack prints the same message and jumps; it changes
    nothing else. *)
Theorem return_stack_overflow_underflow (s : state) (v : rval) :
  List.length s.(return_stack) = Z.to_nat RETSTACKSZ ->
  (s.(returnSP) = 0 ->
   push_return v s
   = LongJmp (set_out (s.(out) ++ chars "?stack")
                (set_return_stack (upd s.(return_stack) 0 v) s)))
  /\ (s.(returnSP) = RETSTACKSZ - 1 ->
      pop_return s = LongJmp (set_out (s.(out) ++ chars "?stack") s)).
Proof.
  intros Hlen. split; intros Hsp.
  - unfold push_return, aset. mstep. rewrite Hsp, Hlen.
    change ((0 <=? 0) && (0 <? Z.of_nat (Z.to_nat RETSTACKSZ))) with true.
    cbv beta iota. mstep. change (0 =? 0) with true. cbv beta iota. mstep.
    erewrite bind_Ret by (apply error_Ret; reflexivity).
    reflexivity.
  - unfold pop_return. mstep. rewrite Hsp, Z.eqb_refl.
    erewrite bind_Ret by (apply error_Ret; reflexivity).
    reflexivity.
Qed.

(** ** The operand stack *)

(** X3: the operand stack in its two modes.  When interpreting, a value
    pushed is the value popped next, and the stack pointer is back where it
    was; a pop from the empty stack jumps to [main] and prints nothing.  When
    compiling, the stack of the interpreter is not used: a push emits a
    load-immediate of the value, low byte first, and a pop yields 0 without
    any check. *)
Theorem operand_stack_modes (s : state) (v : Z) :
  List.length s.(operand_stack) = Z.to_nat STACKSZ ->
  (s.(compile) = false ->
   0 < s.(operandSP) <= STACKSZ - 1 ->
   (push_operand_stack v ;; pop_operand_stack) s
   = Ret v (set_operand_stack (upd s.(operand_stack) (Z.to_nat s.(operandSP)) v) s))
  /\ (s.(compile) = false ->
      s.(operandSP) = STACKSZ - 1 ->
      pop_operand_stack s = LongJmp s)
  /\ (s.(compile) = true ->
      push_operand_stack v s
      = Ret tt (set_rtPC (s.(rtPC) + 3)
                  (set_code (s.(code) ++ [Op VM_LDIMM; Byte (lo8 v); Byte (hi8 v)]) s))
      /\ pop_operand_stack s = Ret 0 s).
Proof.
  intros Hlen. split; [ | split ].
  - intros Hc Hsp. unfold push_operand_stack, aset. mstep. rewrite Hc. mstep.
    destruct (Z.leb_spec 0 (operandSP s)); [ | lia ].
    destruct (Z.ltb_spec (operandSP s) (Z.of_nat (List.length (operand_stack s))));
      [ | zlia ].
    cbn [andb]. mstep.
    destruct (Z.eqb_spec (operandSP s) 0); [ lia | ].
    mstep. simpl_state.
    rewrite pop_operand_stack_Ret with (v := v); simpl_state.
    + replace (operandSP s - 1 + 1) with (operandSP s) by lia. reflexivity.
    + exact Hc.
    + zlia.
    + replace (operandSP s - 1 + 1) with (operandSP s) by lia.
      apply aget_upd_same. rewrite Hlen. zlia.
  - intros Hc Hsp. unfold pop_operand_stack. mstep. rewrite Hc. mstep.
    rewrite Hsp, Z.eqb_refl. reflexivity.
  - intros Hc. split.
    + unfold push_operand_stack. mstep. rewrite Hc. reflexivity.
    + apply pop_operand_stack_compile. exact Hc.
Qed.

(** ** Powers *)

Lemma wrap_mod (z : Z) : wrap z mod 4294967296 = z mod 4294967296.
Proof.
  unfold wrap.
  rewrite <- Zminus_mod_idemp_l, Z.mod_mod by lia.
  rewrite Zminus_mod_idemp_l. f_equal. lia.
Qed.

Lemma wrap_eq (a b : Z) : a mod 4294967296 = b mod 4294967296 -> wrap a = wrap b.
Proof.
  intros H. unfold wrap.
  rewrite <- (Zplus_mod_idemp_l a), <- (Zplus_mod_idemp_l b), H. reflexivity.
Qed.

Lemma wrap_mul_l (a b : Z) : wrap (wrap a * b) = wrap (a * b).
Proof.
  apply wrap_eq. rewrite <- Zmult_mod_idemp_l, wrap_mod, Zmult_mod_idemp_l. reflexivity.
Qed.

Lemma wrap_small (z : Z) : -2147483648 <= z < 2147483648 -> wrap z = z.
Proof. intros H. unfold wrap. rewrite Z.mod_small by lia. lia. Qed.

Lemma pow_iter (x : Z) (p : positive) :
  Pos.iter (fun ret => wrap (ret * x)) 1 p = wrap (x ^ Z.pos p).
Proof.
  induction p as [ | p IH ] using Pos.peano_ind.
  - cbn [Pos.iter]. f_equal. rewrite Z.pow_1_r. lia.
  - rewrite Pos.iter_succ, IH, wrap_mul_l, Pos2Z.inj_succ, Z.pow_succ_r by lia.
    f_equal. lia.
Qed.

(** X4: [_pow] computes the power by repeated multiplication in 32-bit
    arithmetic: for an exponent that is not negative the result is the
    mathematical power reduced to the range of [int]; for an exponent that
    is zero or negative the loop does not run and the result is 1. *)
Theorem pow_is_wrapped_power (x y : Z) :
  (0 <= y -> _pow x y = wrap (x ^ y))
  /\ (y <= 0 -> _pow x y = 1).
Proof.
  unfold _pow. split; intros Hy.
  - destruct y as [ | p | p ]; [ reflexivity | apply pow_iter | lia ].
  - destruct y as [ | p | p ]; [ reflexivity | lia | reflexivity ].
Qed.

Lemma push_operand_stack_Ret (v : Z) (s : state) :
  s.(compile) = false ->
  List.length s.(operand_stack) = Z.to_nat STACKSZ ->
  0 < s.(operandSP) <= STACKSZ - 1 ->
  push_operand_stack v s
  = Ret tt (set_operandSP (s.(operandSP) - 1)
              (set_operand_stack (upd s.(operand_stack) (Z.to_nat s.(operandSP)) v) s)).
Proof.
  intros Hc Hlen Hsp. unfold push_operand_stack, aset. mstep. rewrite Hc. mstep.
  destruct (Z.leb_spec 0 (operandSP s)); [ | lia ].
  destruct (Z.ltb_spec (operandSP s) (Z.of_nat (List.length (operand_stack s))));
    [ | zlia ].
  cbn [andb]. mstep.
  destruct (Z.eqb_spec (operandSP s) 0); [ lia | ].
  reflexivity.
Qed.

(** X5: the binary power operator in [pop_operator].  When interpreting,
    the two operands on top of the operand stack are replaced by
    [_pow base exponent].  When compiling there is no opcode for it: the
    operands popped are the dummy 0 and 0, and what is emitted is a
    load-immediate of [_pow 0 0], the constant 1. *)
Theorem power_operator (s : state) :
  0 <= s.(operatorSP) < STACKSZ - 1 ->
  aget s.(operator_stack) (s.(operatorSP) + 1) = Some TOK_POW ->
  (s.(compile) = false ->
   forall base exponent,
     List.length s.(operand_stack) = Z.to_nat STACKSZ ->
     0 <= s.(operandSP) < STACKSZ - 2 ->
     aget s.(operand_stack) (s.(operandSP) + 1) = Some exponent ->
     aget s.(operand_stack) (s.(operandSP) + 2) = Some base ->
     pop_operator s
     = Ret RET_SUCCESS
         (set_operandSP (s.(operandSP) + 1)
            (set_operand_stack
               (upd s.(operand_stack) (Z.to_nat (s.(operandSP) + 2)) (_pow base exponent))
               (set_operatorSP (s.(operatorSP) + 1) s))))
  /\ (s.(compile) = true ->
      pop_operator s
      = Ret RET_SUCCESS
          (set_rtPC (s.(rtPC) + 3)
             (set_code (s.(code) ++ [Op VM_LDIMM; Byte 1; Byte 0])
                (set_operatorSP (s.(operatorSP) + 1) s)))).
Proof.
  intros Hsp Htop. split.
  - intros Hc base exponent Hlen Hosp H1 H2.
    unfold pop_operator.
    rewrite (bind_Ret _ _ _ _ _ (pop_operator_stack_Ret s TOK_POW Hsp Htop)).
    erewrite bind_Ret.
    2:{ apply pop_operand_stack_Ret with (v := exponent); simpl_state; auto. zlia. }
    mstep. simpl_state. rewrite Hc.
    change (negb (ISUNARY TOK_POW)) with true. cbv beta iota.
    erewrite bind_Ret.
    2:{ apply pop_operand_stack_Ret with (v := base); simpl_state; auto.
        - zlia.
        - rewrite <- H2. f_equal. lia. }
    change (TOK_POW =? TOK_POW) with true. cbv beta iota.
    erewrite bind_Ret.
    2:{ apply push_operand_stack_Ret; simpl_state; auto. zlia. }
    unfold ret. simpl_state.
    replace (operandSP s + 1 + 1) with (operandSP s + 2) by lia.
    replace (operandSP s + 2 - 1) with (operandSP s + 1) by lia.
    reflexivity.
  - intros Hc.
    unfold pop_operator.
    rewrite (bind_Ret _ _ _ _ _ (pop_operator_stack_Ret s TOK_POW Hsp Htop)).
    erewrite bind_Ret by (apply pop_operand_stack_compile; exact Hc).
    mstep. simpl_state. rewrite Hc.
    change (negb (ISUNARY TOK_POW)) with true. cbv beta iota.
    erewrite bind_Ret by (apply pop_operand_stack_compile; exact Hc).
    change (TOK_POW =? TOK_POW) with true. cbv beta iota.
    unfold push_operand_stack. mstep. simpl_state. rewrite Hc. reflexivity.
Qed.

(** ** if, else, endif as a whole *)

Ltac slot :=
  repeat first
    [ rewrite aget_upd_same by (rewrite ?upd_length; zlia)
    | rewrite aget_upd_other by zlia ].

Lemma set_skipFlag_same (s : state) : set_skipFlag s.(skipFlag) s = s.
Proof. destruct s; reflexivity. Qed.

Lemma doif_Ret (arg : Z) (s : state) :
  s.(compile) = false ->
  List.length s.(return_stack) = Z.to_nat RETSTACKSZ ->
  3 <= s.(returnSP) <= RETSTACKSZ - 1 ->
  doif arg s = Ret tt (if_pushed arg s).
Proof.
  intros Hc Hlen Hsp. unfold doif.
  rewrite (bind_Ret _ _ _ _ _ (push_return_Ret _ s Hlen ltac:(lia))).
  mstep. simpl_state. rewrite Hc. mstep. simpl_state.
  unfold if_pushed, frame_status.
  assert (Hsame : forall b, skipFlag s = b -> set_skipFlag b s = s)
    by (intros b <-; apply set_skipFlag_same).
  destruct (skipFlag s) eqn:Hskip; [ | destruct (u8 arg =? 0) eqn:Harg ]; mstep;
    (erewrite bind_Ret
       by (apply push_return_Ret; simpl_state; rewrite ?upd_length; try exact Hlen; zlia));
    simpl_state;
    (erewrite push_return_Ret
       by (simpl_state; rewrite ?upd_length; try exact Hlen; zlia));
    simpl_state;
    replace (returnSP s - 1 - 1) with (returnSP s - 2) by lia;
    replace (returnSP s - 2 - 1) with (returnSP s - 3) by lia;
    cbn [orb]; rewrite ?(Hsame _ eq_refl); reflexivity.
Qed.

Section ControlFlow.

Context {pf : Platform}.

Lemma doelse_Ret (s : state) (status : Z) :
  s.(compile) = false ->
  0 <= s.(returnSP) -> s.(returnSP) + 3 < RETSTACKSZ ->
  aget s.(return_stack) (s.(returnSP) + 3) = Some (RInt IFFRAME) ->
  aget s.(return_stack) (s.(returnSP) + 2) = Some (RInt status) ->
  doelse s = Ret RET_SUCCESS (after_else status s).
Proof.
  intros Hc Hsp Hlt Htag Hst. unfold doelse.
  rewrite (bind_Ret _ _ _ _ _ (rs_Ret 3 s _ Htag Hlt)).
  cbn [rv_is]. rewrite Z.eqb_refl. cbv beta match delta [negb].
  mstep. rewrite Hc. mstep.
  rewrite (bind_Ret (rs 2) _ _ _ _ (rs_Ret 2 s _ Hst ltac:(lia))).
  cbn [rv_is]. unfold after_else, ret.
  destruct (status =? 2); [ reflexivity | ].
  destruct (status =? 1); reflexivity.
Qed.

Lemma pop_returns_Ret3 (s : state) (v1 v2 v3 : rval) :
  0 <= s.(returnSP) -> s.(returnSP) + 3 < RETSTACKSZ ->
  aget s.(return_stack) (s.(returnSP) + 1) = Some v1 ->
  aget s.(return_stack) (s.(returnSP) + 2) = Some v2 ->
  aget s.(return_stack) (s.(returnSP) + 3) = Some v3 ->
  (pop_return ;; pop_return ;; pop_return ;; ret RET_SUCCESS) s
  = Ret RET_SUCCESS (set_returnSP (s.(returnSP) + 3) s).
Proof.
  intros Hsp Hlt H1 H2 H3.
  erewrite bind_Ret by (apply pop_return_Ret; [ zlia | exact H1 ]).
  erewrite bind_Ret
    by (apply pop_return_Ret; simpl_state;
        [ zlia | replace (returnSP s + 1 + 1) with (returnSP s + 2) by lia; exact H2 ]).
  erewrite bind_Ret
    by (apply pop_return_Ret; simpl_state;
        [ zlia | replace (returnSP s + 1 + 1 + 1) with (returnSP s + 3) by lia; exact H3 ]).
  unfold ret. simpl_state.
  replace (returnSP s + 1 + 1 + 1) with (returnSP s + 3) by lia. reflexivity.
Qed.

Lemma doendif_Ret (s : state) (status : Z) (v1 : rval) :
  s.(compile) = false ->
  0 <= s.(returnSP) -> s.(returnSP) + 3 < RETSTACKSZ ->
  aget s.(return_stack) (s.(returnSP) + 3) = Some (RInt IFFRAME) ->
  aget s.(return_stack) (s.(returnSP) + 2) = Some (RInt status) ->
  aget s.(return_stack) (s.(returnSP) + 1) = Some v1 ->
  doendif s = Ret RET_SUCCESS (after_endif status s).
Proof.
  intros Hc Hsp Hlt Htag Hst H1. unfold doendif.
  rewrite (bind_Ret _ _ _ _ _ (rs_Ret 3 s _ Htag Hlt)).
  cbn [rv_is]. rewrite Z.eqb_refl. cbv beta match delta [negb].
  mstep. rewrite Hc. mstep.
  rewrite (bind_Ret (rs 2) _ _ _ _ (rs_Ret 2 s _ Hst ltac:(lia))).
  cbn [rv_nonzero]. unfold after_endif.
  destruct (status =? 0); cbv beta match delta [negb]; mstep;
    erewrite pop_returns_Ret3 by (simpl_state; eassumption); reflexivity.
Qed.

(** X6: an [if] with its [else] and [endif], interpreted.  [doif] looks at
    its argument as an [unsigned char]: a condition that is a multiple of
    256 counts as false.  If the interpreter is not skipping already, the
    statements after [if] are skipped exactly when the condition is false
    and those after [else] exactly when it is true; if it is skipping
    already, both parts are skipped.  After [endif], with or without an
    [else], skipFlag and the return stack pointer are what they were before
    the [if]. *)
Theorem if_else_endif (s : state) (arg : Z) :
  s.(compile) = false ->
  List.length s.(return_stack) = Z.to_nat RETSTACKSZ ->
  3 <= s.(returnSP) <= RETSTACKSZ - 1 ->
  doif arg s = Ret tt (if_pushed arg s)
  /\ (if_pushed arg s).(skipFlag) = s.(skipFlag) || (u8 arg =? 0)
  /\ (doif arg ;; doelse) s
     = Ret RET_SUCCESS
         (set_skipFlag (s.(skipFlag) || negb (u8 arg =? 0)) (if_pushed arg s))
  /\ (doif arg ;; doendif) s
     = Ret RET_SUCCESS
         (set_returnSP s.(returnSP) (set_skipFlag s.(skipFlag) (if_pushed arg s)))
  /\ (doif arg ;; doelse ;; doendif) s
     = Ret RET_SUCCESS
         (set_returnSP s.(returnSP) (set_skipFlag s.(skipFlag) (if_pushed arg s))).
Proof.
  intros Hc Hlen Hsp.
  assert (Hif := doif_Ret arg s Hc Hlen Hsp).
  assert (Htag : aget (return_stack (if_pushed arg s)) (returnSP (if_pushed arg s) + 3)
                 = Some (RInt IFFRAME)).
  { unfold if_pushed. simpl_state.
    replace (returnSP s - 3 + 3) with (returnSP s) by lia. slot. reflexivity. }
  assert (Hst : aget (return_stack (if_pushed arg s)) (returnSP (if_pushed arg s) + 2)
                = Some (RInt (frame_status (skipFlag s) arg))).
  { unfold if_pushed. simpl_state.
    replace (returnSP s - 3 + 2) with (returnSP s - 1) by lia. slot. reflexivity. }
  assert (H1 : aget (return_stack (if_pushed arg s)) (returnSP (if_pushed arg s) + 1)
               = Some (RInt 0)).
  { unfold if_pushed. simpl_state.
    replace (returnSP s - 3 + 1) with (returnSP s - 2) by lia. slot. reflexivity. }
  assert (Hsp' : 0 <= returnSP (if_pushed arg s)) by (unfold if_pushed; simpl_state; lia).
  assert (Hlt' : returnSP (if_pushed arg s) + 3 < RETSTACKSZ)
    by (unfold if_pushed; simpl_state; zlia).
  assert (Hc' : compile (if_pushed arg s) = false) by exact Hc.
  assert (Helse := doelse_Ret _ _ Hc' Hsp' Hlt' Htag Hst).
  assert (Hendif := doendif_Ret _ _ _ Hc' Hsp' Hlt' Htag Hst H1).
  assert (Hc2 : forall st, compile (after_else st (if_pushed arg s)) = false)
    by (intros st; unfold after_else; destruct (st =? 2); [ | destruct (st =? 1) ];
        exact Hc).
  assert (Hkeep : forall st,
             returnSP (after_else st (if_pushed arg s)) = returnSP (if_pushed arg s)
             /\ return_stack (after_else st (if_pushed arg s))
                = return_stack (if_pushed arg s))
    by (intros st; unfold after_else; destruct (st =? 2); [ | destruct (st =? 1) ];
        split; reflexivity).
  split; [ exact Hif | split; [ reflexivity | split; [ | split ] ] ].
  - rewrite (bind_Ret _ _ _ _ _ Hif), Helse.
    unfold after_else, frame_status.
    destruct (skipFlag s) eqn:Hskip; [ | destruct (u8 arg =? 0) eqn:Harg ];
      unfold if_pushed; rewrite ?Hskip; cbn [Z.eqb Pos.eqb orb negb]; reflexivity.
  - rewrite (bind_Ret _ _ _ _ _ Hif), Hendif.
    unfold after_endif, frame_status.
    destruct (skipFlag s) eqn:Hskip; [ | destruct (u8 arg =? 0) eqn:Harg ];
      unfold if_pushed; rewrite ?Hskip; cbn [Z.eqb Pos.eqb orb negb]; simpl_state;
      replace (returnSP s - 3 + 3) with (returnSP s) by lia; reflexivity.
  - rewrite (bind_Ret _ _ _ _ _ Hif), (bind_Ret _ _ _ _ _ Helse).
    destruct (Hkeep (frame_status (skipFlag s) arg)) as [Ksp Kst].
    erewrite doendif_Ret with (status := frame_status (skipFlag s) arg) (v1 := RInt 0);
      rewrite ?Ksp, ?Kst; try assumption; [ | apply Hc2 ].
    unfold after_endif, after_else, frame_status.
    destruct (skipFlag s) eqn:Hskip; [ | destruct (u8 arg =? 0) eqn:Harg ];
      unfold if_pushed; rewrite ?Hskip; cbn [Z.eqb Pos.eqb orb negb]; simpl_state;
      replace (returnSP s - 3 + 3) with (returnSP s) by lia; reflexivity.
Qed.

End ControlFlow.

(** ** while and endwhile *)

Lemma dowhile_Ret (startTxtPtr : string) (arg : Z) (s : state) :
  s.(compile) = false ->
  List.length s.(return_stack) = Z.to_nat RETSTACKSZ ->
  4 <= s.(returnSP) <= RETSTACKSZ - 1 ->
  dowhile startTxtPtr arg s = Ret tt (while_pushed startTxtPtr arg s).
Proof.
  intros Hc Hlen Hsp. unfold dowhile.
  rewrite (bind_Ret _ _ _ _ _ (push_return_Ret _ s Hlen ltac:(lia))).
  mstep. simpl_state. rewrite Hc. mstep. simpl_state.
  unfold while_pushed, frame_status.
  assert (Hsame : forall b, skipFlag s = b -> set_skipFlag b s = s)
    by (intros b <-; apply set_skipFlag_same).
  destruct (skipFlag s) eqn:Hskip; [ | destruct (u8 arg =? 0) eqn:Harg ]; mstep;
    (erewrite bind_Ret
       by (apply push_return_Ret; simpl_state; rewrite ?upd_length; try exact Hlen; zlia));
    mstep; simpl_state;
    (erewrite bind_Ret
       by (apply push_return_Ret; simpl_state; rewrite ?upd_length; try exact Hlen; zlia));
    mstep; simpl_state;
    (erewrite push_return_Ret
       by (simpl_state; rewrite ?upd_length; try exact Hlen; zlia));
    simpl_state;
    replace (returnSP s - 1 - 1) with (returnSP s - 2) by lia;
    replace (returnSP s - 2 - 1) with (returnSP s - 3) by lia;
    replace (returnSP s - 3 - 1) with (returnSP s - 4) by lia;
    cbn [orb]; rewrite ?(Hsame _ eq_refl); reflexivity.
Qed.

Section While.

Context {pf : Platform}.

Lemma pop_returns_Ret4 (s : state) (v1 v2 v3 v4 : rval) :
  0 <= s.(returnSP) -> s.(returnSP) + 4 < RETSTACKSZ ->
  aget s.(return_stack) (s.(returnSP) + 1) = Some v1 ->
  aget s.(return_stack) (s.(returnSP) + 2) = Some v2 ->
  aget s.(return_stack) (s.(returnSP) + 3) = Some v3 ->
  aget s.(return_stack) (s.(returnSP) + 4) = Some v4 ->
  (pop_return ;; pop_return ;; pop_return ;; pop_return ;; ret RET_SUCCESS) s
  = Ret RET_SUCCESS (set_returnSP (s.(returnSP) + 4) s).
Proof.
  intros Hsp Hlt H1 H2 H3 H4.
  erewrite bind_Ret by (apply pop_return_Ret; [ zlia | exact H1 ]).
  erewrite pop_returns_Ret3 with (v1 := v2) (v2 := v3) (v3 := v4); simpl_state.
  - replace (returnSP s + 1 + 3) with (returnSP s + 4) by lia. reflexivity.
  - lia.
  - zlia.
  - replace (returnSP s + 1 + 1) with (returnSP s + 2) by lia. exact H2.
  - replace (returnSP s + 1 + 2) with (returnSP s + 3) by lia. exact H3.
  - replace (returnSP s + 1 + 3) with (returnSP s + 4) by lia. exact H4.
Qed.

(** X7: the frame of a [while] loop, interpreted.  [dowhile] pushes the
    tag, a status, the line counter and the text of the [while] statement;
    the status is 0 if the interpreter was skipping already, 1 if the
    condition (an [unsigned char]) was zero, in which case skipFlag is now
    set, and 2 if it was not zero.  [doendwhile] pops the four slots and
    does nothing more for status 0, clears skipFlag for status 1, and for
    status 2 goes back to the line and the text of the [while] statement,
    so that the condition is evaluated again. *)
Theorem while_frames (s : state) :
  s.(compile) = false ->
  List.length s.(return_stack) = Z.to_nat RETSTACKSZ ->
  (forall startTxtPtr arg,
      4 <= s.(returnSP) <= RETSTACKSZ - 1 ->
      dowhile startTxtPtr arg s = Ret tt (while_pushed startTxtPtr arg s)
      /\ (while_pushed startTxtPtr arg s).(skipFlag) = s.(skipFlag) || (u8 arg =? 0))
  /\ (forall status line txt,
         0 <= s.(returnSP) -> s.(returnSP) + 4 < RETSTACKSZ ->
         aget s.(return_stack) (s.(returnSP) + 4) = Some (RInt WHILEFRAME) ->
         aget s.(return_stack) (s.(returnSP) + 3) = Some (RInt status) ->
         aget s.(return_stack) (s.(returnSP) + 2) = Some (RInt line) ->
         aget s.(return_stack) (s.(returnSP) + 1) = Some (RTxt txt) ->
         line = -1 \/ 0 <= line < Z.of_nat (List.length s.(program)) ->
         (status = 0 ->
          doendwhile s = Ret RET_SUCCESS (set_returnSP (s.(returnSP) + 4) s))
         /\ (status = 1 ->
             doendwhile s
             = Ret RET_SUCCESS (set_returnSP (s.(returnSP) + 4) (set_skipFlag false s)))
         /\ (status = 2 ->
             doendwhile s
             = Ret RET_SUCCESS (set_returnSP (s.(returnSP) + 4) (resumed line txt s)))).
Proof.
  intros Hc Hlen. split.
  - intros t arg Hsp. split; [ apply dowhile_Ret; assumption | reflexivity ].
  - intros status line txt Hsp Hlt Htag Hst Hline Htxt Hrange.
    unfold doendwhile.
    rewrite (bind_Ret _ _ _ _ _ (rs_Ret 4 s _ Htag Hlt)).
    cbn [rv_is]. rewrite Z.eqb_refl. cbv beta match delta [negb].
    mstep. rewrite Hc. mstep.
    rewrite (bind_Ret (rs 3) _ _ _ _ (rs_Ret 3 s _ Hst ltac:(lia))).
    cbn [rv_is].
    split; [ | split ]; intros ->; cbn [Z.eqb Pos.eqb]; cbv beta iota; mstep.
    + apply pop_returns_Ret4 with (v1 := RTxt txt) (v2 := RInt line) (v3 := RInt 0)
                                  (v4 := RInt WHILEFRAME); assumption.
    + rewrite (pop_returns_Ret4 (set_skipFlag false s) (RTxt txt) (RInt line) (RInt 1)
                 (RInt WHILEFRAME)); simpl_state; try assumption. reflexivity.
    + rewrite (bind_Ret (rs 2) _ _ _ _ (rs_Ret 2 s _ Hline ltac:(lia))).
      cbn [rv_int]. mstep.
      rewrite (bind_Ret (rs 1) _ _ _ _ (rs_Ret 1 s _ Htxt ltac:(lia))).
      cbn [rv_txt]. mstep.
      rewrite (bind_Ret _ _ _ _ _ (backtotop_Ret s line txt Hrange)).
      rewrite (pop_returns_Ret4 (resumed line txt s) (RTxt txt) (RInt line) (RInt 2)
                 (RInt WHILEFRAME)); unfold resumed; simpl_state; try assumption.
      reflexivity.
Qed.

End While.

(** ** Closing statements without their frame *)

Section Closers.

Context {pf : Platform}.

(** X8: [else], [endif], [endfor] and [endwhile] look for the tag of their
    frame at a fixed distance above the return stack pointer before they do
    anything else, when interpreting and when compiling.  If the slot holds
    something else (no frame is open, or the innermost open frame is of
    another kind) they print [no if], [no for] or [no while], return the
    error flag, and leave the return stack and everything else as it was. *)
Theorem closers_check_their_frame (s : state) :
  (forall v,
      rs 3 s = Ret v s -> rv_is v IFFRAME = false ->
      doelse s = Ret RET_ERROR (set_out (s.(out) ++ chars "?no if") s)
      /\ doendif s = Ret RET_ERROR (set_out (s.(out) ++ chars "?no if") s))
  /\ (forall v,
         rs 5 s = Ret v s -> rv_is v FORFRAME_W = false -> rv_is v FORFRAME_B = false ->
         doendfor s = Ret RET_ERROR (set_out (s.(out) ++ chars "?no for") s))
  /\ (forall v,
         rs 4 s = Ret v s -> rv_is v WHILEFRAME = false ->
         doendwhile s = Ret RET_ERROR (set_out (s.(out) ++ chars "?no while") s)).
Proof.
  split; [ | split ].
  - intros v Hrs Hv. split.
    + unfold doelse. rewrite (bind_Ret _ _ _ _ _ Hrs), Hv. cbn [negb].
      erewrite bind_Ret by (apply error_Ret; reflexivity). reflexivity.
    + unfold doendif. rewrite (bind_Ret _ _ _ _ _ Hrs), Hv. cbn [negb].
      erewrite bind_Ret by (apply error_Ret; reflexivity). reflexivity.
  - intros v Hrs Hw Hb.
    unfold doendfor. rewrite (bind_Ret _ _ _ _ _ Hrs). mstep. rewrite Hw, Hb.
    cbn [negb orb].
    erewrite bind_Ret by (apply error_Ret; reflexivity). reflexivity.
  - intros v Hrs Hv.
    unfold doendwhile. rewrite (bind_Ret _ _ _ _ _ Hrs), Hv. cbn [negb].
    erewrite bind_Ret by (apply error_Ret; reflexivity). reflexivity.
Qed.

End Closers.

(** ** Assignment and reading back *)

Lemma kept_refl (v : var_t) : kept v v.
Proof. unfold kept. auto. Qed.

Lemma store_word_load (vs : list var_t) (a x : Z) :
  forall vs', store_word vs a x = Some vs' -> load_word vs' a = Some x.
Proof.
  induction vs as [ | v r IH ]; intros vs' H; cbn [store_word] in H; [ discriminate | ].
  destruct (v_data v) as [ val | val | body size elems ] eqn:Hd.
  - destruct (Z.eqb_spec a (cell_addr v)) as [E | NE].
    + injection H as <-. cbn [load_word v_data]. unfold cell_addr in *. cbn [v_addr].
      rewrite E, Z.eqb_refl. reflexivity.
    + destruct (store_word r a x) as [ r' | ] eqn:Hr; [ | discriminate ].
      injection H as <-. cbn [load_word]. rewrite Hd.
      destruct (Z.eqb_spec a (cell_addr v)); [ contradiction | ]. apply IH. reflexivity.
  - destruct (store_word r a x) as [ r' | ] eqn:Hr; [ | discriminate ].
    injection H as <-. cbn [load_word]. rewrite Hd. apply IH. reflexivity.
  - destruct ((base_type (v_type v) =? TYPE_WORD) && (body <=? a)
              && (a <? body + SZ_INT * Z.of_nat (List.length elems))
              && ((a - body) mod SZ_INT =? 0)) eqn:Hin.
    + injection H as <-. cbn [load_word v_data v_type]. rewrite upd_length, Hin.
      rewrite nth_error_upd_same; [ reflexivity | ].
      apply andb_prop in Hin. destruct Hin as [Hin _].
      apply andb_prop in Hin. destruct Hin as [Hin Hlt].
      apply andb_prop in Hin. destruct Hin as [_ Hle].
      apply Z.leb_le in Hle. apply Z.ltb_lt in Hlt. unfold SZ_INT in *.
      apply Nat2Z.inj_lt. rewrite Z2Nat.id by (apply Z.div_pos; lia).
      apply Z.div_lt_upper_bound; lia.
    + destruct (store_word r a x) as [ r' | ] eqn:Hr; [ | discriminate ].
      injection H as <-. cbn [load_word]. rewrite Hd, Hin. apply IH. reflexivity.
Qed.

Lemma store_byte_load (vs : list var_t) (a x : Z) :
  forall vs', store_byte vs a x = Some vs' -> load_byte vs' a = Some (u8 x).
Proof.
  induction vs as [ | v r IH ]; intros vs' H; cbn [store_byte] in H; [ discriminate | ].
  destruct (v_data v) as [ val | val | body size elems ] eqn:Hd.
  - destruct (store_byte r a x) as [ r' | ] eqn:Hr; [ | discriminate ].
    injection H as <-. cbn [load_byte]. rewrite Hd. apply IH. reflexivity.
  - destruct (Z.eqb_spec a (cell_addr v)) as [E | NE].
    + injection H as <-. cbn [load_byte v_data]. unfold cell_addr in *. cbn [v_addr].
      rewrite E, Z.eqb_refl. reflexivity.
    + destruct (store_byte r a x) as [ r' | ] eqn:Hr; [ | discriminate ].
      injection H as <-. cbn [load_byte]. rewrite Hd.
      destruct (Z.eqb_spec a (cell_addr v)); [ contradiction | ]. apply IH. reflexivity.
  - destruct ((base_type (v_type v) =? TYPE_BYTE) && (body <=? a)
              && (a <? body + Z.of_nat (List.length elems))) eqn:Hin.
    + injection H as <-. cbn [load_byte v_data v_type]. rewrite upd_length, Hin.
      rewrite nth_error_upd_same; [ reflexivity | ].
      apply andb_prop in Hin. destruct Hin as [Hin Hlt].
      apply andb_prop in Hin. destruct Hin as [_ Hle].
      apply Z.leb_le in Hle. apply Z.ltb_lt in Hlt. lia.
    + destruct (store_byte r a x) as [ r' | ] eqn:Hr; [ | discriminate ].
      injection H as <-. cbn [load_byte]. rewrite Hd, Hin. apply IH. reflexivity.
Qed.

Lemma store_word_kept (vs : list var_t) (a x : Z) :
  forall vs', store_word vs a x = Some vs' -> Forall2 kept vs vs'.
Proof.
  induction vs as [ | v r IH ]; intros vs' H; cbn [store_word] in H; [ discriminate | ].
  assert (Hrefl : Forall2 kept r r).
  { clear. induction r; constructor; auto using kept_refl. }
  assert (Hkeep : option_map (cons v) (store_word r a x) = Some vs' -> Forall2 kept (v :: r) vs').
  { destruct (store_word r a x) as [ r' | ]; [ | discriminate ].
    intros E. injection E as <-. constructor; [ apply kept_refl | apply IH; reflexivity ]. }
  destruct (v_data v) as [ val | val | body size elems ] eqn:Hd.
  - destruct (a =? cell_addr v); [ | exact (Hkeep H) ].
    injection H as <-. constructor; [ | exact Hrefl ].
    unfold kept, second_word, first_word. cbn [v_name v_type v_addr v_data]. rewrite Hd.
    repeat split; auto; try (intros Hn; contradiction).
  - exact (Hkeep H).
  - destruct ((base_type (v_type v) =? TYPE_WORD) && (body <=? a)
              && (a <? body + SZ_INT * Z.of_nat (List.length elems))
              && ((a - body) mod SZ_INT =? 0)); [ | exact (Hkeep H) ].
    injection H as <-. constructor; [ | exact Hrefl ].
    unfold kept, second_word, first_word. cbn [v_name v_type v_addr v_data]. rewrite Hd.
    repeat split; auto.
Qed.

Lemma store_byte_kept (vs : list var_t) (a x : Z) :
  forall vs', store_byte vs a x = Some vs' -> Forall2 kept vs vs'.
Proof.
  induction vs as [ | v r IH ]; intros vs' H; cbn [store_byte] in H; [ discriminate | ].
  assert (Hrefl : Forall2 kept r r).
  { clear. induction r; constructor; auto using kept_refl. }
  assert (Hkeep : option_map (cons v) (store_byte r a x) = Some vs' -> Forall2 kept (v :: r) vs').
  { destruct (store_byte r a x) as [ r' | ]; [ | discriminate ].
    intros E. injection E as <-. constructor; [ apply kept_refl | apply IH; reflexivity ]. }
  destruct (v_data v) as [ val | val | body size elems ] eqn:Hd.
  - exact (Hkeep H).
  - destruct (a =? cell_addr v); [ | exact (Hkeep H) ].
    injection H as <-. constructor; [ | exact Hrefl ].
    unfold kept, second_word, first_word. cbn [v_name v_type v_addr v_data]. rewrite Hd.
    repeat split; auto; try (intros Hn; contradiction).
  - destruct ((base_type (v_type v) =? TYPE_BYTE) && (body <=? a)
              && (a <? body + Z.of_nat (List.length elems))); [ | exact (Hkeep H) ].
    injection H as <-. constructor; [ | exact Hrefl ].
    unfold kept, second_word, first_word. cbn [v_name v_type v_addr v_data]. rewrite Hd.
    repeat split; auto.
Qed.



Lemma kept_upd (vs : list var_t) (i : nat) (v v' : var_t) :
  nth_error vs i = Some v -> kept v v' -> Forall2 kept vs (upd vs i v').
Proof.
  revert i. induction vs as [ | w r IH ]; intros i Hi Hk; [ destruct i; discriminate | ].
  destruct i as [ | i ]; cbn [nth_error upd] in *.
  - injection Hi as ->. constructor; [ exact Hk | ].
    clear. induction r; constructor; auto using kept_refl.
  - constructor; [ apply kept_refl | apply IH; assumption ].
Qed.







Lemma getintvar_scalar (s : state) (name : string) (i : nat) (local : bool) (ptr : var_t) :
  s.(compile) = false ->
  s.(compiletimelookup) = false ->
  findintvar name false s = (Some i, local) ->
  nth_error s.(vars) i = Some ptr ->
  is_array_type ptr.(v_type) = false ->
  getintvar name (-1) false s
  = (if base_type ptr.(v_type) =? TYPE_WORD
     then val <- scalar_word ptr ;; ret (Some (val, ptr.(v_type)))
     else val <- scalar_byte ptr ;; ret (Some (val, ptr.(v_type)))) s.
Proof.
  intros Hc Hl Hf Hnth Harr. unfold getintvar, nth_var. mstep. rewrite Hf. mstep.
  rewrite Hnth. mstep. rewrite Hl. mstep. rewrite Hc, Harr. cbn [negb Z.eqb].
  cbv beta iota.
  destruct (base_type (v_type ptr) =? TYPE_WORD); reflexivity.
Qed.



(** ** Subscripts, constants and unknown names *)

(** X10: subscripts are checked when interpreting.  For an array variable
    of [size] elements, an index below 0 or not below [size] makes both the
    assignment and the read print [bad idx] and fail; nothing is written.
    An array used without a subscript cannot be assigned to, and a scalar
    cannot be subscripted. *)
Theorem subscripts_are_checked (s : state) (name : string) (i : nat) (local : bool)
    (ptr : var_t) :
  s.(compile) = false ->
  s.(compiletimelookup) = false ->
  findintvar name false s = (Some i, local) ->
  nth_error s.(vars) i = Some ptr ->
  is_const_type ptr.(v_type) = false ->
  (forall body size idx value,
      is_array_type ptr.(v_type) = true ->
      first_word ptr = Some body -> second_word ptr = Some size ->
      idx < 0 \/ size <= idx ->
      setintvar name idx value s = Ret RET_ERROR (set_out (s.(out) ++ chars "?bad idx") s)
      /\ (idx <> -1 ->
          getintvar name idx false s = Ret None (set_out (s.(out) ++ chars "?bad idx") s)))
  /\ (forall idx value,
         is_array_type ptr.(v_type) = false -> idx <> -1 ->
         setintvar name idx value s = Ret RET_ERROR (set_out (s.(out) ++ chars "?bad idx") s)
         /\ getintvar name idx false s
            = Ret None (set_out (s.(out) ++ chars "?bad idx") s)).
Proof.
  intros Hc Hl Hf Hnth Hconst. split.
  - intros body size idx value Harr Hb Hs Hidx. split.
    + unfold setintvar, nth_var, scalar_word, array_size. mstep. rewrite Hf. mstep.
      rewrite Hnth. mstep. rewrite Hconst, Harr. cbn [negb].
      destruct (Z.eqb_spec idx (-1)).
      * erewrite bind_Ret by (apply error_Ret; reflexivity). reflexivity.
      * rewrite Hb. mstep. rewrite Hs. mstep. rewrite Hc.
        assert (Hout : (idx <? 0) || (size <=? idx) = true).
        { destruct (Z.ltb_spec idx 0); [ reflexivity | ].
          destruct (Z.leb_spec size idx); [ reflexivity | lia ]. }
        rewrite Hout.
        erewrite bind_Ret by (apply error_Ret; reflexivity). reflexivity.
    + intros Hne.
      unfold getintvar, nth_var, scalar_word, array_size. mstep. rewrite Hf. mstep.
      rewrite Hnth. mstep. rewrite Hl. mstep. rewrite Hc, Harr. cbn [negb].
      destruct (Z.eqb_spec idx (-1)); [ contradiction | ].
      cbn [andb orb]. mstep. rewrite Hb. mstep. rewrite Hs. mstep.
      assert (Hout : (idx <? 0) || (size <=? idx) = true).
      { destruct (Z.ltb_spec idx 0); [ reflexivity | ].
        destruct (Z.leb_spec size idx); [ reflexivity | lia ]. }
      rewrite Hout.
      erewrite bind_Ret by (apply error_Ret; reflexivity). reflexivity.
  - intros idx value Harr Hne. split.
    + unfold setintvar, nth_var. mstep. rewrite Hf. mstep.
      rewrite Hnth. mstep. rewrite Hconst, Harr. cbn [negb].
      destruct (Z.eqb_spec idx (-1)); [ contradiction | ]. cbn [negb].
      erewrite bind_Ret by (apply error_Ret; reflexivity). reflexivity.
    + unfold getintvar, nth_var. mstep. rewrite Hf. mstep.
      rewrite Hnth. mstep. rewrite Hl. mstep. rewrite Hc, Harr. cbn [negb].
      destruct (Z.eqb_spec idx (-1)); [ contradiction | ]. cbn [negb].
      erewrite bind_Ret by (apply error_Ret; reflexivity). reflexivity.
Qed.

(** X11: names that cannot be assigned.  Assigning to a name that
    [findintvar] does not find prints [expect var] and fails, and so does
    reading it; assigning to a constant prints [const] and fails, when
    interpreting and when compiling.  In both cases nothing but the console
    has changed. *)
Theorem unknown_and_constant_names (s : state) (name : string) (idx value : Z) :
  (fst (findintvar name false s) = None ->
   setintvar name idx value s = Ret RET_ERROR (set_out (s.(out) ++ chars "?expect var") s)
   /\ forall address,
        getintvar name idx address s
        = Ret None (set_out (s.(out) ++ chars "?expect var") s))
  /\ (forall i local ptr,
         findintvar name false s = (Some i, local) ->
         nth_error s.(vars) i = Some ptr ->
         is_const_type ptr.(v_type) = true ->
         setintvar name idx value s = Ret RET_ERROR (set_out (s.(out) ++ chars "?const") s)).
Proof.
  split.
  - intros Hf. destruct (findintvar name false s) as [[ i | ] local] eqn:E;
      [ discriminate | ].
    split; [ | intros address ].
    + unfold setintvar. mstep. rewrite E.
      erewrite bind_Ret by (apply error_Ret; reflexivity). reflexivity.
    + unfold getintvar. mstep. rewrite E.
      erewrite bind_Ret by (apply error_Ret; reflexivity). reflexivity.
  - intros i local ptr Hf Hnth Hconst.
    unfold setintvar, nth_var. mstep. rewrite Hf. mstep. rewrite Hnth. mstep.
    rewrite Hconst.
    erewrite bind_Ret by (apply error_Ret; reflexivity). reflexivity.
Qed.

(** ** Declarations *)

Lemma strn_idem (n : nat) : forall p, strn n (strn n p) = strn n p.
Proof.
  induction n as [ | n IH ]; intros p; [ reflexivity | ].
  destruct p as [ | c r ]; cbn [strn]; [ reflexivity | ].
  destruct (is_nul c) eqn:E; [ reflexivity | ].
  cbn [strn]. rewrite E, IH. reflexivity.
Qed.

Lemma same_name_strn (name : string) : same_name name (strn VARNUMCHARS name) = true.
Proof. unfold same_name. rewrite strn_idem. apply String.eqb_refl. Qed.

Lemma find_from_app_new (name : string) (v : var_t) (xs : list var_t) :
  forall i,
    find_from name xs i = None ->
    same_name name v.(v_name) = true ->
    find_from name (xs ++ [v]) i = Some (i + List.length xs)%nat.
Proof.
  induction xs as [ | x r IH ]; intros i Hnone Hv; cbn [app find_from List.length] in *.
  - rewrite Hv. f_equal. lia.
  - destruct (same_name name (v_name x)); [ discriminate | ].
    rewrite IH by assumption. f_equal. lia.
Qed.

Lemma find_global_app_new (name : string) (v : var_t) (xs : list var_t) :
  forall i,
    find_global name xs i = None ->
    Forall (fun x => is_marker x = false) xs ->
    is_marker v = false ->
    same_name name v.(v_name) = true ->
    find_global name (xs ++ [v]) i = Some (i + List.length xs)%nat.
Proof.
  induction xs as [ | x r IH ]; intros i Hnone Hplain Hv Hname;
    cbn [app find_global List.length] in *.
  - rewrite Hv, Hname. f_equal. lia.
  - inversion Hplain as [ | ? ? Hx Hr ]; subst. rewrite Hx in *.
    destruct (same_name name (v_name x)); [ discriminate | ].
    rewrite IH by assumption. f_equal. lia.
Qed.

Section Declaring.

Context {pf : Platform}.

Lemma alloc1_Ret (bytes : Z) (s : state) :
  0 <= bytes < 4294967296 ->
  0 <= s.(heap1Ptr) - bytes ->
  HEAP1LIM <= s.(heap1Ptr) - bytes ->
  alloc1 bytes s = Ret (s.(heap1Ptr) - bytes) (set_heap1Ptr (s.(heap1Ptr) - bytes) s).
Proof.
  intros Hb Hp Hlim. unfold alloc1. mstep.
  destruct (Z.ltb_spec bytes 0); [ lia | ].
  destruct (Z.leb_spec 4294967296 bytes); [ lia | ].
  destruct (Z.ltb_spec (heap1Ptr s - bytes) 0); [ lia | ].
  cbn [orb].
  destruct (Z.ltb_spec (heap1Ptr s - bytes) HEAP1LIM); [ lia | ].
  reflexivity.
Qed.

Lemma createintvar_scalar (n : nat) (s : state) (name : string) (type sz value : Z) :
  s.(compile) = false ->
  type = TYPE_WORD \/ type = TYPE_BYTE \/ type = TYPE_CONST ->
  fst (findintvar name true s) = None ->
  1 <= sz ->
  0 <= s.(heap1Ptr) - scalar_bytes type ->
  HEAP1LIM <= s.(heap1Ptr) - scalar_bytes type ->
  createintvar (S n) name type 0 sz value 0 s = Ret RET_SUCCESS (declared name type value s).
Proof.
  intros Hc Htype Hfree Hsz Hp Hlim. cbn [createintvar]. unfold createintvar_body. mstep.
  rewrite Hfree. destruct (Z.ltb_spec sz 1); [ lia | ].
  mstep. rewrite Hc. cbn [Z.eqb]. cbv beta iota.
  unfold declared, scalar_entry, type_byte.
  destruct Htype as [ -> | [ -> | -> ] ];
    cbn [Z.eqb Pos.eqb TYPE_WORD TYPE_BYTE TYPE_CONST] in *; cbv beta iota;
    (erewrite bind_Ret
       by (apply alloc1_Ret; unfold scalar_bytes, SZ_VAR, SZ_INT in *;
           cbn [Z.eqb Pos.eqb TYPE_WORD TYPE_BYTE TYPE_CONST] in *; lia));
    unfold append_var; mstep; unfold ret, modify; simpl_state;
    destruct (vars s); reflexivity.
Qed.

(** X12: declaring a scalar and using it.  When interpreting, a [word],
    [byte] or [const] declaration of a name that is not yet declared in the
    current scope succeeds if arena 1 has room for the entry; the entry is
    appended to the variable table under the first four characters of the
    name, and arena 1 shrinks by the size of the entry.  What a lookup then
    finds depends on the local scope.  If the table was empty, or the local
    scope starts inside it, the name is found as a local, and reading it
    yields the initial value (its low eight bits for a byte).  If the table
    is not empty and there is no local scope (the top level after a call
    has returned), the name is never found as a local; it is found as a
    global, and read with its initial value, if the table holds no frame
    marker and no older global of that name. *)
Theorem declare_then_read (n : nat) (s : state) (name : string) (type sz value : Z) :
  s.(compile) = false ->
  s.(compiletimelookup) = false ->
  type = TYPE_WORD \/ type = TYPE_BYTE \/ type = TYPE_CONST ->
  fst (findintvar name true s) = None ->
  1 <= sz ->
  0 <= s.(heap1Ptr) - scalar_bytes type ->
  HEAP1LIM <= s.(heap1Ptr) - scalar_bytes type ->
  createintvar (S n) name type 0 sz value 0 s = Ret RET_SUCCESS (declared name type value s)
  /\ (declared name type value s).(vars) = s.(vars) ++ [scalar_entry name type value s]
  /\ (declared name type value s).(heap1Ptr) = s.(heap1Ptr) - scalar_bytes type
  /\ (match s.(varslocal) with
      | Some l => (l <= List.length s.(vars))%nat
      | None => s.(vars) = []
      end ->
      findintvar name false (declared name type value s)
      = (Some (List.length s.(vars)), true)
      /\ getintvar name (-1) false (declared name type value s)
         = Ret (Some (stored (type_byte type 0) value, type_byte type 0))
             (declared name type value s))
  /\ (s.(varslocal) = None -> s.(vars) <> [] ->
      fst (findintvar name true (declared name type value s)) = None
      /\ (find_global name s.(vars) 0 = None ->
          Forall (fun v => is_marker v = false) s.(vars) ->
          is_marker (scalar_entry name type value s) = false ->
          findintvar name false (declared name type value s)
          = (Some (List.length s.(vars)), false)
          /\ getintvar name (-1) false (declared name type value s)
             = Ret (Some (stored (type_byte type 0) value, type_byte type 0))
                 (declared name type value s))).
Proof.
  intros Hc Hl Htype Hfree Hsz Hp Hlim.
  assert (Hread : forall local,
             findintvar name false (declared name type value s)
             = (Some (List.length s.(vars)), local) ->
             getintvar name (-1) false (declared name type value s)
             = Ret (Some (stored (type_byte type 0) value, type_byte type 0))
                 (declared name type value s)).
  { intros local Hfind.
    erewrite getintvar_scalar with (i := List.length (vars s)) (local := local)
                                   (ptr := scalar_entry name type value s).
    - unfold scalar_entry, stored, type_byte.
      destruct Htype as [ -> | [ -> | -> ] ]; reflexivity.
    - exact Hc.
    - exact Hl.
    - exact Hfind.
    - unfold declared. simpl_state. rewrite nth_error_app2 by lia.
      rewrite Nat.sub_diag. reflexivity.
    - unfold scalar_entry, type_byte.
      destruct Htype as [ -> | [ -> | -> ] ]; reflexivity. }
  split; [ apply createintvar_scalar; assumption | ].
  split; [ reflexivity | split; [ reflexivity | split ] ].
  - intros Hscope.
    assert (Hfind : findintvar name false (declared name type value s)
                    = (Some (List.length s.(vars)), true)).
    { unfold findintvar in *. unfold declared. simpl_state.
      destruct (vars s) as [ | v0 r ] eqn:Hvars.
      - cbn [app skipn find_from scalar_entry v_name List.length].
        rewrite same_name_strn. reflexivity.
      - destruct (varslocal s) as [ l | ]; [ | discriminate ].
        rewrite skipn_app.
        replace (l - List.length (v0 :: r))%nat with O by lia.
        cbn [skipn].
        destruct (find_from name (skipn l (v0 :: r)) l) eqn:Hnone; [ discriminate | ].
        rewrite find_from_app_new;
          [ | exact Hnone | cbn [scalar_entry v_name]; apply same_name_strn ].
        rewrite length_skipn. do 2 f_equal. lia. }
    split; [ exact Hfind | exact (Hread true Hfind) ].
  - intros Hnoscope Hvars.
    assert (Hlocal : varslocal (declared name type value s) = None).
    { unfold declared. simpl_state. destruct (vars s); [ contradiction | exact Hnoscope ]. }
    split.
    + unfold findintvar. rewrite Hlocal. reflexivity.
    + intros Hnew Hplain Hentry.
      assert (Hfind : findintvar name false (declared name type value s)
                      = (Some (List.length s.(vars)), false)).
      { unfold findintvar. rewrite Hlocal.
        change (vars (declared name type value s))
          with (vars s ++ [scalar_entry name type value s]).
        rewrite (find_global_app_new name _ _ 0%nat Hnew Hplain Hentry
                   (same_name_strn name)).
        reflexivity. }
      split; [ exact Hfind | exact (Hread false Hfind) ].
Qed.

End Declaring.

(** ** Scopes *)

Lemma find_from_same_prefix (name known : string) (vs : list var_t) :
  strn VARNUMCHARS name = strn VARNUMCHARS known ->
  forall i, find_from name vs i = find_from known vs i.
Proof.
  intros Hsame. induction vs as [ | v r IH ]; intros i; cbn [find_from]; [ reflexivity | ].
  unfold same_name. rewrite Hsame, IH. reflexivity.
Qed.

Lemma find_global_same_prefix (name known : string) (vs : list var_t) :
  strn VARNUMCHARS name = strn VARNUMCHARS known ->
  forall i, find_global name vs i = find_global known vs i.
Proof.
  intros Hsame. induction vs as [ | v r IH ]; intros i; cbn [find_global]; [ reflexivity | ].
  unfold same_name. rewrite Hsame, IH. reflexivity.
Qed.

Lemma findintvar_same_prefix (name known : string) (local : bool) (s : state) :
  strn VARNUMCHARS name = strn VARNUMCHARS known ->
  findintvar name local s = findintvar known local s.
Proof.
  intros Hsame. unfold findintvar.
  rewrite (find_global_same_prefix name known _ Hsame).
  destruct (varslocal s) as [ l | ]; [ | reflexivity ].
  rewrite (find_from_same_prefix name known _ Hsame). reflexivity.
Qed.

Lemma find_global_app_old (name : string) (v : var_t) (xs : list var_t) :
  forall i j, find_global name xs i = Some j -> find_global name (xs ++ [v]) i = Some j.
Proof.
  induction xs as [ | x r IH ]; intros i j H; cbn [app find_global] in *; [ discriminate | ].
  destruct (is_marker x); [ discriminate | ].
  destruct (same_name name (v_name x)); [ exact H | ].
  apply IH. exact H.
Qed.

Lemma last_marker_keep (vs : list var_t) :
  Forall (fun v => is_marker v = false) vs ->
  forall i found, last_marker vs i found = found.
Proof.
  induction 1 as [ | v r Hv Hr IH ]; intros i found; cbn [last_marker]; [ reflexivity | ].
  rewrite Hv. apply IH.
Qed.

Lemma last_marker_last (front back : list var_t) (m : var_t) :
  is_marker m = true ->
  Forall (fun v => is_marker v = false) back ->
  forall i found, last_marker (front ++ m :: back) i found = Some (i + List.length front)%nat.
Proof.
  intros Hm Hback. induction front as [ | f front IH ]; intros i found;
    cbn [app last_marker List.length].
  - rewrite Hm, (last_marker_keep back Hback). f_equal. lia.
  - rewrite IH. f_equal. lia.
Qed.

Lemma find_from_found (name : string) (vs : list var_t) :
  forall k i,
    find_from name vs k = Some i ->
    (k <= i)%nat
    /\ exists v, nth_error vs (i - k) = Some v /\ same_name name v.(v_name) = true.
Proof.
  induction vs as [ | x r IH ]; intros k i H; cbn [find_from] in H; [ discriminate | ].
  destruct (same_name name (v_name x)) eqn:E.
  - injection H as <-. split; [ lia | ]. exists x. rewrite Nat.sub_diag. split; [ reflexivity | exact E ].
  - destruct (IH _ _ H) as [Hle [v [Hnth Hv]]]. split; [ lia | ].
    exists v. replace (i - k)%nat with (S (i - S k)) by lia. split; assumption.
Qed.

Lemma find_global_found (name : string) (vs : list var_t) :
  forall k i,
    find_global name vs k = Some i ->
    (k <= i)%nat
    /\ Forall (fun v => is_marker v = false) (firstn (S (i - k)) vs)
    /\ exists v, nth_error vs (i - k) = Some v /\ same_name name v.(v_name) = true.
Proof.
  induction vs as [ | x r IH ]; intros k i H; cbn [find_global] in H; [ discriminate | ].
  destruct (is_marker x) eqn:Em; [ discriminate | ].
  destruct (same_name name (v_name x)) eqn:E.
  - injection H as <-. split; [ lia | ]. rewrite Nat.sub_diag. split.
    + cbn [firstn]. repeat constructor. exact Em.
    + exists x. split; [ reflexivity | exact E ].
  - destruct (IH _ _ H) as [Hle [Hall [v [Hnth Hv]]]]. split; [ lia | ].
    replace (i - k)%nat with (S (i - S k)) by lia. split.
    + cbn [firstn]. constructor; [ exact Em | exact Hall ].
    + exists v. split; assumption.
Qed.

Section Scopes.

Context {pf : Platform}.

(** X13: a name is its first four characters.  Two names that agree in
    their first four characters denote the same variable wherever a
    variable is looked up, and declaring one while the other is declared in
    the current scope is refused with the message for a redefinition,
    whatever is declared and in either mode; nothing is allocated. *)
Theorem redeclaration_is_refused (n : nat) (s : state) (name known : string)
    (type isarray sz value bodyptr : Z) :
  strn VARNUMCHARS name = strn VARNUMCHARS known ->
  (forall local, findintvar name local s = findintvar known local s)
  /\ (fst (findintvar known true s) <> None ->
      createintvar (S n) name type isarray sz value bodyptr s
      = Ret RET_ERROR (set_out (s.(out) ++ chars "?redef") s)).
Proof.
  intros Hsame. split.
  - intros local. apply findintvar_same_prefix. exact Hsame.
  - intros Hknown. cbn [createintvar]. unfold createintvar_body. mstep.
    rewrite (findintvar_same_prefix name known true s Hsame).
    destruct (fst (findintvar known true s)) as [ i | ]; [ | contradiction ].
    erewrite bind_Ret by (apply error_Ret; reflexivity).
    reflexivity.
Qed.

(** X14: a call frame in the variable table.  [vars_markcallframe] appends
    a marker that remembers the end of the table and makes it the start of
    the local scope; when locals have been declared behind it,
    [vars_deletecallframe] cuts the table back to what it was at the mark
    and gives their memory back.  The local scope is then the frame of the
    caller: it starts at the last marker that is left in the table, so at
    the marker of the enclosing call when the call came from inside a
    subroutine, and there is none at all when the call came from the top
    level, whatever the scope was before the call. *)
Theorem call_frame_round_trip (s : state) :
  0 <= s.(heap1Ptr) - (SZ_VAR + SZ_INT) ->
  HEAP1LIM <= s.(heap1Ptr) - (SZ_VAR + SZ_INT) ->
  Forall (fun v => v.(v_addr) <> 0) s.(vars) ->
  exists marked,
    vars_markcallframe s = Ret tt marked
    /\ marked.(vars)
       = s.(vars) ++ [mkVar (s.(heap1Ptr) - (SZ_VAR + SZ_INT)) "----" TYPE_WORD
                        (IntCell (varsend_addr s.(vars)))]
    /\ marked.(varslocal) = Some (List.length s.(vars))
    /\ marked.(calllevel) = wrap (s.(calllevel) + 1)
    /\ forall locals s1,
         s1.(vars) = marked.(vars) ++ locals ->
         s1.(varslocal) = marked.(varslocal) ->
         NoDup (map v_addr s1.(vars)) ->
         s1.(heap1Ptr) = varsend_addr s1.(vars) ->
         exists s2,
           vars_deletecallframe s1 = Ret tt s2
           /\ s2.(vars) = s.(vars)
           /\ s2.(calllevel) = wrap (s1.(calllevel) - 1)
           /\ s2.(heap1Ptr) = match s.(vars) with
                              | [] => HEAP1TOP
                              | _ => varsend_addr s.(vars)
                              end
           /\ (Forall (fun v => is_marker v = false) s.(vars) -> s2.(varslocal) = None)
           /\ (forall front m back,
                  s.(vars) = front ++ m :: back ->
                  is_marker m = true ->
                  Forall (fun v => is_marker v = false) back ->
                  s2.(varslocal) = Some (List.length front)).
Proof.
  intros Hp Hlim Hnz.
  set (marker := mkVar (s.(heap1Ptr) - (SZ_VAR + SZ_INT)) "----" TYPE_WORD
                   (IntCell (varsend_addr s.(vars)))).
  exists (set_vars (s.(vars) ++ [marker])
            (set_varslocal (Some (List.length s.(vars)))
               (set_heap1Ptr (s.(heap1Ptr) - (SZ_VAR + SZ_INT))
                  (set_calllevel (wrap (s.(calllevel) + 1)) s)))).
  split; [ | split; [ reflexivity | split; [ reflexivity | split; [ reflexivity | ] ] ] ].
  - unfold vars_markcallframe. mstep.
    rewrite (bind_Ret (alloc1 (SZ_VAR + SZ_INT)) _ _ _ _
               (alloc1_Ret (SZ_VAR + SZ_INT) (set_calllevel (wrap (calllevel s + 1)) s)
                  ltac:(unfold SZ_VAR, SZ_INT; lia) Hp Hlim)).
    mstep. simpl_state. unfold append_var, modify. simpl_state.
    destruct (vars s); reflexivity.
  - simpl_state. intros locals s1 Hvars Hlocal Hnodup Hheap.
    rewrite <- app_assoc in Hvars. cbn [app] in Hvars.
    exists (frame_dropped (vars s) s1). split.
    + apply (vars_deletecallframe_Ret s1 (vars s) locals marker);
        [ exact Hvars | exact Hlocal | reflexivity | exact Hnodup | exact Hnz ].
    + unfold frame_dropped. simpl_state.
      split; [ reflexivity | split; [ reflexivity | split; [ | split ] ] ].
      * destruct (vars s) as [ | v0 r ] eqn:E; [ reflexivity | ].
        rewrite Hheap. lia.
      * intros Hno. apply last_marker_keep. exact Hno.
      * intros front m back Hsplit Hm Hback. rewrite Hsplit.
        apply (last_marker_last front back m Hm Hback).
Qed.

(** X15: a declaration at the top level after a call.  When no frame
    marker is left the local scope is empty although the globals are still
    there, so the declaration of a scalar whose name is that of a visible
    global is accepted and a second entry is appended; a lookup of the name
    still yields the old entry. *)
Theorem redeclared_global_stays_hidden (n : nat) (s : state) (name : string)
    (type sz value : Z) (i : nat) :
  s.(compile) = false ->
  s.(varslocal) = None ->
  find_global name s.(vars) 0 = Some i ->
  type = TYPE_WORD \/ type = TYPE_BYTE \/ type = TYPE_CONST ->
  1 <= sz ->
  0 <= s.(heap1Ptr) - scalar_bytes type ->
  HEAP1LIM <= s.(heap1Ptr) - scalar_bytes type ->
  createintvar (S n) name type 0 sz value 0 s = Ret RET_SUCCESS (declared name type value s)
  /\ (declared name type value s).(vars) = s.(vars) ++ [scalar_entry name type value s]
  /\ (i < List.length s.(vars))%nat
  /\ findintvar name false (declared name type value s) = (Some i, false).
Proof.
  intros Hc Hvl Hglobal Htype Hsz Hp Hlim.
  split; [ | split; [ reflexivity | split ] ].
  - apply createintvar_scalar; try assumption.
    unfold findintvar. rewrite Hvl. reflexivity.
  - destruct (find_global_found _ _ _ _ Hglobal) as [_ [_ [v [Hnth _]]]].
    rewrite Nat.sub_0_r in Hnth.
    apply nth_error_Some. rewrite Hnth. discriminate.
  - unfold findintvar, declared. simpl_state.
    destruct (vars s) as [ | v0 r ] eqn:E; [ discriminate | ].
    cbv iota. rewrite Hvl.
    rewrite (find_global_app_old _ _ _ _ _ Hglobal). reflexivity.
Qed.

(** X16: what a lookup can find.  The entry that [findintvar] returns
    bears the name looked for, in its first four characters.  Reported as
    local, it lies in the local scope, at or behind the entry where that
    scope starts; reported as global, the search was not restricted to
    locals and no frame marker lies in front of the entry.  The variables of
    the callers in between are out of reach. *)
Theorem lookup_respects_scopes (s : state) (name : string) (local : bool) (i : nat)
    (islocal : bool) :
  findintvar name local s = (Some i, islocal) ->
  (exists v, nth_error s.(vars) i = Some v /\ same_name name v.(v_name) = true)
  /\ (islocal = true -> exists l, s.(varslocal) = Some l /\ (l <= i)%nat)
  /\ (islocal = false ->
      local = false
      /\ Forall (fun v => is_marker v = false) (firstn (S i) s.(vars))).
Proof.
  unfold findintvar. intros H.
  destruct (match varslocal s with
            | Some l => find_from name (skipn l (vars s)) l
            | None => None
            end) as [ j | ] eqn:Eloc.
  - injection H as <- <-.
    destruct (varslocal s) as [ l | ]; [ | discriminate ].
    destruct (find_from_found _ _ _ _ Eloc) as [Hle [v [Hnth Hv]]].
    rewrite nth_error_skipn in Hnth.
    replace (l + (j - l))%nat with j in Hnth by lia.
    split; [ exists v; split; assumption | split ].
    + intros _. exists l. split; [ reflexivity | exact Hle ].
    + discriminate.
  - destruct local; [ discriminate | ].
    destruct (find_global name (vars s) 0) as [ j | ] eqn:Eglob; [ | discriminate ].
    injection H as <- <-.
    destruct (find_global_found _ _ _ _ Eglob) as [_ [Hall [v [Hnth Hv]]]].
    rewrite Nat.sub_0_r in Hall, Hnth.
    split; [ exists v; split; assumption | split ].
    + discriminate.
    + intros _. split; [ reflexivity | exact Hall ].
Qed.

End Scopes.

(** ** Compiled if, else, endif *)

Lemma upd_app_here {A} (front : list A) (x y : A) (back : list A) :
  upd (front ++ x :: back) (List.length front) y = front ++ y :: back.
Proof. induction front as [ | f r IH ]; cbn [app List.length upd]; congruence. Qed.

Lemma set_code_same (s : state) : set_code s.(code) s = s.
Proof. destruct s; reflexivity. Qed.

Lemma doif_compile (arg : Z) (s : state) :
  s.(compile) = true ->
  List.length s.(return_stack) = Z.to_nat RETSTACKSZ ->
  3 <= s.(returnSP) <= RETSTACKSZ - 1 ->
  doif arg s = Ret tt (if_compiled s).
Proof.
  intros Hc Hlen Hsp. unfold doif.
  rewrite (bind_Ret _ _ _ _ _ (push_return_Ret _ s Hlen ltac:(lia))).
  mstep. simpl_state. rewrite Hc. unfold emit, emit_imm. mstep. simpl_state.
  erewrite bind_Ret
    by (apply push_return_Ret; simpl_state; rewrite ?upd_length; try exact Hlen; zlia).
  mstep. simpl_state.
  erewrite push_return_Ret
    by (simpl_state; rewrite ?upd_length; try exact Hlen; zlia).
  simpl_state. unfold if_compiled, jump.
  replace (returnSP s - 1 - 1) with (returnSP s - 2) by lia.
  replace (returnSP s - 2 - 1) with (returnSP s - 3) by lia.
  replace (rtPC s + 1 + 1) with (rtPC s + 2) by lia.
  replace (rtPC s + 1 + 3) with (rtPC s + 4) by lia.
  rewrite <- app_assoc. destruct s; reflexivity.
Qed.

Section CompiledIf.

Context {pf : Platform}.

Lemma patch_app (front : list cell) (x y : cell) (back : list cell) (word : Z) :
  patch (front ++ x :: y :: back) (Z.of_nat (List.length front)) word
  = front ++ Byte (lo8 word) :: Byte (hi8 word) :: back.
Proof.
  unfold patch. rewrite Nat2Z.id, upd_app_here.
  replace (Z.to_nat (Z.of_nat (List.length front) + 1))
    with (List.length (front ++ [Byte (lo8 word)])) by (rewrite length_app; cbn; lia).
  replace (front ++ Byte (lo8 word) :: y :: back)
    with ((front ++ [Byte (lo8 word)]) ++ y :: back)
    by (rewrite <- app_assoc; reflexivity).
  rewrite upd_app_here, <- app_assoc. reflexivity.
Qed.

Lemma emit_fixup_app (s : state) (front : list cell) (x y : cell) (back : list cell)
    (address word : Z) :
  s.(code) = front ++ x :: y :: back ->
  address - RTPCSTART = Z.of_nat (List.length front) ->
  emit_fixup address word s
  = Ret tt (set_code (front ++ Byte (lo8 word) :: Byte (hi8 word) :: back) s).
Proof.
  intros Hcode Haddr.
  rewrite (emit_fixup_Ret s (mkSub EmptyString address) word).
  - unfold placeholder. cbn [s_addr]. rewrite Haddr, Hcode, patch_app. reflexivity.
  - unfold placeholder_in, placeholder. cbn [s_addr]. rewrite Haddr, Hcode.
    rewrite length_app. cbn [List.length]. lia.
Qed.

Lemma rs_set_Ret (k : Z) (v : rval) (s : state) :
  0 <= s.(returnSP) + k < Z.of_nat (List.length s.(return_stack)) ->
  rs_set k v s
  = Ret tt (set_return_stack (upd s.(return_stack) (Z.to_nat (s.(returnSP) + k)) v) s).
Proof.
  intros H. unfold rs_set, aset. mstep.
  destruct (Z.leb_spec 0 (returnSP s + k)); [ | lia ].
  destruct (Z.ltb_spec (returnSP s + k) (Z.of_nat (List.length (return_stack s)))); [ | lia ].
  reflexivity.
Qed.

Lemma doelse_compile (s : state) (front : list cell) (x y : cell) (back : list cell)
    (a : Z) :
  s.(compile) = true ->
  List.length s.(return_stack) = Z.to_nat RETSTACKSZ ->
  0 <= s.(returnSP) -> s.(returnSP) + 3 < RETSTACKSZ ->
  aget s.(return_stack) (s.(returnSP) + 3) = Some (RInt IFFRAME) ->
  aget s.(return_stack) (s.(returnSP) + 2) = Some (RInt a) ->
  s.(code) = front ++ x :: y :: back ->
  a - RTPCSTART = Z.of_nat (List.length front) ->
  exists s',
    doelse s = Ret RET_SUCCESS s'
    /\ s'.(code) = front ++ Byte (lo8 (s.(rtPC) + 3)) :: Byte (hi8 (s.(rtPC) + 3))
                     :: back ++ jump VM_JMPIMM 65535
    /\ s'.(rtPC) = s.(rtPC) + 3
    /\ s'.(return_stack)
       = upd (upd s.(return_stack) (Z.to_nat (s.(returnSP) + 1)) (RInt (s.(rtPC) + 1)))
           (Z.to_nat (s.(returnSP) + 2)) (RInt 0)
    /\ s'.(returnSP) = s.(returnSP)
    /\ s'.(compile) = true.
Proof.
  intros Hc Hlen Hsp Hlt Htag Ha Hcode Haddr. eexists. split.
  - unfold doelse.
    rewrite (bind_Ret _ _ _ _ _ (rs_Ret 3 s _ Htag Hlt)).
    cbn [rv_is]. rewrite Z.eqb_refl. cbv beta match delta [negb].
    mstep. rewrite Hc. mstep.
    rewrite (bind_Ret _ _ _ _ _ (rs_set_Ret 1 _ s ltac:(rewrite Hlen; zlia))).
    unfold emit_imm. mstep. simpl_state.
    erewrite (bind_Ret (rs 2))
      by (apply rs_Ret; simpl_state; [ rewrite aget_upd_other by lia; exact Ha | lia ]).
    cbn [rv_int]. mstep. simpl_state.
    erewrite (bind_Ret (emit_fixup _ _))
      by (apply (emit_fixup_app _ front x y (back ++ jump VM_JMPIMM 65535));
          simpl_state; [ rewrite Hcode, <- app_assoc; reflexivity | exact Haddr ]).
    erewrite (bind_Ret (rs_set 2 _))
      by (apply rs_set_Ret; simpl_state; rewrite upd_length, Hlen; zlia).
    reflexivity.
  - simpl_state. rewrite Hc. repeat split; reflexivity.
Qed.

Lemma doendif_compile (s : state) (a2 a1 : Z) (code' : list cell) :
  s.(compile) = true ->
  0 <= s.(returnSP) -> s.(returnSP) + 3 < RETSTACKSZ ->
  aget s.(return_stack) (s.(returnSP) + 3) = Some (RInt IFFRAME) ->
  aget s.(return_stack) (s.(returnSP) + 2) = Some (RInt a2) ->
  aget s.(return_stack) (s.(returnSP) + 1) = Some (RInt a1) ->
  (a2 = 0 /\ a1 <> 0 \/ a2 <> 0 /\ a1 = 0) ->
  emit_fixup (a2 + a1) s.(rtPC) s = Ret tt (set_code code' s) ->
  doendif s = Ret RET_SUCCESS (set_returnSP (s.(returnSP) + 3) (set_code code' s)).
Proof.
  intros Hc Hsp Hlt Htag H2 H1 Hcase Hfix. unfold doendif.
  rewrite (bind_Ret _ _ _ _ _ (rs_Ret 3 s _ Htag Hlt)).
  cbn [rv_is]. rewrite Z.eqb_refl. cbv beta match delta [negb].
  mstep. rewrite Hc. mstep.
  rewrite (bind_Ret (rs 2) _ _ _ _ (rs_Ret 2 s _ H2 ltac:(lia))).
  cbn [rv_nonzero rv_int].
  destruct Hcase as [ [-> Hne] | [Hne ->] ].
  - cbn [Z.eqb negb]. mstep.
    rewrite (bind_Ret (rs 1) _ _ _ _ (rs_Ret 1 s _ H1 ltac:(lia))).
    cbn [rv_nonzero rv_int].
    destruct (Z.eqb_spec a1 0); [ contradiction | ]. cbn [negb]. mstep.
    cbn [Z.add] in Hfix. rewrite (bind_Ret _ _ _ _ _ Hfix).
    erewrite pop_returns_Ret3 by (simpl_state; eassumption). reflexivity.
  - destruct (Z.eqb_spec a2 0); [ contradiction | ]. cbn [negb]. mstep.
    rewrite Z.add_0_r in Hfix. rewrite (bind_Ret _ _ _ _ _ Hfix). mstep.
    erewrite (bind_Ret (rs 1)) by (apply rs_Ret; simpl_state; [ exact H1 | lia ]).
    cbn [rv_nonzero Z.eqb negb]. mstep.
    erewrite pop_returns_Ret3 by (simpl_state; eassumption). reflexivity.
Qed.

(** X17: [if], [else] and [endif], compiled.  With the code pointer and
    the program counter of the target in step, [doif] emits a negation and a
    conditional branch whose operand is left open.  When the block has been
    compiled, [endif] makes that branch lead to the first address behind the
    block.  With an [else], the branch leads to the first address of the
    else block, in front of which [else] puts a jump, and [endif] makes this
    jump lead behind the else block.  The frame is taken off the return
    stack, and pointer and counter are still in step. *)
Theorem compiled_if_else_endif (s : state) (arg : Z) :
  s.(compile) = true ->
  in_step s ->
  0 <= RTPCSTART ->
  List.length s.(return_stack) = Z.to_nat RETSTACKSZ ->
  3 <= s.(returnSP) <= RETSTACKSZ - 1 ->
  doif arg s = Ret tt (if_compiled s)
  /\ (forall block s2,
        compiles block (if_compiled s) s2 ->
        exists s3,
          doendif s2 = Ret RET_SUCCESS s3
          /\ s3.(code) = s.(code) ++ Op VM_NOT :: jump VM_BRNCHIMM s3.(rtPC) ++ block
          /\ in_step s3
          /\ s3.(returnSP) = s.(returnSP))
  /\ (forall block1 s2,
        compiles block1 (if_compiled s) s2 ->
        exists s3,
          doelse s2 = Ret RET_SUCCESS s3
          /\ s3.(rtPC) = s.(rtPC) + 7 + Z.of_nat (List.length block1)
          /\ forall block2 s4,
               compiles block2 s3 s4 ->
               exists s5,
                 doendif s4 = Ret RET_SUCCESS s5
                 /\ s5.(code) = s.(code) ++ Op VM_NOT :: jump VM_BRNCHIMM s3.(rtPC)
                                  ++ block1 ++ jump VM_JMPIMM s5.(rtPC) ++ block2
                 /\ in_step s5
                 /\ s5.(returnSP) = s.(returnSP)).
Proof.
  intros Hc Hstep Hstart Hlen Hsp. unfold in_step in Hstep.
  split; [ apply doif_compile; assumption | ].
  assert (Hframe : forall s2 block,
             compiles block (if_compiled s) s2 ->
             s2.(compile) = true
             /\ s2.(returnSP) = s.(returnSP) - 3
             /\ List.length s2.(return_stack) = Z.to_nat RETSTACKSZ
             /\ aget s2.(return_stack) (s.(returnSP) - 3 + 3) = Some (RInt IFFRAME)
             /\ aget s2.(return_stack) (s.(returnSP) - 3 + 2) = Some (RInt (s.(rtPC) + 2))
             /\ aget s2.(return_stack) (s.(returnSP) - 3 + 1) = Some (RInt 0)
             /\ s2.(code) = (s.(code) ++ [Op VM_NOT; Op VM_BRNCHIMM])
                             ++ Byte (lo8 65535) :: Byte (hi8 65535) :: block
             /\ s2.(rtPC) = s.(rtPC) + 4 + Z.of_nat (List.length block)).
  { intros s2 block (Hcode & Hpc & Hrs & Hsp2 & Hc2).
    unfold if_compiled, jump in *. simpl_state.
    rewrite Hrs.
    replace (returnSP s - 3 + 3) with (returnSP s) by lia.
    replace (returnSP s - 3 + 2) with (returnSP s - 1) by lia.
    replace (returnSP s - 3 + 1) with (returnSP s - 2) by lia.
    repeat split.
    - congruence.
    - exact Hsp2.
    - rewrite !upd_length. exact Hlen.
    - slot. reflexivity.
    - slot. reflexivity.
    - slot. reflexivity.
    - rewrite Hcode, <- !app_assoc. reflexivity.
    - exact Hpc. }
  split.
  - intros block s2 Hblock.
    destruct (Hframe s2 block Hblock)
      as (Hc2 & Hsp2 & Hlen2 & Htag & Ha2 & Ha1 & Hcode & Hpc).
    rewrite <- Hsp2 in Htag, Ha2, Ha1.
    eexists. split.
    + apply (doendif_compile s2 (rtPC s + 2) 0); try eassumption; try lia.
      rewrite Z.add_0_r.
      apply (emit_fixup_app s2 _ _ _ _ _ _ Hcode).
      rewrite length_app. cbn [List.length]. lia.
    + simpl_state. unfold jump, in_step. simpl_state.
      repeat split.
      * rewrite <- !app_assoc. reflexivity.
      * rewrite !length_app. cbn [List.length]. lia.
      * lia.
  - intros block1 s2 Hblock.
    destruct (Hframe s2 block1 Hblock)
      as (Hc2 & Hsp2 & Hlen2 & Htag & Ha2 & Ha1 & Hcode & Hpc).
    rewrite <- Hsp2 in Htag, Ha2, Ha1.
    destruct (doelse_compile s2 _ _ _ _ _ Hc2 Hlen2 ltac:(lia) ltac:(zlia) Htag Ha2 Hcode
                ltac:(rewrite length_app; cbn [List.length]; lia))
      as (s3 & Helse & Hcode3 & Hpc3 & Hrs3 & Hsp3 & Hc3).
    exists s3. split; [ exact Helse | split; [ lia | ] ].
    intros block2 s4 (Hcode4 & Hpc4 & Hrs4 & Hsp4 & Hc4).
    eexists. split.
    + apply (doendif_compile s4 0 (rtPC s2 + 1)).
      * congruence.
      * lia.
      * zlia.
      * rewrite Hrs4, Hrs3, Hsp4, Hsp3.
        rewrite aget_upd_other by lia. rewrite aget_upd_other by lia. exact Htag.
      * rewrite Hrs4, Hrs3, Hsp4, Hsp3.
        rewrite aget_upd_same by (rewrite upd_length, Hlen2; zlia). reflexivity.
      * rewrite Hrs4, Hrs3, Hsp4, Hsp3.
        rewrite aget_upd_other by lia.
        rewrite aget_upd_same by (rewrite Hlen2; zlia). reflexivity.
      * left. split; [ reflexivity | lia ].
      * cbn [Z.add].
        apply (emit_fixup_app s4
                 ((code s ++ [Op VM_NOT; Op VM_BRNCHIMM])
                    ++ Byte (lo8 (rtPC s2 + 3)) :: Byte (hi8 (rtPC s2 + 3))
                    :: block1 ++ [Op VM_JMPIMM])
                 (Byte (lo8 65535)) (Byte (hi8 65535)) block2).
        -- rewrite Hcode4, Hcode3. unfold jump. rewrite <- !app_assoc. cbn [app].
           rewrite <- !app_assoc. reflexivity.
        -- rewrite !length_app. cbn [List.length]. rewrite ?length_app.
           cbn [List.length]. lia.
    + simpl_state. unfold jump, in_step. simpl_state.
      rewrite Hpc3, Hpc4, Hsp4, Hsp3.
      repeat split.
      * rewrite <- !app_assoc. cbn [app]. rewrite <- !app_assoc. reflexivity.
      * rewrite !length_app. cbn [List.length]. rewrite ?length_app.
        cbn [List.length]. lia.
      * lia.
Qed.

End CompiledIf.

(** ** endfor *)

Lemma load_word_store (vs : list var_t) (a x : Z) :
  forall val, load_word vs a = Some val -> exists vs', store_word vs a x = Some vs'.
Proof.
  induction vs as [ | v r IH ]; intros val H; cbn [load_word] in H; [ discriminate | ].
  cbn [store_word].
  destruct (v_data v) as [ w | b | body size elems ].
  - destruct (a =? cell_addr v); [ eauto | ].
    destruct (IH _ H) as [r' ->]. cbn [option_map]. eauto.
  - destruct (IH _ H) as [r' ->]. cbn [option_map]. eauto.
  - destruct ((base_type (v_type v) =? TYPE_WORD) && (body <=? a)
              && (a <? body + SZ_INT * Z.of_nat (List.length elems))
              && ((a - body) mod SZ_INT =? 0)); [ eauto | ].
    destruct (IH _ H) as [r' ->]. cbn [option_map]. eauto.
Qed.

Lemma load_byte_store (vs : list var_t) (a x : Z) :
  forall val, load_byte vs a = Some val -> exists vs', store_byte vs a x = Some vs'.
Proof.
  induction vs as [ | v r IH ]; intros val H; cbn [load_byte] in H; [ discriminate | ].
  cbn [store_byte].
  destruct (v_data v) as [ w | b | body size elems ].
  - destruct (IH _ H) as [r' ->]. cbn [option_map]. eauto.
  - destruct (a =? cell_addr v); [ eauto | ].
    destruct (IH _ H) as [r' ->]. cbn [option_map]. eauto.
  - destruct ((base_type (v_type v) =? TYPE_BYTE) && (body <=? a)
              && (a <? body + Z.of_nat (List.length elems))); [ eauto | ].
    destruct (IH _ H) as [r' ->]. cbn [option_map]. eauto.
Qed.

Section EndFor.

Context {pf : Platform}.

Lemma pop_returns_Ret5 (s : state) (v1 v2 v3 v4 v5 : rval) :
  0 <= s.(returnSP) -> s.(returnSP) + 5 < RETSTACKSZ ->
  aget s.(return_stack) (s.(returnSP) + 1) = Some v1 ->
  aget s.(return_stack) (s.(returnSP) + 2) = Some v2 ->
  aget s.(return_stack) (s.(returnSP) + 3) = Some v3 ->
  aget s.(return_stack) (s.(returnSP) + 4) = Some v4 ->
  aget s.(return_stack) (s.(returnSP) + 5) = Some v5 ->
  (pop_return ;; pop_return ;; pop_return ;; pop_return ;; pop_return ;; ret RET_SUCCESS) s
  = Ret RET_SUCCESS (set_returnSP (s.(returnSP) + 5) s).
Proof.
  intros Hsp Hlt H1 H2 H3 H4 H5.
  erewrite bind_Ret by (apply pop_return_Ret; [ zlia | exact H1 ]).
  erewrite pop_returns_Ret4 with (v1 := v2) (v2 := v3) (v3 := v4) (v4 := v5); simpl_state.
  - replace (returnSP s + 1 + 4) with (returnSP s + 5) by lia. reflexivity.
  - lia.
  - zlia.
  - replace (returnSP s + 1 + 1) with (returnSP s + 2) by lia. exact H2.
  - replace (returnSP s + 1 + 2) with (returnSP s + 3) by lia. exact H3.
  - replace (returnSP s + 1 + 3) with (returnSP s + 4) by lia. exact H4.
  - replace (returnSP s + 1 + 4) with (returnSP s + 5) by lia. exact H5.
Qed.

(** X18: one turn of a [for] loop, interpreted.  [endfor] reads the loop
    variable through the pointer in the frame and compares it with the
    limit in the frame.  While the variable is below the limit it is
    incremented (a word wraps at 32 bits, a byte at 8 bits) and control
    goes back to the line and text behind the [for] statement, the frame
    staying in place; otherwise the five slots of the frame are popped and
    nothing else changes.  The test is made at the end of the body only. *)
Theorem endfor_steps (s : state) (word : bool) (ptr limit line val : Z) (txt : string) :
  s.(compile) = false ->
  0 <= s.(returnSP) -> s.(returnSP) + 5 < RETSTACKSZ ->
  aget s.(return_stack) (s.(returnSP) + 5) = Some (RInt (for_tag word)) ->
  aget s.(return_stack) (s.(returnSP) + 4) = Some (RInt line) ->
  aget s.(return_stack) (s.(returnSP) + 3) = Some (RTxt txt) ->
  aget s.(return_stack) (s.(returnSP) + 2) = Some (RInt limit) ->
  aget s.(return_stack) (s.(returnSP) + 1) = Some (RInt ptr) ->
  load_var word s.(vars) ptr = Some val ->
  line = -1 \/ 0 <= line < Z.of_nat (List.length s.(program)) ->
  (limit <= val -> doendfor s = Ret RET_SUCCESS (set_returnSP (s.(returnSP) + 5) s))
  /\ (val < limit ->
      exists vs',
        doendfor s = Ret RET_SUCCESS (resumed line txt (set_vars vs' s))
        /\ load_var word vs' ptr = Some (incremented word val)
        /\ Forall2 kept s.(vars) vs').
Proof.
  intros Hc Hsp Hlt Htag Hline Htxt Hlimit Hptr Hval Hrange.
  unfold doendfor.
  rewrite (bind_Ret _ _ _ _ _ (rs_Ret 5 s _ Htag Hlt)).
  mstep. rewrite Hc.
  assert (Htagb : rv_is (RInt (for_tag word)) FORFRAME_W = word
                  /\ (rv_is (RInt (for_tag word)) FORFRAME_W
                      || rv_is (RInt (for_tag word)) FORFRAME_B) = true)
    by (destruct word; split; reflexivity).
  destruct Htagb as [Hw Hany]. rewrite Hany, Hw. cbv beta iota delta [negb].
  rewrite (bind_Ret (rs 1) _ _ _ _ (rs_Ret 1 s _ Hptr ltac:(lia))).
  cbn [rv_int]. mstep.
  assert (Hload : (if (if word then TYPE_WORD else TYPE_BYTE) =? TYPE_WORD
                   then mem_load_word ptr else mem_load_byte ptr) s = Ret val s).
  { unfold load_var in Hval. destruct word; cbn [Z.eqb Pos.eqb TYPE_WORD TYPE_BYTE];
      cbv beta iota; unfold mem_load_word, mem_load_byte; mstep; rewrite Hval; reflexivity. }
  rewrite (bind_Ret _ _ _ _ _ Hload).
  rewrite (bind_Ret (rs 2) _ _ _ _ (rs_Ret 2 s _ Hlimit ltac:(lia))).
  cbn [rv_int]. mstep.
  split.
  - intros Hdone. destruct (Z.ltb_spec val limit); [ lia | ].
    apply pop_returns_Ret5 with (v1 := RInt ptr) (v2 := RInt limit) (v3 := RTxt txt)
                                (v4 := RInt line) (v5 := RInt (for_tag word)); assumption.
  - intros Hmore. destruct (Z.ltb_spec val limit); [ | lia ].
    assert (Hstore : exists vs',
               (if (if word then TYPE_WORD else TYPE_BYTE) =? TYPE_WORD
                then mem_store_word ptr (wrap (val + 1))
                else mem_store_byte ptr (val + 1)) s = Ret tt (set_vars vs' s)
               /\ load_var word vs' ptr = Some (incremented word val)
               /\ Forall2 kept s.(vars) vs').
    { unfold load_var, incremented in *.
      destruct word; cbn [Z.eqb Pos.eqb TYPE_WORD TYPE_BYTE]; cbv beta iota.
      - destruct (load_word_store _ _ (wrap (val + 1)) _ Hval) as [vs' Hst].
        exists vs'. unfold mem_store_word. mstep. rewrite Hst.
        split; [ reflexivity | split ].
        + apply (store_word_load _ _ _ _ Hst).
        + apply (store_word_kept _ _ _ _ Hst).
      - destruct (load_byte_store _ _ (val + 1) _ Hval) as [vs' Hst].
        exists vs'. unfold mem_store_byte. mstep. rewrite Hst.
        split; [ reflexivity | split ].
        + apply (store_byte_load _ _ _ _ Hst).
        + apply (store_byte_kept _ _ _ _ Hst). }
    destruct Hstore as (vs' & Hst & Hnew & Hkept).
    exists vs'. split; [ | split; assumption ].
    rewrite (bind_Ret _ _ _ _ _ Hst).
    erewrite (bind_Ret (rs 4)) by (apply rs_Ret; simpl_state; [ exact Hline | lia ]).
    cbn [rv_int]. mstep.
    erewrite (bind_Ret (rs 3)) by (apply rs_Ret; simpl_state; [ exact Htxt | lia ]).
    cbn [rv_txt]. mstep.
    rewrite (bind_Ret _ _ _ _ _ (backtotop_Ret (set_vars vs' s) line txt Hrange)).
    reflexivity.
Qed.

End EndFor.

(** ** Entering a program *)

Section Editor.

Context {pf : Platform}.

Lemma edit_turn (n : nat) (lnbuf : string) (s : state) :
  s.(editmode) <> 0 ->
  List.length s.(operator_stack) = Z.to_nat STACKSZ ->
  exists s1,
    main_before_parse lnbuf s = Ret tt s1
    /\ s1.(editmode) = s.(editmode)
    /\ s1.(program) = s.(program)
    /\ s1.(current) = s.(current)
    /\ List.length s1.(operator_stack) = Z.to_nat STACKSZ
    /\ s1.(out) = s.(out) ++ [PrCh ">"].
Proof.
  intros Hem Hlen.
  assert (Hset : aset (operator_stack s) (STACKSZ - 1) (u8 SENTINEL)
                 = Some (upd (operator_stack s) (Z.to_nat (STACKSZ - 1)) (u8 SENTINEL))).
  { unfold aset. rewrite Hlen. reflexivity. }
  eexists. split.
  - unfold main_before_parse, clearexprstacks, push_operator_stack, printchar.
    mstep. simpl_state. rewrite Hset.
    change (STACKSZ - 1 =? 0) with false. cbv beta iota. mstep. simpl_state.
    destruct (Z.eqb_spec (editmode s) 0); [ contradiction | ].
    cbn [negb]. mstep. simpl_state. reflexivity.
  - simpl_state. rewrite upd_length. repeat split; try reflexivity. exact Hlen.
Qed.

(** X19: typing a program.  In append mode every line typed, up to a line
    that starts with a period, is put behind the current line, which moves
    on to it: the lines arrive in the program in the order typed, between
    the line that was current and its successor, and the period leaves the
    editor.  In insert mode the first line typed becomes the first line of
    the program and the rest is appended behind it.  Each turn prints the
    prompt and nothing else. *)
Theorem typing_a_program (n : nat) (lines : list string) :
  Forall (fun l => Ascii.eqb (peek l) "." = false) lines ->
  forall s,
    List.length s.(operator_stack) = Z.to_nat STACKSZ ->
    (forall i,
        s.(editmode) = 1 ->
        s.(current) = Some i ->
        (i < List.length s.(program))%nat ->
        exists s',
          main_loop n (lines ++ ["."]) s = Some s'
          /\ s'.(program)
             = firstn (S i) s.(program) ++ map cstr lines ++ skipn (S i) s.(program)
          /\ s'.(current) = Some (i + List.length lines)%nat
          /\ s'.(editmode) = 0
          /\ s'.(out) = s.(out) ++ repeat (PrCh ">") (S (List.length lines)))
    /\ (forall first,
           s.(editmode) = 2 ->
           exists s',
             main_loop n (first :: lines ++ ["."]) s = Some s'
             /\ s'.(program) = cstr first :: map cstr lines ++ s.(program)
             /\ s'.(current) = Some (List.length lines)
             /\ s'.(editmode) = 0
             /\ s'.(out) = s.(out) ++ repeat (PrCh ">") (S (S (List.length lines)))).
Proof.
  intros Hlines.
  assert (Happend : forall s i,
             List.length s.(operator_stack) = Z.to_nat STACKSZ ->
             s.(editmode) = 1 ->
             s.(current) = Some i ->
             (i < List.length s.(program))%nat ->
             exists s',
               main_loop n (lines ++ ["."]) s = Some s'
               /\ s'.(program)
                  = firstn (S i) s.(program) ++ map cstr lines ++ skipn (S i) s.(program)
               /\ s'.(current) = Some (i + List.length lines)%nat
               /\ s'.(editmode) = 0
               /\ s'.(out) = s.(out) ++ repeat (PrCh ">") (S (List.length lines))).
  { induction Hlines as [ | l lines Hl Hlines IH ]; intros s i Hlen Hem Hcur Hin.
    - destruct (edit_turn n "." s ltac:(lia) Hlen)
        as (s1 & Hturn & Hem1 & Hprog1 & Hcur1 & Hlen1 & Hout1).
      eexists. split.
      + cbn [app main_loop]. unfold main_turn.
        rewrite (bind_Ret _ _ _ _ _ Hturn). mstep. rewrite Hem1, Hem.
        cbn [Z.eqb Pos.eqb peek Ascii.eqb Bool.eqb]. cbv beta iota.
        unfold modify. reflexivity.
      + simpl_state. rewrite Hprog1, Hcur1, Hcur, Hout1.
        cbn [map app List.length repeat]. rewrite Nat.add_0_r, firstn_skipn.
        repeat split; reflexivity.
    - destruct (edit_turn n l s ltac:(lia) Hlen)
        as (s1 & Hturn & Hem1 & Hprog1 & Hcur1 & Hlen1 & Hout1).
      set (s2 := set_current (Some (S i))
                   (set_program (firstn (S i) s1.(program) ++ cstr l
                                   :: skipn (S i) s1.(program)) s1)).
      destruct (IH s2 (S i) Hlen1 ltac:(unfold s2; simpl_state; congruence) eq_refl)
        as (s' & Hloop & Hprog & Hcur' & Hem' & Hout').
      { unfold s2. simpl_state. rewrite Hprog1, length_app, length_firstn.
        cbn [List.length]. lia. }
      exists s'. split.
      + cbn [app main_loop]. unfold main_turn.
        rewrite (bind_Ret _ _ _ _ _ Hturn). mstep. rewrite Hem1, Hem.
        cbn [Z.eqb Pos.eqb]. cbv beta iota. rewrite Hl.
        unfold appendline. mstep. rewrite Hcur1, Hcur. unfold modify.
        exact Hloop.
      + rewrite Hprog, Hcur', Hem', Hout'. unfold s2. simpl_state.
        rewrite Hprog1, Hout1.
        replace (S (S i)) with (List.length (firstn (S i) (program s) ++ [cstr l]))
          by (rewrite length_app, length_firstn; cbn [List.length]; lia).
        replace (firstn (S i) (program s) ++ cstr l :: skipn (S i) (program s))
          with ((firstn (S i) (program s) ++ [cstr l]) ++ skipn (S i) (program s))
          by (rewrite <- app_assoc; reflexivity).
        rewrite firstn_app, skipn_app, Nat.sub_diag, firstn_all, skipn_all.
        cbn [firstn skipn map List.length repeat app].
        rewrite app_nil_r, <- !app_assoc. cbn [app].
        repeat split; try reflexivity. f_equal. lia. }
  intros s Hlen. split; [ intros i; apply Happend; exact Hlen | ].
  intros first Hem.
  destruct (edit_turn n first s ltac:(lia) Hlen)
    as (s1 & Hturn & Hem1 & Hprog1 & Hcur1 & Hlen1 & Hout1).
  set (s2 := set_editmode 1
               (set_counter 1
                  (set_current (Some O) (set_program (cstr first :: s1.(program)) s1)))).
  destruct (Happend s2 O Hlen1 eq_refl eq_refl ltac:(unfold s2; simpl_state; cbn; lia))
    as (s' & Hloop & Hprog & Hcur' & Hem' & Hout').
  exists s'. split.
  - cbn [main_loop]. unfold main_turn.
    rewrite (bind_Ret _ _ _ _ _ Hturn). mstep. rewrite Hem1, Hem.
    cbn [Z.eqb Pos.eqb]. cbv beta iota.
    unfold insertfirstline, findline. mstep. simpl_state.
    cbn [findline_from Z.eqb Pos.eqb]. cbv beta iota. unfold modify.
    exact Hloop.
  - rewrite Hprog, Hcur', Hem', Hout'. unfold s2. simpl_state.
    rewrite Hprog1, Hout1. cbn [firstn skipn app Nat.add repeat].
    rewrite <- app_assoc. cbn [app]. repeat split; reflexivity.
Qed.

End Editor.

(** ** Names and tokens *)

(** X20: which calls a subroutine answers to.  For a terminator other
    than NUL (the one caller passes the opening parenthesis), [compareUntil]
    reports a match exactly when the text behind [sub] and the name called
    start with the same characters and the text goes on with the
    terminator or a space where the name called goes on with something else
    (or ends).  What follows in the name called is not looked at: a call of
    a name that merely starts with the name of a subroutine matches that
    subroutine. *)
Theorem call_matches_by_prefix (s1 s2 : string) (term : ascii) :
  term <> zero ->
  compareUntil s1 s2 term = false
  <-> exists name t rest junk,
        s1 = (name ++ String t rest)%string
        /\ s2 = (name ++ junk)%string
        /\ (t = term \/ t = " "%char)
        /\ peek junk <> t
        /\ Forall (fun c => is_nul c = false) (list_ascii_of_string name).
Proof.
  intros Hterm.
  assert (Hzero : Ascii.eqb zero term || Ascii.eqb zero " " = false).
  { destruct (Ascii.eqb_spec zero term) as [E | _]; [ congruence | reflexivity ]. }
  split.
  - revert s2. induction s1 as [ | c1 r1 IH ]; intros s2 H; cbn [compareUntil] in H.
    + rewrite Hzero in H. destruct (is_nul (peek s2)); discriminate.
    + destruct (Ascii.eqb_spec c1 (peek s2)) as [Heq | Hne].
      * destruct (is_nul c1) eqn:Hnul; [ discriminate | ].
        destruct s2 as [ | c2 r2 ].
        -- cbn [peek] in Heq. subst c1. discriminate.
        -- cbn [peek] in Heq. subst c2.
           destruct (IH _ H) as (name & t & rest & junk & -> & -> & Ht & Hjunk & Hname).
           exists (String c1 name), t, rest, junk.
           repeat split; try assumption. cbn [list_ascii_of_string].
           constructor; assumption.
      * exists EmptyString, c1, r1, s2. cbn [append list_ascii_of_string].
        repeat split; [ | congruence | constructor ].
        destruct (Ascii.eqb_spec c1 term); [ left; assumption | ].
        destruct (Ascii.eqb_spec c1 " "%char); [ right; assumption | discriminate ].
  - intros (name & t & rest & junk & -> & -> & Ht & Hjunk & Hname).
    induction name as [ | c name IH ]; cbn [append compareUntil].
    + destruct (Ascii.eqb_spec t (peek junk)) as [E | _]; [ congruence | ].
      destruct Ht as [ -> | -> ].
      * rewrite Ascii.eqb_refl. reflexivity.
      * rewrite Ascii.eqb_refl, orb_true_r. reflexivity.
    + cbn [list_ascii_of_string] in Hname. inversion Hname as [ | ? ? Hc Hrest ]; subst.
      cbn [peek]. rewrite Ascii.eqb_refl, Hc. apply IH. exact Hrest.
Qed.

Ltac scan_ops :=
  repeat match goal with
    | |- context [ if ?b then _ else _ ] => destruct b
    end.

(** X21: the tokens of the scanner have a precedence.  Whatever the text,
    [binary] yields ILLEGAL or a token whose precedence is between 1 and
    10, and [unary] yields ILLEGAL or a token of precedence 11; the default
    branch of [getprecedence] is never taken for a token that the scanner
    delivers.  A two-character operator is preferred to its first
    character alone. *)
Theorem scanned_tokens_have_precedence (p : string) :
  (binary p = ILLEGAL
   \/ exists prec, getprecedence (binary p) = Some prec /\ 1 <= prec <= 10)
  /\ (unary p = ILLEGAL \/ getprecedence (unary p) = Some 11)
  /\ (forall tok, (if is_nul (peek p) then None
                   else binary2 binaryops1 binaryops2 TOK_EQL p) = Some tok ->
                  binary p = tok /\ IS2CHBINARY tok = true).
Proof.
  split; [ | split ].
  - unfold binary, binaryops1, binaryops2, binaryops.
    cbn [binary2 scan1 Z.add Pos.add Pos.succ TOK_EQL TOK_POW].
    scan_ops; first [ left; reflexivity | right; eexists; split; [ reflexivity | lia ] ].
  - unfold unary, unaryops. cbn [scan1 Z.add Pos.add Pos.succ TOK_UNM].
    scan_ops; first [ left; reflexivity | right; reflexivity ].
  - intros tok H. unfold binary. rewrite H. split; [ reflexivity | ].
    destruct (is_nul (peek p)); [ discriminate | ].
    unfold binaryops1, binaryops2 in H.
    cbn [binary2 Z.add Pos.add Pos.succ TOK_EQL] in H.
    repeat match type of H with
      | (if ?b then _ else _) = _ => destruct b; [ injection H as <-; reflexivity | ]
      end.
    discriminate.
Qed.

(** X22: the statement table is in a workable order.  Every keyword of the
    table is recognised as its own token at the end of the line and in
    front of a space or a semicolon, whatever follows; no entry is shadowed
    by an earlier one of which it is an extension.  The keywords that need
    no delimiter (the comment quote, the two pokes and the editor commands)
    are recognised in front of any text. *)
Theorem keywords_are_recognised :
  Forall (fun e =>
            matchstatement e.(st_name) = e.(st_token)
            /\ (forall rest,
                   matchstatement (e.(st_name) ++ String " " rest) = e.(st_token)
                   /\ matchstatement (e.(st_name) ++ String ";" rest) = e.(st_token))
            /\ ((TOK_POKEWORD <=? e.(st_token)) || (e.(st_token) <=? TOK_COMM) = true ->
                forall rest, matchstatement (e.(st_name) ++ rest) = e.(st_token)))
    stmnttab.
Proof.
  unfold stmnttab.
  repeat first [ apply Forall_nil | apply Forall_cons ];
    (split; [ reflexivity | split; [ intros rest; split; reflexivity | ] ]);
    cbn [st_name st_token]; intros Hfree; try discriminate Hfree; intros rest;
    reflexivity.
Qed.

(** ** Running out of memory *)

Section Memory.

Context {pf : Platform}.

Lemma alloc1_full (bytes : Z) (s : state) :
  0 <= bytes < 4294967296 ->
  0 <= s.(heap1Ptr) - bytes < HEAP1LIM ->
  alloc1 bytes s = LongJmp (set_out (s.(out) ++ chars ("No mem (1)!" ++ nl)) s).
Proof.
  intros Hb Hp. unfold alloc1. mstep.
  destruct (Z.ltb_spec bytes 0); [ lia | ].
  destruct (Z.leb_spec 4294967296 bytes); [ lia | ].
  destruct (Z.ltb_spec (heap1Ptr s - bytes) 0); [ lia | ].
  cbn [orb].
  destruct (Z.ltb_spec (heap1Ptr s - bytes) HEAP1LIM); [ | lia ].
  reflexivity.
Qed.

(** X23: no room in arena 1.  An allocation that would take the arena
    pointer below its limit prints the out-of-memory message and jumps back
    to the top level, with the pointer unmoved.  So does the declaration of
    a scalar for which no room is left: nothing is added to the variable
    table.  A call frame that cannot be marked leaves the call level
    incremented. *)
Theorem no_room_in_arena (n : nat) (s : state) (name : string) (type sz value : Z) :
  s.(compile) = false ->
  fst (findintvar name true s) = None ->
  type = TYPE_WORD \/ type = TYPE_BYTE \/ type = TYPE_CONST ->
  1 <= sz ->
  0 <= s.(heap1Ptr) - (SZ_VAR + SZ_INT) ->
  s.(heap1Ptr) - scalar_bytes type < HEAP1LIM ->
  createintvar (S n) name type 0 sz value 0 s
  = LongJmp (set_out (s.(out) ++ chars ("No mem (1)!" ++ nl)) s)
  /\ (s.(heap1Ptr) - (SZ_VAR + SZ_INT) < HEAP1LIM ->
      vars_markcallframe s
      = LongJmp (set_out (s.(out) ++ chars ("No mem (1)!" ++ nl))
                   (set_calllevel (wrap (s.(calllevel) + 1)) s))).
Proof.
  intros Hc Hfree Htype Hsz Hp Hlim. split.
  - cbn [createintvar]. unfold createintvar_body. mstep.
    rewrite Hfree. destruct (Z.ltb_spec sz 1); [ lia | ].
    mstep. rewrite Hc. cbn [Z.eqb]. cbv beta iota.
    unfold scalar_bytes, SZ_VAR, SZ_INT in *.
    destruct Htype as [ -> | [ -> | -> ] ];
      cbn [Z.eqb Pos.eqb TYPE_WORD TYPE_BYTE TYPE_CONST] in *; cbv beta iota;
      unfold bind at 1; rewrite alloc1_full by lia; reflexivity.
  - intros Hfull. unfold vars_markcallframe. mstep.
    unfold bind at 1. rewrite alloc1_full by (simpl_state; unfold SZ_VAR, SZ_INT in *; lia).
    reflexivity.
Qed.

End Memory.

(** ** Numbers *)

Lemma numeral_grows (base : Z) (digit : ascii -> Z) (ds : list ascii) :
  1 <= base ->
  Forall (fun c => 0 <= digit c) ds ->
  forall acc, 0 <= acc ->
    acc <= fold_left (fun acc c => base * acc + digit c) ds acc.
Proof.
  intros Hbase Hds. induction Hds as [ | c ds Hc Hds IH ]; intros acc Hacc; cbn [fold_left].
  - lia.
  - specialize (IH (base * acc + digit c) ltac:(nia)). nia.
Qed.

Lemma isdigitch_value (c : ascii) : isdigitch c = true -> 0 <= decimal_digit c <= 9.
Proof.
  unfold isdigitch, decimal_digit. intros H.
  apply andb_prop in H. destruct H as [H1 H2].
  apply Z.leb_le in H1. apply Z.leb_le in H2. lia.
Qed.

Lemma parseint_digits_numeral (ds : list ascii) (rest : string) :
  Forall (fun c => isdigitch c = true) ds ->
  isdigitch (peek rest) = false ->
  forall acc,
    0 <= acc ->
    fold_left (fun acc c => 10 * acc + decimal_digit c) ds acc < 2147483648 ->
    parseint_digits (string_of_list_ascii ds ++ rest) acc
    = (fold_left (fun acc c => 10 * acc + decimal_digit c) ds acc, rest).
Proof.
  intros Hds Hrest. induction Hds as [ | c ds Hc Hds IH ]; intros acc Hacc Hfit;
    cbn [string_of_list_ascii append fold_left] in *.
  - destruct rest as [ | c r ]; cbn [parseint_digits]; [ reflexivity | ].
    cbn [peek] in Hrest. rewrite Hrest. reflexivity.
  - cbn [parseint_digits]. rewrite Hc.
    pose proof (isdigitch_value c Hc) as Hd.
    assert (Hds' : Forall (fun c => 0 <= decimal_digit c) ds).
    { eapply Forall_impl; [ | exact Hds ]. intros a Ha. apply isdigitch_value in Ha. lia. }
    pose proof (numeral_grows 10 decimal_digit ds ltac:(lia) Hds'
                  (10 * acc + decimal_digit c) ltac:(lia)) as Hge.
    unfold decimal_digit in *.
    rewrite (wrap_small (acc * 10)) by lia.
    rewrite wrap_small by lia.
    replace (acc * 10 + (code_of c - 48)) with (10 * acc + (code_of c - 48)) by lia.
    apply IH; lia.
Qed.

Lemma parseint_reads_numeral_at (s : state) (ds rest : string) :
  Forall (fun c => isdigitch c = true) (list_ascii_of_string ds) ->
  isdigitch (peek rest) = false ->
  numeral 10 decimal_digit ds < 2147483648 ->
  ds <> EmptyString ->
  parseint (set_txtPtr (ds ++ rest) s)
  = Ret (Some (numeral 10 decimal_digit ds)) (set_txtPtr rest s).
Proof.
  intros Hds Hrest Hfit Hne. unfold parseint. mstep. simpl_state.
  destruct ds as [ | c ds' ]; [ contradiction | ].
  cbn [append peek]. cbn [list_ascii_of_string] in Hds.
  inversion Hds as [ | ? ? Hc Hds' ]; subst. rewrite Hc. cbn [negb].
  pose proof (parseint_digits_numeral _ rest Hds Hrest 0 ltac:(lia) Hfit) as E.
  change (c :: list_ascii_of_string ds') with (list_ascii_of_string (String c ds')) in E.
  rewrite string_of_list_ascii_of_string in E. cbn [append] in E.
  rewrite E. mstep. unfold ret. simpl_state. reflexivity.
Qed.

(** X24: reading a decimal number.  [parseint] fails, without moving the
    text pointer, unless a digit is next.  Otherwise it takes all the
    digits up to the first character that is none, leaves the text pointer
    there and yields the number they denote, provided that number is below
    2^31. *)
Theorem parseint_reads_a_numeral (s : state) (ds rest : string) :
  Forall (fun c => isdigitch c = true) (list_ascii_of_string ds) ->
  isdigitch (peek rest) = false ->
  numeral 10 decimal_digit ds < 2147483648 ->
  (parseint (set_txtPtr rest s) = Ret None (set_txtPtr rest s))
  /\ (ds <> EmptyString ->
      parseint (set_txtPtr (ds ++ rest) s)
      = Ret (Some (numeral 10 decimal_digit ds)) (set_txtPtr rest s)).
Proof.
  intros Hds Hrest Hfit. split.
  - unfold parseint. mstep. simpl_state. rewrite Hrest. reflexivity.
  - intros Hne. apply parseint_reads_numeral_at; assumption.
Qed.

(** ** Evaluating an expression *)

Lemma digit_is_plain (c : ascii) :
  isdigitch c = true ->
  is_nul c = false /\ Ascii.eqb c "&" = false /\ isalphach c = false
  /\ Ascii.eqb c " " = false.
Proof.
  destruct c as [b0 b1 b2 b3 b4 b5 b6 b7].
  destruct b0, b1, b2, b3, b4, b5, b6, b7; intros H; vm_compute in H;
    try discriminate H; repeat split.
Qed.

Lemma binary_at_the_end (p : string) :
  is_nul (peek p) = true \/ peek p = ";"%char -> binary p = ILLEGAL.
Proof.
  intros [H | H].
  - unfold binary. rewrite H. unfold is_nul in H. apply Ascii.eqb_eq in H.
    unfold binaryops. cbn [scan1]. rewrite H. reflexivity.
  - unfold binary, binaryops, binaryops1, binaryops2. cbn [binary2 scan1].
    rewrite H. reflexivity.
Qed.

Section Evaluating.

Context {pf : Platform}.

(** X25: the two simplest expressions.  Where nothing but blanks is left
    of the line, [eval] reports a bad expression.  Where a decimal number
    stands, followed after optional blanks by the end of the line or a
    semicolon, [eval] yields that number when interpreting: the number
    goes through the operand stack, whose pointer is afterwards where it
    was, as is the operator stack; the text pointer is behind the blanks
    and nothing is printed. *)
Theorem eval_of_a_numeral (n : nat) (s : state) (ds rest : string) (checkNoMore : bool) :
  s.(compile) = false ->
  List.length s.(operand_stack) = Z.to_nat STACKSZ ->
  0 < s.(operandSP) <= STACKSZ - 1 ->
  aget s.(operator_stack) (s.(operatorSP) + 1) = Some SENTINEL ->
  Forall (fun c => isdigitch c = true) (list_ascii_of_string ds) ->
  isdigitch (peek rest) = false ->
  numeral 10 decimal_digit ds < 2147483648 ->
  is_nul (peek (skip_spaces rest)) = true \/ peek (skip_spaces rest) = ";"%char ->
  (is_nul (peek (skip_spaces rest)) = true ->
   eval (S n) checkNoMore (set_txtPtr rest s)
   = Ret None (set_out (s.(out) ++ chars "?bad expr") (set_txtPtr (skip_spaces rest) s)))
  /\ (ds <> EmptyString ->
      exists s',
        eval (4 + n) checkNoMore (set_txtPtr (ds ++ rest) s)
        = Ret (Some (numeral 10 decimal_digit ds)) s'
        /\ s'.(txtPtr) = skip_spaces rest
        /\ s'.(operandSP) = s.(operandSP)
        /\ s'.(operatorSP) = s.(operatorSP)
        /\ s'.(operator_stack) = s.(operator_stack)
        /\ s'.(out) = s.(out)).
Proof.
  intros Hc Hlen Hsp Htop Hds Hrest Hfit Hend. split.
  - intros Hnul. cbn [eval]. unfold eval_body, eatspace. mstep. simpl_state.
    rewrite Hnul. erewrite bind_Ret by (apply error_Ret; reflexivity).
    reflexivity.
  - intros Hne.
    destruct ds as [ | c ds' ]; [ contradiction | ].
    pose proof Hds as Hds0. cbn [list_ascii_of_string] in Hds0.
    inversion Hds0 as [ | ? ? Hdigit _ ]; subst.
    destruct (digit_is_plain c Hdigit) as (Hnul & Hamp & Halpha & Hblank).
    pose proof (parseint_reads_numeral_at s (String c ds') rest Hds Hrest Hfit Hne) as Hparse.
    eexists. split.
    + change (4 + n)%nat with (S (S (S (S n)))).
      cbn [eval E P E_more E_drain].
      assert (Hskip : skip_spaces (String c ds' ++ rest) = (String c ds' ++ rest)%string).
      { cbn [append skip_spaces]. rewrite Hblank. reflexivity. }
      assert (Hpeek : peek (String c ds' ++ rest) = c) by reflexivity.
      unfold eval_body, E_body, orfail, P_body, eatspace. mstep. simpl_state.
      rewrite !Hskip, !Hpeek, Hnul. mstep. simpl_state.
      rewrite !Hskip, !Hpeek, Hnul, Hamp, Halpha, Hdigit. cbn [orb]. mstep.
      replace (set_txtPtr (String c ds' ++ rest) (set_txtPtr (String c ds' ++ rest) s))
        with (set_txtPtr (String c ds' ++ rest) s) by reflexivity.
      rewrite (bind_Ret _ _ _ _ _ Hparse). mstep.
      erewrite (bind_Ret (push_operand_stack _))
        by (apply push_operand_stack_Ret; simpl_state; assumption).
      mstep. simpl_state. cbv beta iota delta [RET_SUCCESS].
      unfold E_more_body. mstep. simpl_state.
      rewrite (binary_at_the_end _ Hend). cbn [Z.eqb Pos.eqb ILLEGAL negb]. cbv beta iota.
      unfold E_drain_body, top_operator_stack. mstep. simpl_state.
      rewrite Htop. mstep. rewrite Z.eqb_refl. cbn [negb]. mstep.
      assert (Hok : (checkNoMore && negb (Ascii.eqb (peek (skip_spaces rest)) ";")
                     && negb (is_nul (peek (skip_spaces rest))))%bool = false).
      { destruct Hend as [ -> | -> ].
        - cbn [negb]. apply andb_false_r.
        - rewrite Ascii.eqb_refl. cbn [negb]. rewrite andb_false_r. reflexivity. }
      cbv beta iota delta [RET_SUCCESS]. mstep. simpl_state.
      rewrite Hok.
      erewrite (bind_Ret pop_operand_stack)
        by (apply pop_operand_stack_Ret; simpl_state;
            [ exact Hc | zlia
            | replace (operandSP s - 1 + 1) with (operandSP s) by lia;
              apply aget_upd_same; zlia ]).
      reflexivity.
    + simpl_state. repeat split; lia.
Qed.

End Evaluating.

(** ** Calling a subroutine that is not there *)

Section MissingSub.

Context {pf : Platform}.

Lemma docall_scan_none (formals : string -> Z -> bool -> Z -> option nat -> option nat ->
                                   nat -> string -> M bool)
    (origcounter : Z) (sname name : string) (lines : list string) :
  Forall (fun line =>
            starts_with "sub " (skip_spaces line)
            && negb (compareUntil (skip_spaces (drop 4 (skip_spaces line))) name "(")
            = false) lines ->
  forall li s,
    s.(readbuf) = name ->
    exists s',
      docall_scan formals lines li origcounter sname s = Ret RET_ERROR s'
      /\ s'.(counter) = origcounter
      /\ s'.(skipFlag) = match lines with [] => s.(skipFlag) | _ => false end
      /\ s'.(out) = s.(out) ++ chars "?no sub"
      /\ s'.(return_stack) = s.(return_stack)
      /\ s'.(returnSP) = s.(returnSP)
      /\ s'.(vars) = s.(vars)
      /\ s'.(txtPtr) = s.(txtPtr).
Proof.
  intros Hnone. induction Hnone as [ | line lines Hline Hrest IH ]; intros li s Hname.
  - eexists. split.
    + cbn [docall_scan]. mstep.
      erewrite bind_Ret by (apply error_Ret; reflexivity).
      reflexivity.
    + simpl_state. repeat split; reflexivity.
  - destruct (compile s) eqn:Hc.
    + destruct (IH (S li) (set_skipFlag false s) Hname)
        as (s' & Hscan & Hcounter & Hskip & Hout & Hrs & Hsp & Hvars & Htxt).
      exists s'. split.
      * cbn [docall_scan]. mstep. rewrite Hc. cbn [negb]. mstep. simpl_state.
        rewrite Hname, Hline. exact Hscan.
      * rewrite Hcounter, Hskip, Hout, Hrs, Hsp, Hvars, Htxt. simpl_state.
        destruct lines; repeat split; reflexivity.
    + destruct (IH (S li) (set_skipFlag false (set_counter (counter s + 1) s)) Hname)
        as (s' & Hscan & Hcounter & Hskip & Hout & Hrs & Hsp & Hvars & Htxt).
      exists s'. split.
      * cbn [docall_scan]. mstep. rewrite Hc. cbn [negb]. mstep. simpl_state.
        rewrite Hname, Hline. exact Hscan.
      * rewrite Hcounter, Hskip, Hout, Hrs, Hsp, Hvars, Htxt. simpl_state.
        destruct lines; repeat split; reflexivity.
Qed.

(** X26: a call that no subroutine answers.  When no line of the program
    starts with [sub] and a name that matches the name called, [docall]
    prints the no-sub message and reports an error, in either mode.  The
    line counter is what it was, and the return stack, the variables and
    the text pointer are untouched; but skipFlag is cleared as soon as the
    program has a line. *)
Theorem call_of_a_missing_sub (n : nat) (s : state) :
  Forall (fun line =>
            starts_with "sub " (skip_spaces line)
            && negb (compareUntil (skip_spaces (drop 4 (skip_spaces line)))
                       s.(readbuf) "(") = false) s.(program) ->
  exists s',
    docall (S n) s = Ret RET_ERROR s'
    /\ s'.(counter) = s.(counter)
    /\ s'.(skipFlag) = match s.(program) with [] => s.(skipFlag) | _ => false end
    /\ s'.(out) = s.(out) ++ chars "?no sub"
    /\ s'.(return_stack) = s.(return_stack)
    /\ s'.(returnSP) = s.(returnSP)
    /\ s'.(vars) = s.(vars)
    /\ s'.(txtPtr) = s.(txtPtr).
Proof.
  intros Hnone. cbn [docall]. unfold docall_body. mstep.
  destruct (compile s) eqn:Hc; cbn [negb]; mstep; simpl_state.
  - apply (docall_scan_none _ _ _ _ _ Hnone 0%nat s eq_refl).
  - destruct (docall_scan_none (docall_formals n) (counter s)
                (strn SUBRNUMCHARS (readbuf s)) _ _ Hnone 0%nat (set_counter (-1) s) eq_refl)
      as (s' & Hscan & Hrest).
    exists s'. split; [ exact Hscan | exact Hrest ].
Qed.

End MissingSub.

(** ** Examples of the further properties *)

Section FurtherExamples.

#[local] Existing Instance example_host.

Lemma three_values_pushed_and_popped :
  exists st',
    (push_returns [RInt 1; RTxt "x"; RInt 3] ;; pop_returns 3) boot
    = Ret [RInt 3; RTxt "x"; RInt 1] (set_return_stack st' boot)
    /\ List.length st' = Z.to_nat RETSTACKSZ
    /\ forall i, boot.(returnSP) < i -> aget st' i = aget boot.(return_stack) i.
Proof.
  apply (return_stack_is_lifo [RInt 1; RTxt "x"; RInt 3] boot).
  - reflexivity.
  - cbn. zlia.
Defined.

Lemma pop_from_the_empty_return_stack :
  pop_return boot = LongJmp (set_out (boot.(out) ++ chars "?stack") boot)
  /\ push_return (RInt 1) (set_returnSP 0 boot)
     = LongJmp (set_out (boot.(out) ++ chars "?stack")
                  (set_return_stack (upd boot.(return_stack) 0 (RInt 1))
                     (set_returnSP 0 boot))).
Proof.
  split.
  - destruct (return_stack_overflow_underflow boot (RInt 1) eq_refl) as [_ Hpop].
    apply Hpop. reflexivity.
  - destruct (return_stack_overflow_underflow (set_returnSP 0 boot) (RInt 1) eq_refl)
      as [Hpush _].
    apply Hpush. reflexivity.
Defined.

Lemma operand_7_pushed_and_popped :
  (push_operand_stack 7 ;; pop_operand_stack) ready
  = Ret 7 (set_operand_stack (upd ready.(operand_stack) 15 7) ready)
  /\ pop_operand_stack ready = LongJmp ready
  /\ push_operand_stack 7 compiling
     = Ret tt (set_rtPC 3 (set_code [Op VM_LDIMM; Byte 7; Byte 0] compiling)).
Proof.
  destruct (operand_stack_modes ready 7 eq_refl) as (Hround & Hempty & _).
  destruct (operand_stack_modes compiling 7 eq_refl) as (_ & _ & Hcompile).
  split; [ | split ].
  - apply Hround; [ reflexivity | ].
    replace (operandSP ready) with 15 by reflexivity. cbn. zlia.
  - apply Hempty; reflexivity.
  - apply (Hcompile eq_refl).
Defined.

Lemma two_to_the_tenth :
  pop_operator (raising false)
  = Ret RET_SUCCESS
      (set_operandSP 14
         (set_operand_stack (repeat 0 14 ++ [10; 1024])
            (set_operatorSP 14 (raising false))))
  /\ pop_operator (raising true)
     = Ret RET_SUCCESS
         (set_rtPC 3
            (set_code [Op VM_LDIMM; Byte 1; Byte 0] (set_operatorSP 14 (raising true)))).
Proof.
  split.
  - destruct (power_operator (raising false)) as [Hinterpret _].
    + cbn. zlia.
    + reflexivity.
    + apply (Hinterpret eq_refl 2 10).
      * reflexivity.
      * cbn. zlia.
      * reflexivity.
      * reflexivity.
  - destruct (power_operator (raising true)) as [_ Hcompile].
    + cbn. zlia.
    + reflexivity.
    + apply (Hcompile eq_refl).
Defined.

Lemma if_0_else_endif :
  doif 0 boot = Ret tt (if_pushed 0 boot)
  /\ (if_pushed 0 boot).(skipFlag) = true
  /\ (doif 0 ;; doelse) boot = Ret RET_SUCCESS (set_skipFlag false (if_pushed 0 boot))
  /\ (doif 0 ;; doendif) boot
     = Ret RET_SUCCESS (set_returnSP 63 (set_skipFlag false (if_pushed 0 boot)))
  /\ (doif 0 ;; doelse ;; doendif) boot
     = Ret RET_SUCCESS (set_returnSP 63 (set_skipFlag false (if_pushed 0 boot))).
Proof.
  apply (if_else_endif boot 0).
  - reflexivity.
  - reflexivity.
  - cbn. zlia.
Defined.

Lemma while_1_endwhile :
  dowhile "while 1" 1 ready = Ret tt (while_pushed "while 1" 1 ready)
  /\ doendwhile (while_pushed "while 1" 1 ready)
     = Ret RET_SUCCESS
         (set_returnSP 63 (resumed (-1) "while 1" (while_pushed "while 1" 1 ready))).
Proof.
  split.
  - destruct (while_frames ready eq_refl eq_refl) as [Hwhile _].
    apply (Hwhile "while 1" 1).
    replace (returnSP ready) with 63 by reflexivity. zlia.
  - destruct (while_frames (while_pushed "while 1" 1 ready) eq_refl eq_refl) as [_ Hend].
    destruct (Hend 2 (-1) "while 1") as (_ & _ & Hagain).
    + replace (returnSP (while_pushed "while 1" 1 ready)) with 59 by reflexivity. lia.
    + replace (returnSP (while_pushed "while 1" 1 ready)) with 59 by reflexivity. zlia.
    + reflexivity.
    + reflexivity.
    + reflexivity.
    + reflexivity.
    + left. reflexivity.
    + apply Hagain. reflexivity.
Defined.


Lemma scalar_i_with_a_subscript :
  setintvar "i" 3 7 (with_i 5)
  = Ret RET_ERROR (set_out ((with_i 5).(out) ++ chars "?bad idx") (with_i 5))
  /\ getintvar "i" 3 false (with_i 5)
     = Ret None (set_out ((with_i 5).(out) ++ chars "?bad idx") (with_i 5)).
Proof.
  destruct (subscripts_are_checked (with_i 5) "i" 0%nat true (word_i 5)) as [_ Hscalar].
  - reflexivity.
  - reflexivity.
  - reflexivity.
  - reflexivity.
  - reflexivity.
  - apply (Hscalar 3 7); [ reflexivity | lia ].
Defined.

Lemma word_x_declared :
  (createintvar 1 "x" TYPE_WORD 0 1 5 0 boot = Ret RET_SUCCESS (declared "x" TYPE_WORD 5 boot)
   /\ findintvar "x" false (declared "x" TYPE_WORD 5 boot) = (Some 0%nat, true)
   /\ getintvar "x" (-1) false (declared "x" TYPE_WORD 5 boot)
      = Ret (Some (5, TYPE_WORD)) (declared "x" TYPE_WORD 5 boot))
  /\ (createintvar 1 "j" TYPE_BYTE 0 1 261 0 after_call
      = Ret RET_SUCCESS (declared "j" TYPE_BYTE 261 after_call)
      /\ fst (findintvar "j" true (declared "j" TYPE_BYTE 261 after_call)) = None
      /\ findintvar "j" false (declared "j" TYPE_BYTE 261 after_call) = (Some 1%nat, false)
      /\ getintvar "j" (-1) false (declared "j" TYPE_BYTE 261 after_call)
         = Ret (Some (5, TYPE_BYTE)) (declared "j" TYPE_BYTE 261 after_call)).
Proof.
  split.
  - destruct (declare_then_read 0 boot "x" TYPE_WORD 1 5)
      as (Hrun & _ & _ & Hscope & _).
    + reflexivity.
    + reflexivity.
    + left. reflexivity.
    + reflexivity.
    + lia.
    + cbn. lia.
    + cbn. lia.
    + destruct (Hscope eq_refl) as [Hfind Hread].
      split; [ exact Hrun | split; [ exact Hfind | exact Hread ] ].
  - destruct (declare_then_read 0 after_call "j" TYPE_BYTE 1 261)
      as (Hrun & _ & _ & _ & Hnoscope).
    + reflexivity.
    + reflexivity.
    + right. left. reflexivity.
    + reflexivity.
    + lia.
    + cbn. lia.
    + cbn. lia.
    + destruct (Hnoscope eq_refl) as [Hnever Hglobal]; [ discriminate | ].
      destruct Hglobal as [Hfind Hread].
      * reflexivity.
      * repeat constructor.
      * reflexivity.
      * split; [ exact Hrun | split; [ exact Hnever | split; [ exact Hfind | exact Hread ] ] ].
Defined.

Lemma totals_is_total :
  (forall local,
      findintvar "totals" local (declared "total" TYPE_WORD 0 boot)
      = findintvar "total" local (declared "total" TYPE_WORD 0 boot))
  /\ createintvar 1 "totals" TYPE_BYTE 0 1 0 0 (declared "total" TYPE_WORD 0 boot)
     = Ret RET_ERROR
         (set_out ((declared "total" TYPE_WORD 0 boot).(out) ++ chars "?redef")
            (declared "total" TYPE_WORD 0 boot)).
Proof.
  destruct (redeclaration_is_refused 0 (declared "total" TYPE_WORD 0 boot)
              "totals" "total" TYPE_BYTE 0 1 0 0 eq_refl) as [Hsame Hredef].
  split; [ exact Hsame | ].
  apply Hredef. discriminate.
Defined.

Lemma frame_inside_the_callee :
  exists marked,
    vars_markcallframe in_callee = Ret tt marked
    /\ marked.(vars)
       = [caller_x; frame_marker; local_y;
          mkVar 134537151 "----" TYPE_WORD (IntCell 134537167)]
    /\ marked.(varslocal) = Some 3%nat
    /\ marked.(calllevel) = 3
    /\ forall locals s1,
         s1.(vars) = marked.(vars) ++ locals ->
         s1.(varslocal) = marked.(varslocal) ->
         NoDup (map v_addr s1.(vars)) ->
         s1.(heap1Ptr) = varsend_addr s1.(vars) ->
         exists s2,
           vars_deletecallframe s1 = Ret tt s2
           /\ s2.(vars) = [caller_x; frame_marker; local_y]
           /\ s2.(calllevel) = wrap (s1.(calllevel) - 1)
           /\ s2.(heap1Ptr) = 134537167
           /\ s2.(varslocal) = Some 1%nat.
Proof.
  destruct (call_frame_round_trip in_callee)
    as (marked & Hmark & Hvars & Hlocal & Hlevel & Hback).
  - cbn. lia.
  - cbn. lia.
  - repeat constructor; discriminate.
  - exists marked. split; [ exact Hmark | ].
    split; [ exact Hvars | split; [ exact Hlocal | split; [ exact Hlevel | ] ] ].
    intros locals s1 H1 H2 H3 H4.
    destruct (Hback locals s1 H1 H2 H3 H4) as (s2 & Hdel & Hv & Hl & Hh & _ & Hscope).
    exists s2. split; [ exact Hdel | ].
    split; [ exact Hv | split; [ exact Hl | split; [ exact Hh | ] ] ].
    apply (Hscope [caller_x] frame_marker [local_y]).
    + reflexivity.
    + reflexivity.
    + repeat constructor.
Defined.

Lemma i_declared_again :
  createintvar 1 "i" TYPE_WORD 0 1 9 0 after_call
  = Ret RET_SUCCESS (declared "i" TYPE_WORD 9 after_call)
  /\ (declared "i" TYPE_WORD 9 after_call).(vars)
     = after_call.(vars) ++ [scalar_entry "i" TYPE_WORD 9 after_call]
  /\ (0 < List.length after_call.(vars))%nat
  /\ findintvar "i" false (declared "i" TYPE_WORD 9 after_call) = (Some 0%nat, false).
Proof.
  apply (redeclared_global_stays_hidden 0 after_call "i" TYPE_WORD 1 9 0).
  - reflexivity.
  - reflexivity.
  - reflexivity.
  - left. reflexivity.
  - lia.
  - cbn. zlia.
  - cbn. zlia.
Defined.

Lemma y_is_local_in_the_callee :
  (exists v, nth_error in_callee.(vars) 2 = Some v /\ same_name "y" v.(v_name) = true)
  /\ (true = true -> exists l, in_callee.(varslocal) = Some l /\ (l <= 2)%nat)
  /\ (true = false ->
      false = false
      /\ Forall (fun v => is_marker v = false) (firstn 3 in_callee.(vars))).
Proof.
  apply (lookup_respects_scopes in_callee "y" false 2 true).
  reflexivity.
Defined.

Lemma endfor_at_1_and_at_4 :
  (exists vs',
      doendfor (in_for_loop 1)
      = Ret RET_SUCCESS (resumed (-1) "; pr.dec i; endfor" (set_vars vs' (in_for_loop 1)))
      /\ load_var true vs' 134537211 = Some (incremented true 1)
      /\ Forall2 kept (in_for_loop 1).(vars) vs')
  /\ doendfor (in_for_loop 4) = Ret RET_SUCCESS (set_returnSP 63 (in_for_loop 4)).
Proof.
  split.
  - destruct (endfor_steps (in_for_loop 1) true 134537211 4 (-1) 1 "; pr.dec i; endfor")
      as [_ Hmore].
    + reflexivity.
    + cbn. zlia.
    + cbn. zlia.
    + reflexivity.
    + reflexivity.
    + reflexivity.
    + reflexivity.
    + reflexivity.
    + reflexivity.
    + left. reflexivity.
    + apply Hmore. lia.
  - destruct (endfor_steps (in_for_loop 4) true 134537211 4 (-1) 4 "; pr.dec i; endfor")
      as [Hdone _].
    + reflexivity.
    + cbn. zlia.
    + cbn. zlia.
    + reflexivity.
    + reflexivity.
    + reflexivity.
    + reflexivity.
    + reflexivity.
    + reflexivity.
    + left. reflexivity.
    + apply Hdone. lia.
Defined.

Lemma no_room_for_word_x :
  createintvar 1 "x" TYPE_WORD 0 1 5 0 arena_full
  = LongJmp (set_out (arena_full.(out) ++ chars ("No mem (1)!" ++ nl)) arena_full)
  /\ (arena_full.(heap1Ptr) - (SZ_VAR + SZ_INT) < HEAP1LIM ->
      vars_markcallframe arena_full
      = LongJmp (set_out (arena_full.(out) ++ chars ("No mem (1)!" ++ nl))
                   (set_calllevel (wrap (arena_full.(calllevel) + 1)) arena_full))).
Proof.
  apply (no_room_in_arena 0 arena_full "x" TYPE_WORD 1 5).
  - reflexivity.
  - reflexivity.
  - left. reflexivity.
  - lia.
  - cbn. zlia.
  - cbn. zlia.
Defined.

Lemma forty_two :
  parseint (set_txtPtr " + x" boot) = Ret None (set_txtPtr " + x" boot)
  /\ parseint (set_txtPtr "42 + x" boot) = Ret (Some 42) (set_txtPtr " + x" boot).
Proof.
  destruct (parseint_reads_a_numeral boot "42" " + x") as [Hnone Hsome].
  - repeat constructor.
  - reflexivity.
  - cbn. zlia.
  - split; [ exact Hnone | ]. apply Hsome. discriminate.
Defined.

Lemma if_1_endif_compiled :
  doif 1 compiling = Ret tt (if_compiled compiling)
  /\ exists s3,
       doendif then_block = Ret RET_SUCCESS s3
       /\ s3.(code)
          = compiling.(code) ++ Op VM_NOT :: jump VM_BRNCHIMM s3.(rtPC) ++ [Op VM_PRCH]
       /\ in_step s3
       /\ s3.(returnSP) = compiling.(returnSP).
Proof.
  destruct (compiled_if_else_endif compiling 1) as (Hif & Hendif & _).
  - reflexivity.
  - reflexivity.
  - cbn. lia.
  - reflexivity.
  - cbn. zlia.
  - split; [ exact Hif | ].
    apply (Hendif [Op VM_PRCH] then_block).
    repeat split.
Defined.

Lemma three_lines_typed :
  exists s',
    main_loop 0 ("pr.dec 1" :: ["pr.nl"; "pr.dec 2"] ++ ["."]) editing = Some s'
    /\ s'.(program) = cstr "pr.dec 1" :: map cstr ["pr.nl"; "pr.dec 2"] ++ editing.(program)
    /\ s'.(current) = Some 2%nat
    /\ s'.(editmode) = 0
    /\ s'.(out) = editing.(out) ++ repeat (PrCh ">") 4.
Proof.
  destruct (typing_a_program 0 ["pr.nl"; "pr.dec 2"]) with (s := editing) as [_ Hinsert].
  - repeat constructor.
  - reflexivity.
  - apply (Hinsert "pr.dec 1"). reflexivity.
Defined.

Lemma eval_42 :
  exists s',
    eval 4 true (set_txtPtr "42 ; pr.nl" ready) = Ret (Some 42) s'
    /\ s'.(txtPtr) = "; pr.nl"
    /\ s'.(operandSP) = ready.(operandSP)
    /\ s'.(operatorSP) = ready.(operatorSP)
    /\ s'.(operator_stack) = ready.(operator_stack)
    /\ s'.(out) = ready.(out).
Proof.
  destruct (eval_of_a_numeral 0 ready "42" " ; pr.nl" true) as [_ Hnumber].
  - reflexivity.
  - reflexivity.
  - replace (operandSP ready) with 15 by reflexivity. zlia.
  - reflexivity.
  - repeat constructor.
  - reflexivity.
  - cbn. lia.
  - right. reflexivity.
  - apply Hnumber. discriminate.
Defined.

Lemma bar_is_not_defined :
  exists s',
    docall 1 calling_bar = Ret RET_ERROR s'
    /\ s'.(counter) = calling_bar.(counter)
    /\ s'.(skipFlag) = match calling_bar.(program) with
                       | [] => calling_bar.(skipFlag)
                       | _ => false
                       end
    /\ s'.(out) = calling_bar.(out) ++ chars "?no sub"
    /\ s'.(return_stack) = calling_bar.(return_stack)
    /\ s'.(returnSP) = calling_bar.(returnSP)
    /\ s'.(vars) = calling_bar.(vars)
    /\ s'.(txtPtr) = calling_bar.(txtPtr).
Proof.
  apply (call_of_a_missing_sub 0 calling_bar).
  repeat constructor.
Defined.

Lemma foobar_answers_to_foo :
  compareUntil "foo(word x)" "foobar" "(" = false
  /\ compareUntil "foobar()" "foo" "(" = true.
Proof.
  split.
  - destruct (call_matches_by_prefix "foo(word x)" "foobar" "(") as [_ Hmatch].
    + discriminate.
    + apply Hmatch. exists "foo", "("%char, "word x)", "bar".
      repeat split; [ left; reflexivity | discriminate | repeat constructor ].
  - reflexivity.
Defined.

End FurtherExamples.
